(** * BULWARK time restrictions: usage accounting and limit enforcement

    A shallow embedding of the [TimeRestrictions] class of
    [time-restrictions.js] (the copy in [background.js] is the same code,
    method for method), and the properties of the engine that its
    specification states.

    Conventions of the embedding.
    - Timestamps are milliseconds since the epoch, as [Date.now()] returns
      them, and minutes counted by a pass are integers.  Both are [Z].  The
      source computes with IEEE doubles; the embedding computes with exact
      integers, and the rounding of doubles is not modelled.
    - A limit or a usage that the engine stores is a [number]: an integer
      or [NaN].  An integer beyond the range of the doubles, which
      JavaScript reads as [Infinity], is that integer.
    - An argument of a message is a [value]: any value that a message can
      carry.  A finite number among them is given by the decimal that it
      prints as, which is all that the engine reads of it.
    - Strings are [string]s of 8-bit characters; [toLowerCase], [trim] and
      the white space that [parseInt] and [Number] skip are those of the
      ASCII range.
    - Every handler runs to completion before the next one starts; a call
      into the browser ([chrome.storage], [chrome.tabs],
      [chrome.notifications]) is recorded as an [effect], in the order in
      which the calls are made, and is assumed to succeed.  The callback
      of a [chrome.tabs.query] runs in a later task, after the calls that
      the handler still makes. *)

From Stdlib Require Import ZArith QArith Ascii String List Bool Lia.
From stdpp Require Import base option list gmap strings.
Import ListNotations.

Local Open Scope Z_scope.

(** ** JavaScript strings *)

Module JSString.

Definition lower_ascii (c : ascii) : ascii :=
  let n := nat_of_ascii c in
  if ((65 <=? n) && (n <=? 90))%nat then ascii_of_nat (n + 32) else c.

Fixpoint toLowerCase (s : string) : string :=
  match s with
  | EmptyString => EmptyString
  | String c r => String (lower_ascii c) (toLowerCase r)
  end.

(** White space and line terminators of the ASCII range. *)
Definition is_space (c : ascii) : bool :=
  let n := nat_of_ascii c in
  ((9 <=? n) && (n <=? 13) || (n =? 32))%nat.

Fixpoint trimStart (s : string) : string :=
  match s with
  | EmptyString => EmptyString
  | String c r => if is_space c then trimStart r else s
  end.

Fixpoint trimEnd (s : string) : string :=
  match s with
  | EmptyString => EmptyString
  | String c r =>
      match trimEnd r with
      | EmptyString => if is_space c then EmptyString else String c EmptyString
      | r' => String c r'
      end
  end.

Definition trim (s : string) : string := trimEnd (trimStart s).

(** [startsWith p s] is [s.startsWith(p)]. *)
Fixpoint startsWith (p s : string) : bool :=
  match p, s with
  | EmptyString, _ => true
  | String a p', String b s' => Ascii.eqb a b && startsWith p' s'
  | String _ _, EmptyString => false
  end.

Fixpoint drop (n : nat) (s : string) : string :=
  match n, s with
  | O, _ => s
  | S n', String _ r => drop n' r
  | S _, EmptyString => EmptyString
  end.

(** [s.replace(/^p/, '')] for a literal [p]. *)
Definition removePrefix (p s : string) : string :=
  if startsWith p s then drop (String.length p) s else s.

(** [s.split(d)[0]]: the part of [s] before the first [d]. *)
Fixpoint firstField (d : ascii) (s : string) : string :=
  match s with
  | EmptyString => EmptyString
  | String c r => if Ascii.eqb c d then EmptyString else String c (firstField d r)
  end.

Fixpoint contains (d : ascii) (s : string) : bool :=
  match s with
  | EmptyString => false
  | String c r => Ascii.eqb c d || contains d r
  end.

(** The part of [s] after the last [d], or [s] itself without any [d]. *)
Fixpoint afterLast (d : ascii) (s : string) : string :=
  match s with
  | EmptyString => EmptyString
  | String c r =>
      if contains d r then afterLast d r
      else if Ascii.eqb c d then r else s
  end.

(** JavaScript truthiness of a string. *)
Definition truthy (s : string) : bool :=
  match s with EmptyString => false | _ => true end.

End JSString.

(** ** JavaScript numbers *)

(** A number that the engine stores or computes: an integer or [NaN]. *)
Inductive number : Type :=
| NaN
| Int (z : Z).

Module JSNumber.

(** [a + b] *)
Definition add (a b : number) : number :=
  match a, b with
  | Int x, Int y => Int (x + y)
  | _, _ => NaN
  end.

(** [Math.min(a, b)] *)
Definition min (a b : number) : number :=
  match a, b with
  | Int x, Int y => Int (Z.min x y)
  | _, _ => NaN
  end.

(** [a >= b] and [a <= b]: false as soon as one side is [NaN]. *)
Definition geb (a b : number) : bool :=
  match a, b with
  | Int x, Int y => y <=? x
  | _, _ => false
  end.

Definition leb (a b : number) : bool :=
  match a, b with
  | Int x, Int y => x <=? y
  | _, _ => false
  end.

(** [a === b]: [NaN] is not equal to itself. *)
Definition strict_eq (a b : number) : bool :=
  match a, b with
  | Int x, Int y => x =? y
  | _, _ => false
  end.

Definition truthy (a : number) : bool :=
  match a with
  | Int z => negb (z =? 0)
  | NaN => false
  end.

(** Leading decimal digit of an integer [n >= 1]. *)
Fixpoint leadBig (fuel : nat) (n : Z) : Z :=
  match fuel with
  | O => n
  | S f => if n <? 10 then n else leadBig f (n / 10)
  end.

(** Leading significant digit of [num/den] for [0 < num < den]. *)
Fixpoint leadSmall (fuel : nat) (num den : Z) : Z :=
  match fuel with
  | O => num / den
  | S f => if den <=? num then num / den else leadSmall f (10 * num) den
  end.

(** [Number.prototype.toString] prints [1e-6 <= |x| < 1e21] (and zero)
    in plain decimal notation and everything else with an exponent. *)
Definition plainDecimal (q : Q) : bool :=
  let a := Z.abs (Qnum q) in
  let d := Z.pos (Qden q) in
  (a =? 0) || ((d <=? 10 ^ 6 * a) && (a <? 10 ^ 21 * d)).

(** [parseInt(x)] of the finite number that prints as the decimal [q]:
    the leading run of digits of the printed form is read back, so a
    plain decimal is truncated toward zero and an exponent form gives
    its leading digit. *)
Definition parseInt (q : Q) : Z :=
  let a := Z.abs (Qnum q) in
  let d := Z.pos (Qden q) in
  let m :=
    if plainDecimal q then a / d
    else if d <=? a then leadBig (Z.to_nat (Z.log2 (a / d))) (a / d)
    else leadSmall (Z.to_nat (Z.log2 d)) a d in
  Z.sgn (Qnum q) * m.

End JSNumber.

(** ** The values that a message carries *)

Module JSValue.

(** A double.  [Decimal m e] is the finite number that prints as the
    decimal [m * 10^e]: [Decimal 1 23] is the double that JavaScript
    writes [1e+23], [Decimal 25 (-1)] is [2.5], and [Decimal 0 0] is
    zero. *)
Inductive double : Type :=
| NotANumber
| Infinity (negative : bool)
| Decimal (m e : Z).

(** [Object printed] is an array or a plain object whose [toString()]
    gives [printed]. *)
Inductive value : Type :=
| Undefined
| Null
| Bool (b : bool)
| Number (x : double)
| Str (s : string)
| Object (printed : string).

(** The decimal [m * 10^e] as a fraction. *)
Definition decimal (m e : Z) : Q :=
  if 0 <=? e then inject_Z (m * 10 ^ e) else Qmake m (Z.to_pos (10 ^ (- e))).

(** [!!v] *)
Definition truthy (v : value) : bool :=
  match v with
  | Undefined | Null => false
  | Bool b => b
  | Number (Decimal m _) => negb (m =? 0)
  | Number (Infinity _) => true
  | Number NotANumber => false
  | Str s => JSString.truthy s
  | Object _ => true
  end.

Definition is_digit (c : ascii) : bool :=
  let n := nat_of_ascii c in ((48 <=? n) && (n <=? 57))%nat.

(** The value of [c] as a digit of the radix, if it is one. *)
Definition digit_value (radix : Z) (c : ascii) : option Z :=
  let n := Z.of_nat (nat_of_ascii c) in
  let v :=
    if (48 <=? n) && (n <=? 57) then Some (n - 48)
    else if (97 <=? n) && (n <=? 122) then Some (n - 87)
    else if (65 <=? n) && (n <=? 90) then Some (n - 55)
    else None in
  match v with
  | Some d => if d <? radix then Some d else None
  | None => None
  end.

(** The integer that the longest prefix of digits of [s] denotes; [acc]
    is what has been read, [None] before the first digit. *)
Fixpoint read_digits (radix : Z) (acc : option Z) (s : string) : option Z :=
  match s with
  | EmptyString => acc
  | String c r =>
      match digit_value radix c with
      | Some d => read_digits radix (Some (radix * default 0 acc + d)) r
      | None => acc
      end
  end.

(** [parseInt(s)] of a string: leading white space is skipped, then a
    sign, then [0x] or [0X], and the longest run of digits is read;
    without a digit the result is [NaN]. *)
Definition parseInt_string (s : string) : number :=
  let s1 := JSString.trimStart s in
  let negative := JSString.startsWith "-" s1 in
  let s2 := if negative || JSString.startsWith "+" s1 then JSString.drop 1 s1 else s1 in
  let hex := JSString.startsWith "0x" s2 || JSString.startsWith "0X" s2 in
  let s3 := if hex then JSString.drop 2 s2 else s2 in
  match read_digits (if hex then 16 else 10) None s3 with
  | Some n => Int (if negative then - n else n)
  | None => NaN
  end.

Fixpoint skip_digits (s : string) : string :=
  match s with
  | EmptyString => EmptyString
  | String c r => if is_digit c then skip_digits r else s
  end.

Definition has_digit (s : string) : bool :=
  match s with
  | EmptyString => false
  | String c _ => is_digit c
  end.

(** [s] is empty or an exponent part: [e] or [E], an optional sign and
    digits up to the end. *)
Definition exponent_opt (s : string) : bool :=
  match s with
  | EmptyString => true
  | String c r =>
      (Ascii.eqb c "e" || Ascii.eqb c "E")
      && (let digits :=
            if JSString.startsWith "+" r || JSString.startsWith "-" r
            then JSString.drop 1 r else r in
          has_digit digits && String.eqb (skip_digits digits) EmptyString)
  end.

(** [StrUnsignedDecimalLiteral]: [Infinity], or digits with an optional
    fraction, or a fraction, each with an optional exponent. *)
Definition unsigned_decimal (s : string) : bool :=
  String.eqb s "Infinity"
  || (if has_digit s then
        match skip_digits s with
        | String "." t => exponent_opt (skip_digits t)
        | r => exponent_opt r
        end
      else
        match s with
        | String "." t => has_digit t && exponent_opt (skip_digits t)
        | _ => false
        end).

Fixpoint all_digits (radix : Z) (s : string) : bool :=
  match s with
  | EmptyString => true
  | String c r =>
      match digit_value radix c with
      | Some _ => all_digits radix r
      | None => false
      end
  end.

(** [s] is not empty and each of its characters is a digit of the radix. *)
Definition radix_digits (radix : Z) (s : string) : bool :=
  JSString.truthy s && all_digits radix s.

(** [NonDecimalIntegerLiteral]: [0x], [0o] or [0b] with digits. *)
Definition non_decimal (s : string) : bool :=
  match s with
  | String "0" (String c r) =>
      if Ascii.eqb c "x" || Ascii.eqb c "X" then radix_digits 16 r
      else if Ascii.eqb c "o" || Ascii.eqb c "O" then radix_digits 8 r
      else if Ascii.eqb c "b" || Ascii.eqb c "B" then radix_digits 2 r
      else false
  | _ => false
  end.

(** [Number(s)] is a number and not [NaN]: [s] is, between white space,
    empty or a numeric literal. *)
Definition numeric (s : string) : bool :=
  let t := JSString.trim s in
  match t with
  | EmptyString => true
  | String c r =>
      if Ascii.eqb c "+" || Ascii.eqb c "-" then unsigned_decimal r
      else unsigned_decimal t || non_decimal t
  end.

(** [isNaN(v)]: [Number(undefined)] is [NaN], [Number(null)] is [0],
    [Number(true)] is [1]; a string, and an object through its
    [toString()], is read as a numeric literal. *)
Definition isNaN (v : value) : bool :=
  match v with
  | Undefined => true
  | Null | Bool _ => false
  | Number NotANumber => true
  | Number _ => false
  | Str s | Object s => negb (numeric s)
  end.

(** [parseInt(v)]: the value is printed and the printed form is read.
    [undefined], [null], [true], [false], [NaN], [Infinity] and
    [-Infinity] print without a leading digit. *)
Definition parseInt (v : value) : number :=
  match v with
  | Number (Decimal m e) => Int (JSNumber.parseInt (decimal m e))
  | Str s | Object s => parseInt_string s
  | _ => NaN
  end.

End JSValue.

(** ** The host browser *)

Module Host.

(** A tab as [chrome.tabs] reports it; [tab_url] is [None] when the
    browser withholds the URL. *)
Record Tab : Type := mkTab { tab_id : Z; tab_url : option string }.

(** [chrome.tabs.get(tabId)]: the open tab with that identifier. *)
Fixpoint tabs_get (tabs : list Tab) (tabId : Z) : option Tab :=
  match tabs with
  | [] => None
  | t :: r => if tab_id t =? tabId then Some t else tabs_get r tabId
  end.

(** [new URL(url).hostname] for the URLs the engine hands to it, which
    start with [http://] or [https://]: the authority ends at the first
    [/], [?] or [#], loses its user information and its port, and is
    lower-cased.  [None] stands for the [TypeError] of an invalid URL.
    Bracketed IPv6 hosts, percent-decoding and IDNA are not covered. *)
Definition url_hostname (url : string) : option string :=
  let rest :=
    if JSString.startsWith "http://" url then JSString.drop 7 url
    else JSString.drop 8 url in
  let authority :=
    JSString.firstField "#" (JSString.firstField "?" (JSString.firstField "/" rest)) in
  let host :=
    JSString.toLowerCase (JSString.firstField ":" (JSString.afterLast "@" authority)) in
  if JSString.truthy host then Some host else None.

(** A URL inside the extension package, as [chrome.runtime.getURL(path)]
    returns it; the extension origin is chosen by the browser and stays
    symbolic. *)
Inductive extension_url : Type :=
| getURL (path : string).

End Host.

Import Host.

(** ** Data model *)

(** An entry of [currentSettings.siteLimits]. *)
Record SiteLimit : Type := mkSiteLimit {
  site : string;
  limit : number;
  used : number;
  enabled : bool
}.

(** [currentSettings], the keys that [saveSettings] writes. *)
Record Settings : Type := mkSettings {
  timeRestrictionsEnabled : bool;
  globalDailyLimit : option number;      (* [None] is [null] *)
  globalUsed : Z;
  warningMessage : string;
  siteLimits : list SiteLimit;
  lastResetDate : string
}.

(** A value of the [timeTrackers] map. *)
Record Session : Type := mkSession {
  hostname : string;
  startTime : Z;
  lastUpdate : Z
}.

(** [timeTrackers] is a [Map] from tab identifiers to sessions: entries in
    insertion order, one per key. *)
Definition Trackers : Type := list (Z * Session).

(** The engine: the fields of a [TimeRestrictions] instance. *)
Record Engine : Type := mkEngine {
  currentSettings : Settings;
  timeTrackers : Trackers;
  isUpdating : bool
}.

(** What [chrome.storage.local.get(defaults)] returns in [loadSettings]. *)
Record Stored : Type := mkStored {
  stored_settings : Settings;
  stored_sessions : list (Z * Session)   (* [Object.entries(trackingSessions)] *)
}.

(** Calls into the browser.  [TabsQuery callback] is
    [chrome.tabs.query(\{\}, callback)]: the browser answers in a later
    task, and [callback tabs] are the calls that the callback makes when
    the answer is [tabs]. *)
#[warnings="-register-all"] Inductive effect : Type :=
| StorageSetSettings (s : Settings)
| StorageSetSessions (sessions : list (Z * Session))
| NotificationCreate (title message : string) (priority : Z)
| TabsQuery (callback : list Tab -> list effect)
| TabsUpdate (tabId : Z) (url : extension_url).

(** The answer of a message handler: [{success, error}]. *)
Record Response : Type := mkResponse {
  success : bool;
  error : option string
}.

Definition ok : Response := mkResponse true None.
Definition failure (msg : string) : Response := mkResponse false (Some msg).

(** JavaScript truthiness of a minute count. *)
Definition truthyZ (n : Z) : bool := negb (n =? 0).

(** JavaScript truthiness of [globalDailyLimit]. *)
Definition limit_set (l : option number) : bool :=
  match l with Some n => JSNumber.truthy n | None => false end.

(** *** Field updates *)

Definition set_globalUsed (n : Z) (s : Settings) : Settings :=
  mkSettings (timeRestrictionsEnabled s) (globalDailyLimit s) n
             (warningMessage s) (siteLimits s) (lastResetDate s).

Definition set_siteLimits (l : list SiteLimit) (s : Settings) : Settings :=
  mkSettings (timeRestrictionsEnabled s) (globalDailyLimit s) (globalUsed s)
             (warningMessage s) l (lastResetDate s).

Definition set_lastResetDate (d : string) (s : Settings) : Settings :=
  mkSettings (timeRestrictionsEnabled s) (globalDailyLimit s) (globalUsed s)
             (warningMessage s) (siteLimits s) d.

Definition set_used (n : number) (e : SiteLimit) : SiteLimit :=
  mkSiteLimit (site e) (limit e) n (enabled e).

Definition set_enabled (b : bool) (e : SiteLimit) : SiteLimit :=
  mkSiteLimit (site e) (limit e) (used e) b.

Definition set_settings (s : Settings) (e : Engine) : Engine :=
  mkEngine s (timeTrackers e) (isUpdating e).

Definition set_trackers (m : Trackers) (e : Engine) : Engine :=
  mkEngine (currentSettings e) m (isUpdating e).

(** *** The [Map] operations used on [timeTrackers] *)

Module TrackerMap.

Fixpoint get (tabId : Z) (m : Trackers) : option Session :=
  match m with
  | [] => None
  | (k, v) :: r => if k =? tabId then Some v else get tabId r
  end.

Definition has (tabId : Z) (m : Trackers) : bool :=
  match get tabId m with Some _ => true | None => false end.

(** [m.set(tabId, v)]: an existing key keeps its place. *)
Fixpoint set (tabId : Z) (v : Session) (m : Trackers) : Trackers :=
  match m with
  | [] => [(tabId, v)]
  | (k, w) :: r => if k =? tabId then (k, v) :: r else (k, w) :: set tabId v r
  end.

Fixpoint delete (tabId : Z) (m : Trackers) : Trackers :=
  match m with
  | [] => []
  | (k, w) :: r => if k =? tabId then r else (k, w) :: delete tabId r
  end.

(** [sessions[tabId] = v] on a plain object: integer keys enumerate in
    ascending order, whatever the order of the assignments. *)
Fixpoint object_set (tabId : Z) (v : Session) (o : list (Z * Session))
  : list (Z * Session) :=
  match o with
  | [] => [(tabId, v)]
  | (k, w) :: r =>
      if tabId <? k then (tabId, v) :: o
      else if tabId =? k then (tabId, v) :: r
      else (k, w) :: object_set tabId v r
  end.

End TrackerMap.

(** ** Tab tracking *)

Definition isTrackableUrl (url : string) : bool :=
  JSString.truthy url
  && negb (JSString.startsWith "chrome://" url)
  && negb (JSString.startsWith "chrome-extension://" url)
  && negb (JSString.startsWith "about:" url)
  && (JSString.startsWith "http://" url || JSString.startsWith "https://" url).

(** [tab.url && this.isTrackableUrl(tab.url)] *)
Definition tab_trackable (t : Tab) : bool :=
  match tab_url t with
  | Some url => isTrackableUrl url
  | None => false
  end.

(** The object that [persistSessions] builds from the map. *)
Definition sessions_object (m : Trackers) : list (Z * Session) :=
  fold_left (fun o kv => TrackerMap.object_set (fst kv) (snd kv) o) m [].

Definition persistSessions (e : Engine) : list effect :=
  [StorageSetSessions (sessions_object (timeTrackers e))].

Definition cleanupTab (tabId : Z) (e : Engine) : Engine * list effect :=
  if TrackerMap.has tabId (timeTrackers e) then
    let e' := set_trackers (TrackerMap.delete tabId (timeTrackers e)) e in
    (e', persistSessions e')
  else (e, []).

(** [now] is the value of [Date.now()] inside the handler. *)
Definition handleTabUpdate (tabId : Z) (tab : Tab) (now : Z) (e : Engine)
  : Engine * list effect :=
  if negb (tab_trackable tab) then cleanupTab tabId e
  else
    match tab_url tab with
    | None => cleanupTab tabId e
    | Some url =>
        match url_hostname url with
        | None => (e, [])                 (* the [TypeError] is caught *)
        | Some host =>
            let hostname := JSString.removePrefix "www." host in
            let e' := set_trackers
                        (TrackerMap.set tabId (mkSession hostname now now) (timeTrackers e)) e in
            (e', persistSessions e')
        end
    end.

(** The callback of [chrome.tabs.query] in [startTimeTracking], run on
    the tabs that are open at start-up. *)
Fixpoint startTimeTracking (tabs : list Tab) (now : Z) (e : Engine)
  : Engine * list effect :=
  match tabs with
  | [] => (e, [])
  | tab :: rest =>
      if tab_trackable tab then
        let '(e1, f1) := handleTabUpdate (tab_id tab) tab now e in
        let '(e2, f2) := startTimeTracking rest now e1 in
        (e2, f1 ++ f2)
      else startTimeTracking rest now e
  end.

(** ** The limit store *)

Definition saveSettings (s : Settings) : list effect := [StorageSetSettings s].

(** [today] is [new Date().toDateString()]. *)
Definition resetDailyCountersIfNeeded (today : string) (s : Settings)
  : Settings * list effect :=
  if negb (String.eqb (lastResetDate s) today) then
    let s1 := set_globalUsed 0 s in
    let s2 := set_siteLimits (map (set_used (Int 0)) (siteLimits s1)) s1 in
    let s3 := set_lastResetDate today s2 in
    (s3, saveSettings s3)
  else (s, []).

(** [loadSettings], on the record that storage returns. *)
Definition loadSettings (data : Stored) (today : string) : Engine * list effect :=
  let trackers :=
    fold_left (fun m kv => TrackerMap.set (fst kv) (snd kv) m) (stored_sessions data) [] in
  let '(s, f) := resetDailyCountersIfNeeded today (stored_settings data) in
  (mkEngine s trackers false, f).

(** [init]: the settings are loaded, then the start-up query of the open
    tabs is answered; the update interval is armed last and fires a
    minute later. *)
Definition init (data : Stored) (today : string) (tabs : list Tab) (now : Z)
  : Engine * list effect :=
  let '(e0, f0) := loadSettings data today in
  let '(e1, f1) := startTimeTracking tabs now e0 in
  (e1, f0 ++ f1).

(** *** Limit evaluation and interventions *)

(** The two ways [showWarning] is called. *)
Inductive warning : Type :=
| WarnGlobal                    (* [showWarning("global")] *)
| WarnSite (site : string).     (* [showWarning("site", site)] *)

Definition blockedPage : extension_url := getURL "blocked.html?reason=time_limit".

(** The callback that [showWarning] hands to [chrome.tabs.query]. *)
Definition blockTabs (tabs : list Tab) : list effect :=
  flat_map (fun tab =>
              if tab_trackable tab then [TabsUpdate (tab_id tab) blockedPage] else [])
           tabs.

Definition showWarning (w : warning) (s : Settings) : list effect :=
  let message :=
    match w with
    | WarnSite site =>
        String.append "Time limit reached for "
          (String.append site (String.append ". " (warningMessage s)))
    | WarnGlobal => warningMessage s
    end in
  NotificationCreate "Bulwark Time Limit" message 2 ::
  match w with
  | WarnGlobal => [TabsQuery blockTabs]
  | WarnSite _ => []
  end.

(** The loop over [siteLimits] in [checkLimits], which breaks at the
    first breach. *)
Fixpoint checkSiteLimits (l : list SiteLimit) : list warning :=
  match l with
  | [] => []
  | e :: rest =>
      if enabled e && JSNumber.geb (used e) (limit e) then [WarnSite (site e)]
      else checkSiteLimits rest
  end.

(** [globalDailyLimit && globalUsed >= globalDailyLimit] *)
Definition globalBreach (s : Settings) : bool :=
  match globalDailyLimit s with
  | Some n => JSNumber.truthy n && JSNumber.geb (Int (globalUsed s)) n
  | None => false
  end.

(** The calls of [showWarning] that one run of [checkLimits] makes. *)
Definition checkLimits_warnings (s : Settings) : list warning :=
  if globalBreach s then [WarnGlobal] else checkSiteLimits (siteLimits s).

Definition checkLimits (s : Settings) : list effect :=
  flat_map (fun w => showWarning w s) (checkLimits_warnings s).

(** *** Applying usage *)

(** The names of the properties of [Object.prototype], which every
    object created by [\{\}] has without holding them itself. *)
Definition inherited (name : string) : bool :=
  existsb (String.eqb name)
    ["constructor"; "__defineGetter__"; "__defineSetter__"; "hasOwnProperty";
     "__lookupGetter__"; "__lookupSetter__"; "isPrototypeOf"; "propertyIsEnumerable";
     "toString"; "valueOf"; "__proto__"; "toLocaleString"].

(** What reading a property of the dictionary [siteTimeUpdates] gives. *)
Inductive property : Type :=
| Missing                  (* [undefined] *)
| Minutes (minutes : Z)    (* the minutes added for the host *)
| Foreign.                 (* a function, an object or a string *)

(** [siteTimes[name]].  [siteTimes] holds the minutes that the pass has
    added for each host.  Under a name of [Object.prototype] the object
    never holds a number: the read finds the inherited function or
    object, and an addition to it stores a string or, for [__proto__],
    nothing at all. *)
Definition siteTimes_get (siteTimes : gmap string Z) (name : string) : property :=
  if inherited name then Foreign
  else
    match siteTimes !! name with
    | Some minutes => Minutes minutes
    | None => Missing
    end.

(** The callback of the [map] over [siteLimits] in [applyTimeUpdates]; the
    flag tells whether it set [needsSave].  [site.used + siteTime] is a
    string when [siteTime] is no number, and [Math.min] of it is [NaN]. *)
Definition applySiteTime (siteTimes : gmap string Z) (e : SiteLimit) : SiteLimit * bool :=
  match siteTimes_get siteTimes (site e) with
  | Minutes siteTime =>
      if truthyZ siteTime && enabled e then
        let newUsed := JSNumber.min (JSNumber.add (used e) (Int siteTime)) (limit e) in
        if negb (JSNumber.strict_eq newUsed (used e)) then (set_used newUsed e, true)
        else (e, false)
      else (e, false)
  | Foreign =>
      if enabled e then (set_used NaN e, true) else (e, false)
  | Missing => (e, false)
  end.

Definition applyTimeUpdates (globalTime : Z) (siteTimes : gmap string Z) (s : Settings)
  : Settings * list effect :=
  let s1 := if limit_set (globalDailyLimit s)
            then set_globalUsed (globalUsed s + globalTime) s else s in
  let updated := map (applySiteTime siteTimes) (siteLimits s1) in
  let needsSave := limit_set (globalDailyLimit s) || existsb snd updated in
  let s2 := set_siteLimits (map fst updated) s1 in
  if needsSave then (s2, saveSettings s2 ++ checkLimits s2) else (s2, []).

(** ** The reconciliation pass *)

(** The liveness probe: [chrome.tabs.get(tabId)] answers with a tab that
    has a trackable URL. *)
Definition tab_alive (tabs : list Tab) (tabId : Z) : bool :=
  match tabs_get tabs tabId with
  | Some tab => tab_trackable tab
  | None => false
  end.

Definition elapsedMinutes (now : Z) (tracker : Session) : Z :=
  (now - startTime tracker) / 60000.

(** The tracker after its counted minutes are taken off:
    [startTime = now - (timeSpentSeconds % 60) * 1000]. *)
Definition advance (now : Z) (tracker : Session) : Session :=
  mkSession (hostname tracker) (now - Z.rem (now - startTime tracker) 60000) now.

(** [if (!siteTimeUpdates[hostname]) siteTimeUpdates[hostname] = 0;
    siteTimeUpdates[hostname] += timeSpentMinutes]: the minutes that the
    pass has added for the host.  What the object holds under a name of
    [Object.prototype] is no number, see [siteTimes_get]. *)
Definition addSiteTime (host : string) (minutes : Z) (siteTimeUpdates : gmap string Z)
  : gmap string Z :=
  <[host := default 0 (siteTimeUpdates !! host) + minutes]> siteTimeUpdates.

(** The loop of [updateTimeUsage] over the entries of [timeTrackers]. *)
Fixpoint trackLoop (tabs : list Tab) (now : Z) (entries : list (Z * Session))
    (e : Engine) (globalTimeAdded : Z) (siteTimeUpdates : gmap string Z)
  : Engine * Z * gmap string Z * list effect :=
  match entries with
  | [] => (e, globalTimeAdded, siteTimeUpdates, [])
  | (tabId, tracker) :: rest =>
      if negb (tab_alive tabs tabId) then
        let '(e1, f1) := cleanupTab tabId e in
        let '(e2, g, st, f2) := trackLoop tabs now rest e1 globalTimeAdded siteTimeUpdates in
        (e2, g, st, f1 ++ f2)
      else
        let timeSpentMinutes := elapsedMinutes now tracker in
        if 0 <? timeSpentMinutes then
          trackLoop tabs now rest
            (set_trackers (TrackerMap.set tabId (advance now tracker) (timeTrackers e)) e)
            (globalTimeAdded + timeSpentMinutes)
            (addSiteTime (hostname tracker) timeSpentMinutes siteTimeUpdates)
        else trackLoop tabs now rest e globalTimeAdded siteTimeUpdates
  end.

(** One firing of the update interval.  [tabs] are the open tabs, which
    [chrome.tabs.get] answers from, and [now] is [Date.now()] at the start
    of the pass. *)
Definition updateTimeUsage (tabs : list Tab) (now : Z) (e : Engine)
  : Engine * list effect :=
  if isUpdating e || negb (timeRestrictionsEnabled (currentSettings e)) then (e, [])
  else
    let '(e1, globalTimeAdded, siteTimeUpdates, f1) :=
      trackLoop tabs now (timeTrackers e) e 0 ∅ in
    let '(s2, f2) :=
      if 0 <? globalTimeAdded
      then applyTimeUpdates globalTimeAdded siteTimeUpdates (currentSettings e1)
      else (currentSettings e1, []) in
    let e2 := mkEngine s2 (timeTrackers e1) false in
    (e2, f1 ++ f2 ++ persistSessions e2).

(** ** Site limits and the global limit *)

(** [s.replace(/^https?:\/\//, '')] *)
Definition removeScheme (s : string) : string :=
  if JSString.startsWith "http://" s then JSString.drop 7 s
  else if JSString.startsWith "https://" s then JSString.drop 8 s
  else s.

(** [normalizeDomain]; the argument is [None] when it is not a string,
    and then the [TypeError] is caught and [null] returned. *)
Definition normalizeDomain (domain : option string) : option string :=
  match domain with
  | Some d =>
      Some (JSString.firstField ":"
             (JSString.firstField "/"
               (JSString.removePrefix "www."
                 (removeScheme (JSString.trim (JSString.toLowerCase d))))))
  | None => None
  end.

(** [this.normalizeDomain(s.site) === normalizedSite] *)
Definition sameSite (normalizedSite : option string) (e : SiteLimit) : bool :=
  match normalizeDomain (Some (site e)), normalizedSite with
  | Some a, Some b => String.eqb a b
  | None, None => true
  | _, _ => false
  end.

(** [!limit || isNaN(limit) || parseInt(limit) <= 0] *)
Definition limit_rejected (l : JSValue.value) : bool :=
  negb (JSValue.truthy l) || JSValue.isNaN l
  || JSNumber.leb (JSValue.parseInt l) (Int 0).

Definition addSiteLimit (site : option string) (limit : JSValue.value) (s : Settings)
  : Settings * Response * list effect :=
  match normalizeDomain site with
  | Some (String c r) =>
      let normalizedSite := String c r in
      if limit_rejected limit then
        (s, failure "Please enter a valid time limit (positive number)", [])
      else
        let l := siteLimits s in
        let l' :=
          match list_find (fun e => sameSite (Some normalizedSite) e = true) l with
          | Some (existingIndex, existing) =>
              <[existingIndex := mkSiteLimit normalizedSite (JSValue.parseInt limit)
                                             (used existing) true]> l
          | None => l ++ [mkSiteLimit normalizedSite (JSValue.parseInt limit) (Int 0) true]
          end in
        let s' := set_siteLimits l' s in
        (s', ok, saveSettings s')
  | _ => (s, failure "Invalid domain format. Please use format like 'example.com'", [])
  end.

Definition removeSiteLimit (site : option string) (s : Settings)
  : Settings * Response * list effect :=
  let normalizedSite := normalizeDomain site in
  let initialLength := length (siteLimits s) in
  let s' := set_siteLimits
              (List.filter (fun e => negb (sameSite normalizedSite e)) (siteLimits s)) s in
  if (length (siteLimits s') =? initialLength)%nat then
    (s', failure "Site limit not found", [])
  else (s', ok, saveSettings s').

Definition toggleSiteLimit (site : option string) (enabled : bool) (s : Settings)
  : Settings * Response * list effect :=
  let normalizedSite := normalizeDomain site in
  match list_find (fun e => sameSite normalizedSite e = true) (siteLimits s) with
  | Some (i, siteLimit) =>
      let s' := set_siteLimits (<[i := set_enabled enabled siteLimit]> (siteLimits s)) s in
      (s', ok, saveSettings s')
  | None => (s, failure "Site limit not found", [])
  end.

(** [message] is [None] when it is [undefined] or [null]. *)
Definition updateGlobalLimit (limit : JSValue.value) (message : option string) (s : Settings)
  : Settings * Response * list effect :=
  let dailyLimit := if JSValue.truthy limit then Some (JSValue.parseInt limit) else None in
  let text :=
    match message with
    | Some m => if JSString.truthy m && JSString.truthy (JSString.trim m)
                then JSString.trim m else warningMessage s
    | None => warningMessage s
    end in
  let s' := mkSettings (JSValue.truthy limit) dailyLimit (globalUsed s) text
                       (siteLimits s) (lastResetDate s) in
  (s', ok, saveSettings s').

(** ** Events *)

(** The requests that change the engine; reading requests and unknown
    actions are answered without touching it. *)
Inductive request : Type :=
| AddSiteLimit (site : option string) (limit : JSValue.value)
| RemoveSiteLimit (site : option string)
| ToggleSiteLimit (site : option string) (enabled : bool)
| UpdateGlobalLimit (limit : JSValue.value) (message : option string)
| ReadOnly.

Definition handleTimeMessage (r : request) (s : Settings)
  : Settings * Response * list effect :=
  match r with
  | AddSiteLimit site limit => addSiteLimit site limit s
  | RemoveSiteLimit site => removeSiteLimit site s
  | ToggleSiteLimit site enabled => toggleSiteLimit site enabled s
  | UpdateGlobalLimit limit message => updateGlobalLimit limit message s
  | ReadOnly => (s, ok, [])
  end.

(** What the listeners of [setupEventListeners] and the update interval
    deliver to a running engine. *)
Inductive event : Type :=
| TabUpdated (tab : Tab) (now : Z)      (* [onUpdated] with status [complete] *)
| TabActivated (tab : Tab) (now : Z)    (* [onActivated], after [tabs.get] *)
| TabRemoved (tabId : Z)                (* [onRemoved] *)
| Tick (tabs : list Tab) (now : Z)      (* the interval fires *)
| Message (r : request).

Definition step (ev : event) (e : Engine) : Engine * list effect :=
  match ev with
  | TabUpdated tab now | TabActivated tab now =>
      if tab_trackable tab then handleTabUpdate (tab_id tab) tab now e else (e, [])
  | TabRemoved tabId => cleanupTab tabId e
  | Tick tabs now => updateTimeUsage tabs now e
  | Message r =>
      let '(s, _, f) := handleTimeMessage r (currentSettings e) in
      (set_settings s e, f)
  end.

Fixpoint run (evs : list event) (e : Engine) : Engine * list effect :=
  match evs with
  | [] => (e, [])
  | ev :: rest =>
      let '(e1, f1) := step ev e in
      let '(e2, f2) := run rest e1 in
      (e2, f1 ++ f2)
  end.

(** ** Predicates and sample values of the statements *)

Definition rollover_sample : Settings :=
  mkSettings true (Some (Int 30)) 12 "Stop."
    [mkSiteLimit "shop.com" (Int 5) (Int 4) true; mkSiteLimit "news.com" (Int 20) (Int 20) false]
    "Mon Nov 02 2026".

(** A breach, in the words of the specification. *)
Definition global_breached (s : Settings) : Prop :=
  exists n, globalDailyLimit s = Some (Int n) /\ n <> 0 /\ n <= globalUsed s.

Definition site_breached (e : SiteLimit) : Prop :=
  enabled e = true /\ exists u l, used e = Int u /\ limit e = Int l /\ l <= u.

Definition is_notification (f : effect) : bool :=
  match f with NotificationCreate _ _ _ => true | _ => false end.

Definition is_query (f : effect) : bool :=
  match f with TabsQuery _ => true | _ => false end.

Definition is_redirect (f : effect) : bool :=
  match f with TabsUpdate _ _ => true | _ => false end.

Definition breach_sample : Settings :=
  mkSettings true (Some (Int 30)) 30 "Stop."
    [mkSiteLimit "news.com" (Int 20) (Int 3) true; mkSiteLimit "shop.com" (Int 5) (Int 5) true;
     mkSiteLimit "play.com" (Int 1) (Int 1) true]
    "Mon Nov 02 2026".

Definition open_tabs_sample : list Tab :=
  [mkTab 1 (Some "https://shop.com/cart"); mkTab 2 (Some "chrome://settings");
   mkTab 3 None; mkTab 4 (Some "http://news.com")].



(** The per-site minutes of a call are amounts of time. *)
Definition minutes_nonneg (siteTimes : gmap string Z) : Prop :=
  forall host t, siteTimes !! host = Some t -> 0 <= t.

(** The bounds that the data model puts on a site limit. *)
Definition limit_ok (e : SiteLimit) : Prop :=
  exists u l, used e = Int u /\ limit e = Int l /\ 0 <= u <= l.

(** The site of an entry is no name of a property of [Object.prototype]. *)
Definition own_name (e : SiteLimit) : Prop := inherited (site e) = false.

(** No enabled entry goes by such a name. *)
Definition own_names (s : Settings) : Prop :=
  forall e, In e (siteLimits s) -> enabled e = true -> own_name e.

Definition store_ok (s : Settings) : Prop := List.Forall limit_ok (siteLimits s).

Definition upsert_sample : Settings :=
  mkSettings false None 0 "Stop." [mkSiteLimit "x.com" (Int 10) (Int 8) true] "Mon Nov 02 2026".

(** The integer [z] as the argument of a message. *)
Definition integer (z : Z) : JSValue.value := JSValue.Number (JSValue.Decimal z 0).

Definition five : JSValue.value := integer 5.


(** The sessions of a pass whose tab passes the liveness probe, the
    sessions on one host, and the whole minutes that a list of sessions
    has run up at [now]. *)
Definition live_sessions (tabs : list Tab) (m : Trackers) : Trackers :=
  List.filter (fun kv => tab_alive tabs (fst kv)) m.

Definition on_host (host : string) (m : Trackers) : Trackers :=
  List.filter (fun kv => String.eqb (hostname (snd kv)) host) m.

Definition total_minutes (now : Z) (m : Trackers) : Z :=
  fold_right (fun kv acc => elapsedMinutes now (snd kv) + acc) 0 m.

(** Scenario A: a daily limit of 30 minutes and one tab on [news.com],
    tracked since [t0]. *)
Definition scenarioA_settings : Settings :=
  mkSettings true (Some (Int 30)) 0 "Your daily browsing time is over! Take a break." []
             "Mon Nov 02 2026".

Definition scenarioA_engine (t0 : Z) : Engine :=
  mkEngine scenarioA_settings [(1, mkSession "news.com" t0 t0)] false.

Definition scenarioA_tabs : list Tab := [mkTab 1 (Some "https://news.com/world")].




(** Scenario D: the process stops with one persisted session, of tab 1 on
    [a.com] since [1000000], and starts again five minutes later with the
    tab still open. *)
Definition restart_stored : Stored :=
  mkStored (mkSettings true (Some (Int 30)) 0 "Stop." [] "Mon Nov 02 2026")
           [(1, mkSession "a.com" 1000000 1000000)].

Definition restart_tabs : list Tab := [mkTab 1 (Some "https://a.com/")].

(** The session of [tabId] was started at [now]. *)
Definition started_at (now tabId : Z) (e : Engine) : Prop :=
  exists s, TrackerMap.get tabId (timeTrackers e) = Some s /\ startTime s = now.

(** ** Further predicates of the statements *)

(** Every character of [s] satisfies [p]. *)
Fixpoint all_chars (p : ascii -> bool) (s : string) : bool :=
  match s with
  | EmptyString => true
  | String c r => p c && all_chars p r
  end.

Definition is_upper (c : ascii) : bool :=
  let n := nat_of_ascii c in ((65 <=? n) && (n <=? 90))%nat.

(** The tab identifiers of the registry are pairwise distinct. *)
Definition keys_distinct (e : Engine) : Prop := List.NoDup (map fst (timeTrackers e)).

(** What the loop of a pass leaves of one session. *)
Definition reconciled (now : Z) (tracker : Session) : Session :=
  if 0 <? elapsedMinutes now tracker then advance now tracker else tracker.

(** The keys of a stored sessions object come in ascending order. *)
Fixpoint ascending (l : list Z) : Prop :=
  match l with
  | [] => True
  | a :: r => List.Forall (fun b => a < b) r /\ ascending r
  end.

(** A host name as it is stored: lower case, without white space, [/] or
    [:], and not beginning with [www.] or [http]. *)
Definition plain_char (c : ascii) : bool :=
  negb (is_upper c) && negb (JSString.is_space c)
  && negb (Ascii.eqb c "/") && negb (Ascii.eqb c ":").

Definition plain_host (host : string) : bool :=
  all_chars plain_char host
  && negb (JSString.startsWith "www." host)
  && negb (JSString.startsWith "http" host).

(** What may follow the host in a spelling of a site: nothing, a path or
    a port. *)
Definition url_tail (t : string) : bool :=
  match t with
  | EmptyString => true
  | String c _ => Ascii.eqb c "/" || Ascii.eqb c ":"
  end.

(** The prefixes of the spellings of a site. *)
Definition site_prefixes : list string :=
  [""; "www."; "http://"; "https://"; "http://www."; "https://www."].

(** ** The site blocker of [background.js] *)

Module Blocker.

(** The settings of [BulwarkEngine] that the blocker reads, and its set
    of blocked host names. *)
Record Engine : Type := mkEngine {
  killSwitch : bool;
  blockedSites : list string;
  blockedSitesEnabled : bool;
  blockedUrls : gset string
}.

(** Calls into the browser.  [RedirectBlocked tabId url] is
    [chrome.tabs.update(tabId, \{url: chrome.runtime.getURL(
    'blocked.html?reason=site_blocker&url=' + encodeURIComponent(url))\})]. *)
Inductive effect : Type :=
| StorageSetBlockedSites (sites : list string)
| RedirectBlocked (tabId : Z) (url : string).

Definition updateBlockedUrls (b : Engine) : Engine :=
  mkEngine (killSwitch b) (blockedSites b) (blockedSitesEnabled b)
    (if blockedSitesEnabled b
     then list_to_set (map JSString.toLowerCase (blockedSites b))
     else ∅).

(** [loadSettings], on the three values that storage returns. *)
Definition loadSettings (kill : bool) (sites : list string) (enabled : bool) : Engine :=
  updateBlockedUrls (mkEngine kill sites enabled ∅).

(** [checkAndBlockUrl(url, tabId)].  [hostname] is what
    [new URL(url).hostname] gives, [None] when the URL does not parse. *)
Definition checkAndBlockUrl (hostname : option string) (url : string) (tabId : Z)
    (b : Engine) : list effect :=
  if negb (killSwitch b) then []
  else
    match hostname with
    | None => []
    | Some host =>
        if bool_decide (JSString.toLowerCase host ∈ blockedUrls b)
        then [RedirectBlocked tabId url] else []
    end.

(** [site.toLowerCase().trim().replace(/^https?:\/\//, '').split('/')[0]] *)
Definition normalizeSite (site : string) : string :=
  JSString.firstField "/" (removeScheme (JSString.trim (JSString.toLowerCase site))).

Definition includes (x : string) (l : list string) : bool := existsb (String.eqb x) l.

(** [addBlockedSite] for a string, with the answer that
    [handleGeneralMessage] sends. *)
Definition addBlockedSite (site : string) (b : Engine) : Engine * Response * list effect :=
  let normalizedSite := normalizeSite site in
  if negb (JSString.contains "." normalizedSite) then (b, failure "Invalid domain", [])
  else if includes normalizedSite (blockedSites b) then (b, failure "Already blocked", [])
  else
    let list := blockedSites b ++ [normalizedSite] in
    (updateBlockedUrls (mkEngine (killSwitch b) list (blockedSitesEnabled b) (blockedUrls b)),
     ok, [StorageSetBlockedSites list]).

Definition removeBlockedSite (site : string) (b : Engine) : Engine * Response * list effect :=
  let list := List.filter (fun s => negb (String.eqb s site)) (blockedSites b) in
  (updateBlockedUrls (mkEngine (killSwitch b) list (blockedSitesEnabled b) (blockedUrls b)),
   ok, [StorageSetBlockedSites list]).

(** An entry of the [changes] that [chrome.storage.onChanged] reports,
    for the keys that the blocker reads. *)
Inductive change : Type :=
| ChangeKillSwitch (newValue : bool)
| ChangeBlockedSites (newValue : list string)
| ChangeBlockedSitesEnabled (newValue : bool).

Definition applyChange (b : Engine) (c : change) : Engine :=
  match c with
  | ChangeKillSwitch v =>
      mkEngine v (blockedSites b) (blockedSitesEnabled b) (blockedUrls b)
  | ChangeBlockedSites v =>
      updateBlockedUrls (mkEngine (killSwitch b) v (blockedSitesEnabled b) (blockedUrls b))
  | ChangeBlockedSitesEnabled v =>
      updateBlockedUrls (mkEngine (killSwitch b) (blockedSites b) v (blockedUrls b))
  end.

Definition handleSettingsChange (changes : list change) (b : Engine) : Engine :=
  fold_left applyChange changes b.

(** What reaches a running blocker. *)
Inductive event : Type :=
| AddBlockedSite (site : string)
| RemoveBlockedSite (site : string)
| SettingsChanged (changes : list change).

Definition step (ev : event) (b : Engine) : Engine :=
  match ev with
  | AddBlockedSite site => fst (fst (addBlockedSite site b))
  | RemoveBlockedSite site => fst (fst (removeBlockedSite site b))
  | SettingsChanged changes => handleSettingsChange changes b
  end.

Definition run (evs : list event) (b : Engine) : Engine := fold_left (fun b ev => step ev b) evs b.

End Blocker.

(** The set of blocked host names agrees with the settings. *)
Definition urls_in_sync (b : Blocker.Engine) : Prop :=
  Blocker.blockedUrls b
  = if Blocker.blockedSitesEnabled b
    then list_to_set (map JSString.toLowerCase (Blocker.blockedSites b))
    else ∅.

(** [s.includes(p)] *)
Fixpoint str_includes (p s : string) : bool :=
  JSString.startsWith p s
  || match s with
     | EmptyString => false
     | String _ r => str_includes p r
     end.

(** ** The two counters of blocked requests in [background.js] *)

Module AdBlock.

(** The counters of [AdBlockerStats]. *)
Record Stats : Type := mkStats { adsBlocked : Z; trackersBlocked : Z }.

(** [chrome.storage.local.set(\{ adBlockerStats: stats \})] *)
Inductive effect : Type :=
| StorageSetStats (ads trackers : Z).

(** [AdBlockerStats.increment(type)], which ends with [saveStats]. *)
Definition increment (type : string) (st : Stats) : Stats * list effect :=
  let st' :=
    if String.eqb type "adsBlocked" then mkStats (adsBlocked st + 1) (trackersBlocked st)
    else if String.eqb type "trackersBlocked"
         then mkStats (adsBlocked st) (trackersBlocked st + 1)
         else st in
  (st', [StorageSetStats (adsBlocked st') (trackersBlocked st')]).

(** The listener of [AdBlockerStats.startListening], on the URL of the
    request that a rule matched. *)
Definition onRuleMatched (requestUrl : string) (st : Stats) : Stats * list effect :=
  let url := JSString.toLowerCase requestUrl in
  if str_includes "ads" url
     || str_includes "doubleclick" url
     || str_includes "googlesyndication" url
     || str_includes "adnxs" url
     || str_includes "googlead" url
  then increment "adsBlocked" st
  else increment "trackersBlocked" st.

(** The counters of [AdBlockerTracker]. *)
Record Tracker : Type := mkTracker {
  tracked_ads : Z;          (* [stats.adsBlocked] *)
  tracked_trackers : Z;     (* [stats.trackersBlocked] *)
  lastReset : Z
}.

(** [AdBlockerTracker.handleBlockedRequest], on the URL of the request. *)
Definition handleBlockedRequest (requestUrl : string) (t : Tracker) : Tracker :=
  if str_includes "ads" requestUrl
     || str_includes "doubleclick" requestUrl
     || str_includes "googlead" requestUrl
  then mkTracker (tracked_ads t + 1) (tracked_trackers t) (lastReset t)
  else mkTracker (tracked_ads t) (tracked_trackers t + 1) (lastReset t).

(** Both listeners are registered for the same event; [feed] delivers the
    URLs of a sequence of matched requests to both. *)
Definition feed (urls : list string) (st : Stats) (t : Tracker) : Stats * Tracker :=
  fold_left (fun p url => (fst (onRuleMatched url (fst p)), handleBlockedRequest url (snd p)))
            urls (st, t).

End AdBlock.

(** [s.endsWith(p)] *)
Definition str_endsWith (p s : string) : bool :=
  (String.length p <=? String.length s)%nat
  && String.eqb (JSString.drop (String.length s - String.length p) s) p.

(** [s.substring(0, n)] *)
Fixpoint str_take (n : nat) (s : string) : string :=
  match n, s with
  | S n', String c r => String c (str_take n' r)
  | _, _ => EmptyString
  end.

(** ** The sentence scoring of the privacy analyzer *)

Module Privacy.

Inductive certainty : Type := High | Low | Medium.

(** What [analyzeSentenceContext] returns. *)
Record Context : Type := mkContext {
  isNegative : bool;
  isPositive : bool;
  hasLimiting : bool;        (* [hasLimitingLanguage] *)
  certain : certainty        (* [certainty] *)
}.

Definition includesAny (terms : list string) (text : string) : bool :=
  existsb (fun term => str_includes term text) terms.

Definition negativeIndicators : list string :=
  ["not"; "never"; "no"; "cannot"; "will not"; "do not";
   "does not"; "did not"; "without"; "except"; "unless";
   "prohibited"; "restricted"; "forbidden"].

Definition isNegativeContext (text : string) : bool :=
  existsb (fun indicator =>
             str_includes (String.append " " (String.append indicator " ")) text
             || JSString.startsWith (String.append indicator " ") text
             || str_endsWith (String.append " " indicator) text)
          negativeIndicators.

Definition isPositiveContext (text : string) : bool :=
  includesAny ["will"; "can"; "may"; "might"; "could"; "able to";
               "enable"; "allow"; "permit"; "authorize"] text.

Definition hasLimitingLanguage (text : string) : bool :=
  includesAny ["only"; "solely"; "exclusively"; "limited to"; "restricted to"] text.

Definition assessCertainty (text : string) : certainty :=
  if str_includes "always" text || str_includes "must" text || str_includes "required" text
  then High
  else if str_includes "may" text || str_includes "might" text || str_includes "could" text
       then Low
       else Medium.

Definition analyzeSentenceContext (sentence : string) : Context :=
  let lowerSentence := JSString.toLowerCase sentence in
  mkContext (isNegativeContext lowerSentence) (isPositiveContext lowerSentence)
            (hasLimitingLanguage lowerSentence) (assessCertainty lowerSentence).

Definition hasDataCollectionTerms (text : string) : bool :=
  includesAny ["collect"; "gather"; "store"; "retain"; "acquire";
               "personal information"; "personal data"; "user data";
               "email address"; "phone number"; "location data";
               "browsing history"; "usage data"; "demographic"] text.

Definition hasDataSharingTerms (text : string) : bool :=
  includesAny ["share with"; "third party"; "partners"; "affiliates";
               "sell your data"; "transfer your data"; "disclose";
               "provide to"; "distribute to"; "commercial purpose"] text.

Definition hasUserRightsTerms (text : string) : bool :=
  includesAny ["delete your data"; "access your data"; "opt out";
               "privacy rights"; "gdpr"; "ccpa"; "california";
               "right to"; "request access"; "data portability";
               "rectification"; "erasure"; "withdraw consent"] text.

Definition hasSecurityTerms (text : string) : bool :=
  includesAny ["encryption"; "secure storage"; "protect your data";
               "security measures"; "safeguard"; "confidential";
               "access control"; "authentication"; "secure transmission"] text.

(** The terms of [criticalTerms]; their weights are not used. *)
Definition criticalTerms : list string :=
  ["biometric data"; "social security"; "ssn"; "passport number";
   "genetic data"; "dna"; "bank account"; "credit card";
   "medical records"; "health information"; "sexual orientation";
   "political views"; "religious beliefs"].

Definition checkCriticalRedFlags (sentence : string) (context : Context) : list string :=
  let lowerSentence := JSString.toLowerCase sentence in
  List.filter (fun term => str_includes term lowerSentence && negb (isNegative context))
              criticalTerms.

Definition isHigh (c : certainty) : bool :=
  match c with High => true | _ => false end.

Definition calculateCollectionScore (sentence : string) (context : Context) : Z :=
  let b0 := 5 in
  let b1 := if isHigh (certain context) then b0 + 3 else b0 in
  let b2 := if negb (hasLimiting context) then b1 + 2 else b1 in
  let b3 := if includesAny ["sensitive"; "biometric"; "health"; "financial"]
                           (JSString.toLowerCase sentence)
            then b2 + 4 else b2 in
  Z.min b3 10.

Definition calculateSharingScore (sentence : string) (context : Context) : Z :=
  let b0 := 6 in
  let b1 := if isHigh (certain context) then b0 + 3 else b0 in
  let b2 := if str_includes "sell" (JSString.toLowerCase sentence) then b1 + 4 else b1 in
  Z.min b2 10.

Definition calculateRightsScore (sentence : string) (context : Context) : Z :=
  let b0 := 6 in
  let b1 := if isHigh (certain context) then b0 + 2 else b0 in
  let b2 := if str_includes "delete" (JSString.toLowerCase sentence)
               || str_includes "erasure" (JSString.toLowerCase sentence)
            then b1 + 2 else b1 in
  Z.min b2 10.

Definition calculateSecurityScore (sentence : string) (context : Context) : Z :=
  let b0 := 5 in
  let b1 := if isHigh (certain context) then b0 + 3 else b0 in
  let b2 := if str_includes "encryption" (JSString.toLowerCase sentence) then b1 + 2 else b1 in
  Z.min b2 10.

(** [sentence.trim().substring(0, 200)] *)
Definition extractRelevantEvidence (sentence : string) : string :=
  str_take 200 (JSString.trim sentence).

(** A category of the result: its score and, when it was set, its
    evidence. *)
Record Category : Type := mkCategory { score : Z; evidence : option string }.

Record SentenceAnalysis : Type := mkSentenceAnalysis {
  dataCollection : Category;
  dataUsage : Category;
  dataSharing : Category;
  userRights : Category;
  security : Category;
  redFlags : list string
}.

Definition analyzeSentence (sentence : string) : SentenceAnalysis :=
  let lowerSentence := JSString.toLowerCase sentence in
  let context := analyzeSentenceContext sentence in
  mkSentenceAnalysis
    (if hasDataCollectionTerms lowerSentence && negb (isNegative context)
     then mkCategory (calculateCollectionScore sentence context)
                     (Some (extractRelevantEvidence sentence))
     else mkCategory 0 None)
    (mkCategory 0 None)
    (if hasDataSharingTerms lowerSentence && negb (isNegative context)
     then mkCategory (calculateSharingScore sentence context)
                     (Some (extractRelevantEvidence sentence))
     else mkCategory 0 None)
    (if hasUserRightsTerms lowerSentence
     then mkCategory (calculateRightsScore sentence context)
                     (Some (extractRelevantEvidence sentence))
     else mkCategory 0 None)
    (if hasSecurityTerms lowerSentence
     then mkCategory (calculateSecurityScore sentence context)
                     (Some (extractRelevantEvidence sentence))
     else mkCategory 0 None)
    (checkCriticalRedFlags sentence context).

(** *** Evidence and stored analyses *)

(** [[...new Set(items)]]: the distinct strings in the order in which
    they first occur. *)
Definition distinct (items : list string) : list string :=
  fold_left (fun seen x => if existsb (String.eqb x) seen then seen else seen ++ [x])
            items [].

Definition validateAndDedupeEvidence (evidenceArray : list string) : list string :=
  firstn 3 (List.filter (fun evidence =>
                           JSString.truthy evidence && (10 <? String.length evidence)%nat)
                        (distinct evidenceArray)).

(** An entry of [storedSites], with the analysis kept abstract. *)
Record StoredSite (A : Type) : Type := mkStoredSite {
  domain : string;
  overallScore : Z;
  analysis : A;
  timestamp : Z;
  date : string
}.
Arguments mkStoredSite {A}.
Arguments domain {A}.
Arguments overallScore {A}.
Arguments analysis {A}.
Arguments timestamp {A}.
Arguments date {A}.

(** The list that [storeSiteAnalysisSafely] leaves in [storedSites] and
    saves, from the list [stored] that [loadStoredData] has just read.
    The class defines the method twice, with the same steps: the first
    definition keeps 5 entries and the second 50; [keep] is that number.
    [now] is [Date.now()] and [today] the date part of
    [new Date().toISOString()]. *)
Definition storeSiteAnalysis {A : Type} (keep : nat) (domain : string) (analysis : A)
    (overallScore now : Z) (today : string) (stored : list (StoredSite A))
  : list (StoredSite A) :=
  let siteData := mkStoredSite domain overallScore analysis now today in
  let others := List.filter (fun site => negb (String.eqb (Privacy.domain site) domain)) stored in
  let list := siteData :: others in
  if (keep <? length list)%nat then firstn keep list else list.

(** *** Sentences and chunks *)

Definition is_terminator (c : ascii) : bool :=
  Ascii.eqb c "." || Ascii.eqb c "!" || Ascii.eqb c "?".

Definition snoc (s : string) (c : ascii) : string :=
  String.append s (String c EmptyString).

(** [text.match(/[^.!?]+[.!?]+/g) || []], read from left to right:
    [cur] is the part of the current match read so far and [closing]
    tells that its closing punctuation has begun.  Punctuation before
    any other character starts no match, and a match with no closing
    punctuation at the end of the text is no match. *)
Fixpoint sentenceMatches (cur : string) (closing : bool) (text : string) : list string :=
  match text with
  | EmptyString => if closing then [cur] else []
  | String c r =>
      if is_terminator c
      then match cur with
           | EmptyString => sentenceMatches EmptyString false r
           | _ => sentenceMatches (snoc cur c) true r
           end
      else if closing
           then cur :: sentenceMatches (String c EmptyString) false r
           else sentenceMatches (snoc cur c) false r
  end.

Definition splitIntoSentences (text : string) : list string :=
  List.filter (fun s => (10 <? String.length s)%nat)
              (List.map JSString.trim (sentenceMatches EmptyString false text)).

(** A category of a chunk: the sum of the scores and the evidence
    collected. *)
Record ChunkCategory : Type := mkChunkCategory {
  total : Z;
  evidences : list string
}.

Record ChunkAnalysis : Type := mkChunkAnalysis {
  chunkCollection : ChunkCategory;
  chunkUsage : ChunkCategory;
  chunkSharing : ChunkCategory;
  chunkRights : ChunkCategory;
  chunkSecurity : ChunkCategory;
  chunkRedFlags : list string
}.

(** The body of the [forEach] over the keys, for one category. *)
Definition aggregate (acc : ChunkCategory) (c : Category) : ChunkCategory :=
  mkChunkCategory
    (total acc + score c)
    (match evidence c with
     | Some e => if JSString.truthy e then evidences acc ++ [e] else evidences acc
     | None => evidences acc
     end).

Definition addSentence (analysis : ChunkAnalysis) (sentence : string) : ChunkAnalysis :=
  let sentenceAnalysis := analyzeSentence sentence in
  mkChunkAnalysis
    (aggregate (chunkCollection analysis) (dataCollection sentenceAnalysis))
    (aggregate (chunkUsage analysis) (dataUsage sentenceAnalysis))
    (aggregate (chunkSharing analysis) (dataSharing sentenceAnalysis))
    (aggregate (chunkRights analysis) (userRights sentenceAnalysis))
    (aggregate (chunkSecurity analysis) (security sentenceAnalysis))
    (chunkRedFlags analysis ++ redFlags sentenceAnalysis).

Definition emptyCategory : ChunkCategory := mkChunkCategory 0 [].

Definition emptyChunk : ChunkAnalysis :=
  mkChunkAnalysis emptyCategory emptyCategory emptyCategory emptyCategory emptyCategory [].

Definition enhancedAnalyzeSingleChunk (text : string) : ChunkAnalysis :=
  fold_left addSentence (splitIntoSentences text) emptyChunk.

Definition paragraphBreak : string :=
  String (ascii_of_nat 10) (String (ascii_of_nat 10) EmptyString).

(** The loop of [contextAwareSplit] over [paragraphs], the result of
    [text.split(/\n\s*\n/)]. *)
Fixpoint chunkLoop (limit : nat) (chunks : list string) (currentChunk : string)
    (paragraphs : list string) : list string * string :=
  match paragraphs with
  | [] => (chunks, currentChunk)
  | paragraph :: rest =>
      let '(chunks', currentChunk') :=
        if (limit <? String.length currentChunk + String.length paragraph)%nat
           && (0 <? String.length currentChunk)%nat
        then (chunks ++ [currentChunk], EmptyString)
        else (chunks, currentChunk) in
      chunkLoop limit chunks'
                (String.append currentChunk' (String.append paragraph paragraphBreak)) rest
  end.

Definition contextAwareSplit (paragraphs : list string) (limit : nat) : list string :=
  let '(chunks, currentChunk) := chunkLoop limit [] EmptyString paragraphs in
  if JSString.truthy (JSString.trim currentChunk) then chunks ++ [currentChunk] else chunks.

End Privacy.

(** Statement helpers for the analyzer. *)

Definition in_range (lo hi : Z) (c : Privacy.Category) : Prop :=
  match Privacy.evidence c with
  | Some e => lo <= Privacy.score c <= hi /\ (String.length e <= 200)%nat
  | None => Privacy.score c = 0
  end.

Definition backed (c : Privacy.ChunkCategory) : Prop :=
  5 * Z.of_nat (length (Privacy.evidences c)) <= Privacy.total c
  <= 10 * Z.of_nat (length (Privacy.evidences c)).

Definition one_paragraph (paragraphs : list string) (chunk : string) : Prop :=
  exists paragraph, In paragraph paragraphs
                    /\ chunk = String.append paragraph Privacy.paragraphBreak.

Definition blank (s : string) : Prop := JSString.trim s = EmptyString.

Definition joined (parts : list string) : string :=
  fold_right String.append EmptyString parts.

Definition no_terminator (s : string) : bool :=
  all_chars (fun c => negb (Privacy.is_terminator c)) s.

(** Some text without closing punctuation followed by closing
    punctuation. *)
Definition sentence_like (s : string) : Prop :=
  exists body closing,
    s = String.append body closing
    /\ no_terminator body = true
    /\ closing <> EmptyString
    /\ all_chars Privacy.is_terminator closing = true.

(** What [sentenceMatches] has read of the current match. *)
Definition reading (cur : string) (closing : bool) : Prop :=
  if closing
  then cur <> EmptyString /\ sentence_like cur
  else no_terminator cur = true.

(** ** The time display of the popup *)

Module Popup.

(** What [loadPopupTimeData] writes into the popup. *)
Inductive view : Type :=
| NoDailyLimit (siteLimitsActive : nat)        (* "No daily limit", "OFF" *)
| LimitReached (usedMin limit : Z)             (* "Daily limit reached!" *)
| MinutesLeft (usedMin limit left : Z).        (* "<left> min left" *)

(** [data] is what [chrome.storage.local] holds, the settings as
    [saveSettings] wrote them. *)
Definition loadPopupTimeData (data : Settings) : view :=
  match globalDailyLimit data with
  | Some (Int limit) =>
      if timeRestrictionsEnabled data && (0 <? limit)
      then let usedMin := (if truthyZ (globalUsed data) then globalUsed data else 0) / 60000 in
           if limit <=? usedMin
           then LimitReached usedMin limit
           else MinutesLeft usedMin limit (limit - usedMin)
      else NoDailyLimit (length (siteLimits data))
  | _ => NoDailyLimit (length (siteLimits data))
  end.

End Popup.
(** ** Worked values *)

Example parseInt_examples :
  JSValue.parseInt (JSValue.Number (JSValue.Decimal 25 (-1))) = Int 2 /\
  JSValue.parseInt (JSValue.Number (JSValue.Decimal 5 (-1))) = Int 0 /\
  JSValue.parseInt (integer (-1)) = Int (-1) /\
  JSValue.parseInt (JSValue.Number (JSValue.Decimal 1 (-7))) = Int 1 /\
  JSValue.parseInt (JSValue.Number (JSValue.Decimal 3 21)) = Int 3 /\
  JSValue.parseInt (JSValue.Number (JSValue.Decimal 1 23)) = Int 1 /\
  JSValue.parseInt (JSValue.Bool true) = NaN /\
  JSValue.parseInt (JSValue.Str " ") = NaN /\
  JSValue.parseInt (JSValue.Str "Infinity") = NaN /\
  JSValue.parseInt (JSValue.Str " 12px") = Int 12 /\
  JSValue.parseInt (JSValue.Str "-0x1F") = Int (-31) /\
  JSValue.parseInt (JSValue.Str "1e3") = Int 1.
Proof. repeat split; vm_compute; reflexivity. Qed.

Example isNaN_examples :
  JSValue.isNaN (JSValue.Str " ") = false /\
  JSValue.isNaN (JSValue.Str "Infinity") = false /\
  JSValue.isNaN (JSValue.Str " 1.5e-3 ") = false /\
  JSValue.isNaN (JSValue.Str "0x1F") = false /\
  JSValue.isNaN (JSValue.Str "12px") = true /\
  JSValue.isNaN (JSValue.Str "-0x1F") = true /\
  JSValue.isNaN (JSValue.Object "") = false /\
  JSValue.isNaN (JSValue.Object "[object Object]") = true /\
  JSValue.isNaN (JSValue.Bool true) = false /\
  JSValue.isNaN JSValue.Undefined = true.
Proof. repeat split; vm_compute; reflexivity. Qed.

Example normalizeDomain_examples :
  normalizeDomain (Some "https://www.Example.com/path") = Some "example.com" /\
  normalizeDomain (Some "example.com") = Some "example.com" /\
  normalizeDomain (Some "www.example.com:443") = Some "example.com" /\
  normalizeDomain (Some "BAD_DOMAIN") = Some "bad_domain" /\
  normalizeDomain (Some "  ") = Some "".
Proof. repeat split; vm_compute; reflexivity. Qed.

Example url_hostname_examples :
  url_hostname "https://www.a.com/x?y#z" = Some "www.a.com" /\
  url_hostname "http://user:pw@News.com:8080/" = Some "news.com" /\
  url_hostname "https://" = None.
Proof. repeat split; vm_compute; reflexivity. Qed.

(** ** Daily rollover *)

Section Rollover.

Variable today : string.

Lemma reset_same_day (s : Settings) :
  lastResetDate s = today -> resetDailyCountersIfNeeded today s = (s, []).
Proof.
  intros Hd. unfold resetDailyCountersIfNeeded.
  rewrite <- Hd, String.eqb_refl. reflexivity.
Qed.

Lemma reset_new_day (s : Settings) :
  lastResetDate s <> today ->
  let s' := mkSettings (timeRestrictionsEnabled s) (globalDailyLimit s) 0
              (warningMessage s) (map (set_used (Int 0)) (siteLimits s)) today in
  resetDailyCountersIfNeeded today s = (s', [StorageSetSettings s']).
Proof.
  intros Hd. unfold resetDailyCountersIfNeeded.
  apply String.eqb_neq in Hd. rewrite Hd. reflexivity.
Qed.

Lemma reset_date (s : Settings) :
  lastResetDate (fst (resetDailyCountersIfNeeded today s)) = today.
Proof.
  destruct (String.eqb_spec (lastResetDate s) today) as [Hd|Hd].
  - rewrite reset_same_day; auto.
  - rewrite reset_new_day; auto.
Qed.

End Rollover.

(** C8.  The daily rollover is idempotent.  When the stored
    [lastResetDate] differs from today, [resetDailyCountersIfNeeded] sets
    [globalUsed] and the [used] of every site limit to zero (their other
    fields, and the rest of the settings, stay), stores today as
    [lastResetDate] and saves once.  A call on the day already stored, and
    so a second call on the same day, changes nothing and saves nothing. *)
Theorem rollover_idempotent (today : string) (s : Settings) :
  let r1 := resetDailyCountersIfNeeded today s in
  (lastResetDate s <> today ->
     globalUsed (fst r1) = 0
     /\ Forall (fun e => used e = Int 0) (siteLimits (fst r1))
     /\ map site (siteLimits (fst r1)) = map site (siteLimits s)
     /\ map limit (siteLimits (fst r1)) = map limit (siteLimits s)
     /\ map enabled (siteLimits (fst r1)) = map enabled (siteLimits s)
     /\ timeRestrictionsEnabled (fst r1) = timeRestrictionsEnabled s
     /\ globalDailyLimit (fst r1) = globalDailyLimit s
     /\ warningMessage (fst r1) = warningMessage s
     /\ lastResetDate (fst r1) = today
     /\ snd r1 = [StorageSetSettings (fst r1)])
  /\ (lastResetDate s = today -> r1 = (s, []))
  /\ resetDailyCountersIfNeeded today (fst r1) = (fst r1, []).
Proof.
  cbv zeta. split; [|split].
  - intros Hd. rewrite (reset_new_day today s Hd). cbn.
    repeat split; try reflexivity.
    + apply List.Forall_forall. intros e He. apply in_map_iff in He.
      destruct He as (e0 & <- & _). reflexivity.
    + rewrite map_map. reflexivity.
    + rewrite map_map. reflexivity.
    + rewrite map_map. reflexivity.
  - apply reset_same_day.
  - apply reset_same_day, reset_date.
Qed.

Lemma rollover_idempotent_witness :
  let r1 := resetDailyCountersIfNeeded "Tue Nov 03 2026" rollover_sample in
  globalUsed (fst r1) = 0
  /\ map used (siteLimits (fst r1)) = [Int 0; Int 0]
  /\ lastResetDate (fst r1) = "Tue Nov 03 2026"
  /\ resetDailyCountersIfNeeded "Tue Nov 03 2026" (fst r1) = (fst r1, [])
  /\ resetDailyCountersIfNeeded "Mon Nov 02 2026" rollover_sample = (rollover_sample, []).
Proof.
  pose proof (rollover_idempotent "Tue Nov 03 2026" rollover_sample) as [Hnew [_ Hagain]].
  pose proof (rollover_idempotent "Mon Nov 02 2026" rollover_sample) as [_ [Hsame _]].
  assert (Hne : lastResetDate rollover_sample <> "Tue Nov 03 2026") by (vm_compute; congruence).
  destruct (Hnew Hne) as (Hg & _ & _ & _ & _ & _ & _ & _ & Hd & _).
  cbv zeta.
  refine (conj Hg (conj _ (conj Hd (conj Hagain (Hsame _))))).
  - vm_compute. reflexivity.
  - vm_compute. reflexivity.
Defined.

(** ** Limit evaluation *)

Lemma geb_spec (a b : number) :
  JSNumber.geb a b = true <-> exists x y, a = Int x /\ b = Int y /\ y <= x.
Proof.
  destruct a as [|x], b as [|y]; cbn; try (split; [discriminate | intros (? & ? & ? & ? & ?); discriminate]).
  rewrite Z.leb_le. split.
  - intros H. exists x, y. auto.
  - intros (x' & y' & [= ->] & [= ->] & H). exact H.
Qed.

Lemma globalBreach_spec (s : Settings) :
  globalBreach s = true <-> global_breached s.
Proof.
  unfold globalBreach, global_breached.
  destruct (globalDailyLimit s) as [[|n]|]; cbn.
  - split; [discriminate|]. intros (m & Hm & _). discriminate.
  - rewrite andb_true_iff, negb_true_iff, Z.eqb_neq, Z.leb_le. split.
    + intros [Hn Hu]. exists n. auto.
    + intros (m & Hm & Hn & Hu). injection Hm as <-. auto.
  - split; [discriminate|]. intros (m & Hm & _). discriminate.
Qed.

Lemma site_breached_spec (e : SiteLimit) :
  enabled e && JSNumber.geb (used e) (limit e) = true <-> site_breached e.
Proof.
  unfold site_breached. rewrite andb_true_iff, geb_spec. reflexivity.
Qed.

Lemma checkSiteLimits_length (l : list SiteLimit) :
  (length (checkSiteLimits l) <= 1)%nat.
Proof.
  induction l as [|e l IH]; cbn; [lia|].
  destruct (enabled e && JSNumber.geb (used e) (limit e)); cbn; lia.
Qed.

Lemma checkSiteLimits_first (l : list SiteLimit) (i : nat) (e : SiteLimit) :
  l !! i = Some e ->
  site_breached e ->
  (forall j e', (j < i)%nat -> l !! j = Some e' -> ~ site_breached e') ->
  checkSiteLimits l = [WarnSite (site e)].
Proof.
  revert i. induction l as [|x l IH]; intros i Hi Hb Hfirst; [discriminate|].
  cbn. destruct i as [|i].
  - injection Hi as ->. apply site_breached_spec in Hb. rewrite Hb. reflexivity.
  - destruct (enabled x && JSNumber.geb (used x) (limit x)) eqn:Hx.
    + exfalso. apply (Hfirst 0%nat x); [lia | reflexivity | now apply site_breached_spec].
    + apply (IH i); auto. intros j e' Hj He'. apply (Hfirst (S j) e'); [lia | exact He'].
Qed.

Lemma checkSiteLimits_none (l : list SiteLimit) :
  (forall e, In e l -> ~ site_breached e) -> checkSiteLimits l = [].
Proof.
  induction l as [|x l IH]; intros Hno; [reflexivity|]. cbn.
  destruct (enabled x && JSNumber.geb (used x) (limit x)) eqn:Hx.
  - exfalso. apply (Hno x); [now left | now apply site_breached_spec].
  - apply IH. intros e He. apply Hno. now right.
Qed.

Lemma showWarning_notifications (w : warning) (s : Settings) :
  length (List.filter is_notification (showWarning w s)) = 1%nat.
Proof. destruct w; reflexivity. Qed.

Lemma checkLimits_notifications (s : Settings) :
  length (List.filter is_notification (checkLimits s))
  = length (checkLimits_warnings s).
Proof.
  unfold checkLimits. induction (checkLimits_warnings s) as [|w l IH]; [reflexivity|].
  cbn [flat_map]. rewrite List.filter_app, length_app, showWarning_notifications, IH.
  reflexivity.
Qed.

Lemma checkLimits_global (s : Settings) :
  global_breached s -> checkLimits s = showWarning WarnGlobal s.
Proof.
  intros Hg. apply globalBreach_spec in Hg. unfold checkLimits, checkLimits_warnings.
  rewrite Hg. cbn [flat_map]. apply app_nil_r.
Qed.

Lemma checkLimits_sites (s : Settings) :
  ~ global_breached s ->
  checkLimits s = flat_map (fun w => showWarning w s) (checkSiteLimits (siteLimits s)).
Proof.
  intros Hg. unfold checkLimits, checkLimits_warnings.
  destruct (globalBreach s) eqn:Hgb; [|reflexivity].
  exfalso. now apply Hg, globalBreach_spec.
Qed.

(** An entry that [applySiteTime] does not flag is left as it is. *)
Lemma applySiteTime_unflagged (siteTimes : gmap string Z) (e : SiteLimit) :
  snd (applySiteTime siteTimes e) = false -> fst (applySiteTime siteTimes e) = e.
Proof.
  unfold applySiteTime. destruct (siteTimes_get siteTimes (site e)) as [|t|].
  - reflexivity.
  - destruct (truthyZ t && enabled e); [|reflexivity].
    destruct (negb (JSNumber.strict_eq _ _)); [discriminate | reflexivity].
  - destruct (enabled e); [discriminate | reflexivity].
Qed.

Lemma set_siteLimits_id (s : Settings) : set_siteLimits (siteLimits s) s = s.
Proof. destruct s; reflexivity. Qed.

(** What [applyTimeUpdates] does once the entries are updated. *)
Lemma applyTimeUpdates_calls globalTime siteTimes (s : Settings) :
  let r := applyTimeUpdates globalTime siteTimes s in
  (snd r = [] \/ snd r = StorageSetSettings (fst r) :: checkLimits (fst r))
  /\ (limit_set (globalDailyLimit s) = true \/ fst r <> s ->
      snd r = StorageSetSettings (fst r) :: checkLimits (fst r)).
Proof.
  cbv zeta. unfold applyTimeUpdates.
  destruct (limit_set (globalDailyLimit s)) eqn:Hlim; cbn [orb fst snd].
  - split; [now right | reflexivity].
  - destruct (existsb snd (map (applySiteTime siteTimes) (siteLimits s))) eqn:Hex;
      cbn [fst snd].
    + split; [now right | reflexivity].
    + split; [now left|]. intros [H|H]; [discriminate|]. exfalso. apply H.
      rewrite <- (set_siteLimits_id s) at 3. f_equal.
      rewrite map_map. rewrite <- (map_id (siteLimits s)) at 2.
      apply map_ext_in. intros e He. apply applySiteTime_unflagged.
      destruct (snd (applySiteTime siteTimes e)) eqn:Hflag; [|reflexivity].
      exfalso. rewrite <- not_true_iff_false in Hex. apply Hex.
      apply existsb_exists. exists (applySiteTime siteTimes e).
      split; [now apply in_map | exact Hflag].
Qed.

(** C6.  One run of [checkLimits] dispatches at most one intervention.
    With the global limit breached (a daily limit is set and
    [globalUsed >= globalDailyLimit]) it dispatches the global
    intervention, the notification with the configured message and the
    query whose callback blocks the tabs, and nothing else, whatever the
    site limits are.  Otherwise it dispatches the site intervention, one
    notification naming the site, for the first entry of [siteLimits], in
    stored order, that is enabled and has [used >= limit], and nothing
    when no entry is.  [applyTimeUpdates] runs [checkLimits] once, on the
    settings it has just saved, whenever a daily limit is set or it
    changed the settings, and makes no call at all otherwise. *)
Theorem single_intervention_per_pass (s : Settings) :
  (global_breached s ->
     checkLimits s
     = [NotificationCreate "Bulwark Time Limit" (warningMessage s) 2; TabsQuery blockTabs])
  /\ (~ global_breached s ->
      forall i e,
        siteLimits s !! i = Some e ->
        site_breached e ->
        (forall j e', (j < i)%nat -> siteLimits s !! j = Some e' -> ~ site_breached e') ->
        checkLimits s
        = [NotificationCreate "Bulwark Time Limit"
             (String.append "Time limit reached for "
                (String.append (site e) (String.append ". " (warningMessage s)))) 2])
  /\ (~ global_breached s ->
      (forall e, In e (siteLimits s) -> ~ site_breached e) ->
      checkLimits s = [])
  /\ (length (List.filter is_notification (checkLimits s)) <= 1)%nat
  /\ (length (List.filter is_query (checkLimits s)) <= 1)%nat
  /\ (forall globalTime siteTimes,
        let r := applyTimeUpdates globalTime siteTimes s in
        (snd r = [] \/ snd r = StorageSetSettings (fst r) :: checkLimits (fst r))
        /\ (limit_set (globalDailyLimit s) = true \/ fst r <> s ->
            snd r = StorageSetSettings (fst r) :: checkLimits (fst r))).
Proof.
  split; [|split; [|split; [|split; [|split]]]].
  - intros Hg. now rewrite checkLimits_global.
  - intros Hg i e Hi Hb Hfirst. rewrite checkLimits_sites by exact Hg.
    now rewrite (checkSiteLimits_first _ i e Hi Hb Hfirst).
  - intros Hg Hno. rewrite checkLimits_sites by exact Hg.
    now rewrite checkSiteLimits_none.
  - rewrite checkLimits_notifications. unfold checkLimits_warnings.
    destruct (globalBreach s); [cbn; lia | apply checkSiteLimits_length].
  - unfold checkLimits, checkLimits_warnings.
    destruct (globalBreach s); [cbn; lia|].
    pose proof (checkSiteLimits_length (siteLimits s)) as Hlen.
    destruct (checkSiteLimits (siteLimits s)) as [|w [|w' l]]; cbn in Hlen |- *; try lia.
    destruct w; cbn; lia.
  - intros globalTime siteTimes. apply applyTimeUpdates_calls.
Qed.

Lemma single_intervention_per_pass_witness :
  global_breached breach_sample
  /\ site_breached (mkSiteLimit "shop.com" (Int 5) (Int 5) true)
  /\ checkLimits breach_sample
     = [NotificationCreate "Bulwark Time Limit" "Stop." 2; TabsQuery blockTabs]
  /\ checkLimits (set_globalUsed 29 breach_sample)
     = [NotificationCreate "Bulwark Time Limit" "Time limit reached for shop.com. Stop." 2]
  /\ checkLimits (set_siteLimits [mkSiteLimit "news.com" (Int 20) (Int 3) true]
                    (set_globalUsed 29 breach_sample)) = [].
Proof.
  assert (Hg : global_breached breach_sample).
  { exists 30. cbn. repeat split; [discriminate | lia]. }
  assert (Hs : site_breached (mkSiteLimit "shop.com" (Int 5) (Int 5) true)).
  { split; [reflexivity|]. exists 5, 5. cbn. repeat split; lia. }
  assert (Hn : forall l, ~ global_breached (set_siteLimits l (set_globalUsed 29 breach_sample))).
  { intros l (n & Hn & _ & Hu). cbn in Hn, Hu. injection Hn as <-. lia. }
  refine (conj Hg (conj Hs (conj _ (conj _ _)))).
  - exact (proj1 (single_intervention_per_pass breach_sample) Hg).
  - refine (proj1 (proj2 (single_intervention_per_pass
              (set_globalUsed 29 breach_sample))) (Hn _) 1%nat _ eq_refl Hs _).
    intros j e' Hj He'. destruct j as [|j]; [|lia].
    injection He' as <-. intros [_ (u & l & Hu & Hl & Hle)].
    cbn in Hu, Hl. injection Hu as <-. injection Hl as <-. lia.
  - refine (proj1 (proj2 (proj2 (single_intervention_per_pass _))) (Hn _) _).
    intros e [<-|[]] [_ (u & l & Hu & Hl & Hle)].
    cbn in Hu, Hl. injection Hu as <-. injection Hl as <-. lia.
Defined.

(** ** Interventions *)

Lemma redirects_in (tabs : list Tab) (tabId : Z) (url : extension_url) :
  In (TabsUpdate tabId url) (blockTabs tabs)
  <-> url = blockedPage
      /\ exists tab, In tab tabs /\ tab_id tab = tabId /\ tab_trackable tab = true.
Proof.
  unfold blockTabs. rewrite in_flat_map. split.
  - intros (tab & Htab & Hin). destruct (tab_trackable tab) eqn:Ht; [|destruct Hin].
    destruct Hin as [Heq|[]]. injection Heq as <- <-. eauto.
  - intros (-> & tab & Htab & <- & Ht). exists tab. rewrite Ht. split; [exact Htab | now left].
Qed.

Lemma blockTabs_redirects (tabs : list Tab) :
  List.filter is_redirect (blockTabs tabs) = blockTabs tabs.
Proof.
  unfold blockTabs. induction tabs as [|t l IH]; [reflexivity|].
  cbn [flat_map]. rewrite List.filter_app, IH. f_equal.
  destruct (tab_trackable t); reflexivity.
Qed.

(** C7.  Every call of [showWarning] creates exactly one notification,
    titled "Bulwark Time Limit", and it comes first.  For a site breach
    its message is the configured warning message behind
    "Time limit reached for <site>. ", and nothing else happens: no tab is
    queried or redirected.  For a global breach the message is the
    configured warning message, and the one call that follows is the
    query of the tabs with the callback [blockTabs]; when the browser
    answers with the open tabs, the calls of that callback are redirects
    only, of exactly the tabs with a trackable URL, each to the extension
    page [blocked.html?reason=time_limit]. *)
Theorem intervention_dispatch (s : Settings) :
  (forall w, exists message rest,
      showWarning w s = NotificationCreate "Bulwark Time Limit" message 2 :: rest
      /\ List.filter is_notification rest = [])
  /\ (forall site,
        showWarning (WarnSite site) s
        = [NotificationCreate "Bulwark Time Limit"
             (String.append "Time limit reached for "
                (String.append site (String.append ". " (warningMessage s)))) 2]
        /\ List.filter is_query (showWarning (WarnSite site) s) = []
        /\ List.filter is_redirect (showWarning (WarnSite site) s) = [])
  /\ showWarning WarnGlobal s
     = [NotificationCreate "Bulwark Time Limit" (warningMessage s) 2; TabsQuery blockTabs]
  /\ (forall tabs,
        List.filter is_redirect (blockTabs tabs) = blockTabs tabs
        /\ forall tabId url,
             In (TabsUpdate tabId url) (blockTabs tabs)
             <-> url = getURL "blocked.html?reason=time_limit"
                 /\ exists tab, In tab tabs /\ tab_id tab = tabId
                                /\ exists u, tab_url tab = Some u /\ isTrackableUrl u = true).
Proof.
  split; [|split; [|split]].
  - intros w. destruct w; eexists _, _; split; reflexivity.
  - intros site0. repeat split; reflexivity.
  - reflexivity.
  - intros tabs. split; [apply blockTabs_redirects|].
    intros tabId url. rewrite redirects_in. unfold blockedPage.
    split; intros (Hu & tab & Hin & Hid & Ht); (split; [exact Hu|]);
      exists tab; (split; [exact Hin|]); (split; [exact Hid|]).
    + unfold tab_trackable in Ht. destruct (tab_url tab) as [u|]; [eauto | discriminate].
    + destruct Ht as (u & Hu' & Ht). unfold tab_trackable. now rewrite Hu'.
Qed.

Example isTrackableUrl_examples :
  isTrackableUrl "https://shop.com/cart" = true /\
  isTrackableUrl "http://news.com" = true /\
  isTrackableUrl "chrome://settings" = false /\
  isTrackableUrl "about:blank" = false /\
  isTrackableUrl "ftp://files.org" = false /\
  isTrackableUrl "" = false.
Proof. repeat split. Qed.

Lemma intervention_dispatch_witness :
  showWarning (WarnSite "shop.com") breach_sample
  = [NotificationCreate "Bulwark Time Limit" "Time limit reached for shop.com. Stop." 2]
  /\ showWarning WarnGlobal breach_sample
     = [NotificationCreate "Bulwark Time Limit" "Stop." 2; TabsQuery blockTabs]
  /\ In (TabsUpdate 4 (getURL "blocked.html?reason=time_limit")) (blockTabs open_tabs_sample)
  /\ ~ In (TabsUpdate 2 (getURL "blocked.html?reason=time_limit")) (blockTabs open_tabs_sample).
Proof.
  destruct (intervention_dispatch breach_sample) as (_ & Hsite & Hg & Hblock).
  destruct (Hblock open_tabs_sample) as [_ Hr].
  split; [exact (proj1 (Hsite "shop.com"))|]. split; [exact Hg|]. split.
  - apply Hr. split; [reflexivity|].
    exists (mkTab 4 (Some "http://news.com")). cbn. intuition eauto.
  - intros Hin.
    apply Hr in Hin. destruct Hin as (_ & tab & Hin & Hid & u & Hu & Ht).
    cbn in Hin. destruct Hin as [<-|[<-|[<-|[<-|[]]]]]; cbn in Hid, Hu; try discriminate.
    injection Hu as <-. vm_compute in Ht. discriminate.
Defined.

(** ** Removing and toggling a site limit *)

Lemma sameSite_spec (n : option string) (e : SiteLimit) :
  sameSite n e = true <-> normalizeDomain (Some (site e)) = n.
Proof.
  unfold sameSite. cbn [normalizeDomain].
  destruct n as [b|].
  - rewrite String.eqb_eq. split; congruence.
  - split; discriminate.
Qed.

Lemma sameSite_false (n : option string) (e : SiteLimit) :
  sameSite n e = false <-> normalizeDomain (Some (site e)) <> n.
Proof.
  rewrite <- sameSite_spec. destruct (sameSite n e); split; congruence.
Qed.

Lemma filter_same_length {A : Type} (p : A -> bool) (l : list A) :
  length (List.filter p l) = length l -> List.filter p l = l.
Proof.
  induction l as [|x l IH]; [reflexivity|]. cbn.
  destruct (p x); cbn; intros Hlen.
  - f_equal. apply IH. lia.
  - pose proof (List.filter_length_le p l). lia.
Qed.

Lemma filter_sublist {A : Type} (p : A -> bool) (l : list A) :
  sublist (List.filter p l) l.
Proof.
  induction l as [|x l IH]; cbn; [constructor|].
  destruct (p x); now constructor.
Qed.

Section SiteLookup.

Variables (name : option string) (s : Settings).

Lemma first_match_None :
  (forall e, In e (siteLimits s) -> normalizeDomain (Some (site e)) <> (normalizeDomain name)) ->
  list_find (fun e => sameSite (normalizeDomain name) e = true) (siteLimits s) = None.
Proof.
  intros Hno. apply list_find_None, List.Forall_forall.
  intros e He. rewrite sameSite_spec. now apply Hno.
Qed.

Lemma first_match_Some :
  (exists e, In e (siteLimits s) /\ normalizeDomain (Some (site e)) = (normalizeDomain name)) ->
  exists i e,
    list_find (fun e => sameSite (normalizeDomain name) e = true) (siteLimits s) = Some (i, e)
    /\ siteLimits s !! i = Some e
    /\ normalizeDomain (Some (site e)) = (normalizeDomain name)
    /\ forall j e', (j < i)%nat -> siteLimits s !! j = Some e' ->
                    normalizeDomain (Some (site e')) <> (normalizeDomain name).
Proof.
  intros (e & He & Hn).
  destruct (list_find (fun e => sameSite (normalizeDomain name) e = true) (siteLimits s))
    as [[i x]|] eqn:Hfind.
  - exists i, x. split; [reflexivity|].
    apply list_find_Some in Hfind. destruct Hfind as (Hi & Hx & Hfirst).
    split; [exact Hi|]. split; [now apply sameSite_spec|].
    intros j e' Hj He'. rewrite <- sameSite_spec. now apply (Hfirst j e').
  - exfalso. apply list_find_None in Hfind.
    rewrite List.Forall_forall in Hfind.
    apply (Hfind e He). now apply sameSite_spec.
Qed.

Lemma remove_not_found :
  (forall e, In e (siteLimits s) -> normalizeDomain (Some (site e)) <> (normalizeDomain name)) ->
  removeSiteLimit name s = (s, failure "Site limit not found", []).
Proof.
  intros Hno. unfold removeSiteLimit.
  assert (Hall : List.filter (fun e => negb (sameSite (normalizeDomain name) e)) (siteLimits s) = siteLimits s).
  { apply filter_same_length. f_equal.
    apply forallb_filter_id, forallb_forall.
    intros e He. apply negb_true_iff, sameSite_false. now apply Hno. }
  cbn [siteLimits set_siteLimits]. rewrite Hall, Nat.eqb_refl, set_siteLimits_id.
  reflexivity.
Qed.

Lemma remove_found :
  (exists e, In e (siteLimits s) /\ normalizeDomain (Some (site e)) = (normalizeDomain name)) ->
  let s' := set_siteLimits
              (List.filter (fun e => negb (sameSite (normalizeDomain name) e)) (siteLimits s)) s in
  removeSiteLimit name s = (s', ok, [StorageSetSettings s']).
Proof.
  intros (e & He & Hn). cbv zeta. unfold removeSiteLimit.
  cbn [siteLimits set_siteLimits].
  destruct (Nat.eqb_spec
              (length (List.filter (fun e => negb (sameSite (normalizeDomain name) e)) (siteLimits s)))
              (length (siteLimits s))) as [Hlen|Hlen]; [|reflexivity].
  exfalso. apply List.filter_length_forallb in Hlen.
  rewrite forallb_forall in Hlen. specialize (Hlen e He).
  apply negb_true_iff, sameSite_false in Hlen. contradiction.
Qed.

End SiteLookup.

(** C9.  When no stored entry has the normalized site of the request,
    [removeSiteLimit] and [toggleSiteLimit] both answer
    [{success: false, error: "Site limit not found"}], leave the settings
    as they are and save nothing.  When an entry matches,
    [removeSiteLimit] drops every matching entry, keeps the others in
    order, saves, and answers success; [toggleSiteLimit] sets [enabled]
    of the first matching entry to the value given, saves, and answers
    success. *)
Theorem remove_toggle_site_limit (name : option string) (b : bool) (s : Settings) :
  let n := normalizeDomain name in
  ((forall e, In e (siteLimits s) -> normalizeDomain (Some (site e)) <> n) ->
     removeSiteLimit name s = (s, failure "Site limit not found", [])
     /\ toggleSiteLimit name b s = (s, failure "Site limit not found", []))
  /\ ((exists e, In e (siteLimits s) /\ normalizeDomain (Some (site e)) = n) ->
      (exists s',
          removeSiteLimit name s = (s', ok, [StorageSetSettings s'])
          /\ s' = set_siteLimits (siteLimits s') s
          /\ (forall e, In e (siteLimits s')
                        <-> In e (siteLimits s) /\ normalizeDomain (Some (site e)) <> n)
          /\ sublist (siteLimits s') (siteLimits s))
      /\ (exists s' i e,
             toggleSiteLimit name b s = (s', ok, [StorageSetSettings s'])
             /\ siteLimits s !! i = Some e
             /\ normalizeDomain (Some (site e)) = n
             /\ (forall j e', (j < i)%nat -> siteLimits s !! j = Some e' ->
                              normalizeDomain (Some (site e')) <> n)
             /\ s' = set_siteLimits (<[i := set_enabled b e]> (siteLimits s)) s)).
Proof.
  cbv zeta. split.
  - intros Hno. split; [now apply remove_not_found|].
    unfold toggleSiteLimit. now rewrite first_match_None.
  - intros Hsome. split.
    + eexists. split; [now apply remove_found|].
      cbn [siteLimits set_siteLimits]. split; [reflexivity|]. split.
      * intros e. rewrite filter_In, negb_true_iff, sameSite_false. reflexivity.
      * apply filter_sublist.
    + destruct (first_match_Some name s Hsome) as (i & e & Hfind & Hi & Hn & Hfirst).
      eexists _, i, e. unfold toggleSiteLimit. rewrite Hfind.
      split; [reflexivity|]. auto.
Qed.

Lemma remove_toggle_site_limit_witness :
  removeSiteLimit (Some "play.org") breach_sample
  = (breach_sample, failure "Site limit not found", [])
  /\ toggleSiteLimit (Some "play.org") false breach_sample
     = (breach_sample, failure "Site limit not found", [])
  /\ (exists s', removeSiteLimit (Some "https://www.Shop.com/cart") breach_sample
                 = (s', ok, [StorageSetSettings s'])
                 /\ map site (siteLimits s') = ["news.com"; "play.com"])
  /\ (exists s', toggleSiteLimit (Some "https://www.Shop.com/cart") false breach_sample
                 = (s', ok, [StorageSetSettings s'])
                 /\ map enabled (siteLimits s') = [true; false; true]).
Proof.
  pose proof (remove_toggle_site_limit (Some "play.org") false breach_sample) as [Hno _].
  pose proof (remove_toggle_site_limit (Some "https://www.Shop.com/cart") false breach_sample)
    as [_ Hyes].
  assert (H1 : forall e, In e (siteLimits breach_sample) ->
                         normalizeDomain (Some (site e)) <> normalizeDomain (Some "play.org")).
  { intros e [<-|[<-|[<-|[]]]]; vm_compute; discriminate. }
  assert (H2 : exists e, In e (siteLimits breach_sample)
                 /\ normalizeDomain (Some (site e))
                    = normalizeDomain (Some "https://www.Shop.com/cart")).
  { exists (mkSiteLimit "shop.com" (Int 5) (Int 5) true). split; [right; left; reflexivity|].
    vm_compute. reflexivity. }
  destruct (Hno H1) as [Hr Ht]. destruct (Hyes H2) as [(s1 & Hr1 & _) (s2 & i & e & Ht2 & _)].
  refine (conj Hr (conj Ht (conj _ _))).
  - exists s1. split; [exact Hr1|].
    assert (Hs : fst (fst (removeSiteLimit (Some "https://www.Shop.com/cart") breach_sample)) = s1)
      by now rewrite Hr1.
    rewrite <- Hs. vm_compute. reflexivity.
  - exists s2. split; [exact Ht2|].
    assert (Hs : fst (fst (toggleSiteLimit (Some "https://www.Shop.com/cart") false breach_sample)) = s2)
      by now rewrite Ht2.
    rewrite <- Hs. vm_compute. reflexivity.
Defined.

(** ** Applying usage to the site limits *)

Lemma lookup_map {A B : Type} (f : A -> B) (l : list A) (i : nat) :
  map f l !! i = option_map f (l !! i).
Proof.
  revert i. induction l as [|x l IH]; intros [|i]; cbn; auto.
Qed.

Lemma strict_eq_true (a b : number) : JSNumber.strict_eq a b = true -> a = b.
Proof.
  destruct a as [|x], b as [|y]; cbn; try discriminate.
  intros H. apply Z.eqb_eq in H. now subst.
Qed.

Lemma siteTimes_get_own (siteTimes : gmap string Z) (name : string) :
  inherited name = false ->
  siteTimes_get siteTimes name
  = match siteTimes !! name with Some t => Minutes t | None => Missing end.
Proof. intros H. unfold siteTimes_get. now rewrite H. Qed.

Lemma siteTimes_get_inherited (siteTimes : gmap string Z) (name : string) :
  inherited name = true -> siteTimes_get siteTimes name = Foreign.
Proof. intros H. unfold siteTimes_get. now rewrite H. Qed.

Lemma applySiteTime_fields (siteTimes : gmap string Z) (e : SiteLimit) :
  let e' := fst (applySiteTime siteTimes e) in
  site e' = site e /\ limit e' = limit e /\ enabled e' = enabled e.
Proof.
  unfold applySiteTime. destruct (siteTimes_get siteTimes (site e)) as [|t|]; [cbn; auto| |].
  - destruct (truthyZ t && enabled e); [|cbn; auto].
    destruct (negb (JSNumber.strict_eq _ _)); cbn; auto.
  - destruct (enabled e) eqn:E; cbn; rewrite ?E; auto.
Qed.

Lemma applySiteTime_used (siteTimes : gmap string Z) (e : SiteLimit) :
  used (fst (applySiteTime siteTimes e))
  = match siteTimes_get siteTimes (site e) with
    | Minutes t =>
        if truthyZ t && enabled e
        then JSNumber.min (JSNumber.add (used e) (Int t)) (limit e) else used e
    | Foreign => if enabled e then NaN else used e
    | Missing => used e
    end.
Proof.
  unfold applySiteTime. destruct (siteTimes_get siteTimes (site e)) as [|t|]; [reflexivity| |].
  - destruct (truthyZ t && enabled e); [|reflexivity].
    destruct (JSNumber.strict_eq _ _) eqn:Heq; cbn; [|reflexivity].
    symmetry. now apply strict_eq_true.
  - destruct (enabled e); reflexivity.
Qed.

Lemma applyTimeUpdates_siteLimits globalTime siteTimes (s : Settings) :
  siteLimits (fst (applyTimeUpdates globalTime siteTimes s))
  = map (fun e => fst (applySiteTime siteTimes e)) (siteLimits s).
Proof.
  unfold applyTimeUpdates.
  assert (Hl : forall b : bool,
             siteLimits (if b then set_globalUsed (globalUsed s + globalTime) s else s)
             = siteLimits s) by (intros []; reflexivity).
  match goal with |- context [if ?c then (?a, _) else (?b, _)] => destruct c end;
    cbn [fst siteLimits set_siteLimits]; rewrite map_map, Hl; reflexivity.
Qed.

Lemma applyTimeUpdates_entry globalTime siteTimes (s : Settings) i e :
  siteLimits s !! i = Some e ->
  siteLimits (fst (applyTimeUpdates globalTime siteTimes s)) !! i
  = Some (fst (applySiteTime siteTimes e)).
Proof.
  intros Hi. rewrite applyTimeUpdates_siteLimits, lookup_map, Hi. reflexivity.
Qed.

(** The update of an entry that goes by no inherited name and holds
    numbers. *)
Lemma applySiteTime_numbers (siteTimes : gmap string Z) (e : SiteLimit) (u l : Z) :
  inherited (site e) = false -> used e = Int u -> limit e = Int l ->
  used (fst (applySiteTime siteTimes e))
  = Int (match siteTimes !! site e with
         | Some t => if truthyZ t && enabled e then Z.min (u + t) l else u
         | None => u
         end).
Proof.
  intros Hown Hu Hl. rewrite applySiteTime_used, siteTimes_get_own by exact Hown.
  rewrite Hu, Hl. destruct (siteTimes !! site e) as [t|]; [|reflexivity].
  destruct (truthyZ t && enabled e); reflexivity.
Qed.




Example scenario_B :
  applyTimeUpdates 3 {[ "shop.com" := 3 ]}
    (mkSettings true None 0 "Stop." [mkSiteLimit "shop.com" (Int 5) (Int 4) true]
                "Mon Nov 02 2026")
  = (mkSettings true None 0 "Stop." [mkSiteLimit "shop.com" (Int 5) (Int 5) true]
                "Mon Nov 02 2026",
     [StorageSetSettings (mkSettings true None 0 "Stop."
                            [mkSiteLimit "shop.com" (Int 5) (Int 5) true] "Mon Nov 02 2026");
      NotificationCreate "Bulwark Time Limit"
        "Time limit reached for shop.com. Stop." 2]).
Proof. vm_compute. reflexivity. Qed.

(** ** The bounds of a site limit *)

Lemma limit_accepted (l : JSValue.value) :
  limit_rejected l = false ->
  JSValue.truthy l = true
  /\ JSValue.isNaN l = false
  /\ (JSValue.parseInt l = NaN \/ exists n, JSValue.parseInt l = Int n /\ 0 < n).
Proof.
  unfold limit_rejected. intros H.
  apply orb_false_iff in H as [H Hp]. apply orb_false_iff in H as [Ht Hn].
  apply negb_false_iff in Ht. split; [exact Ht|]. split; [exact Hn|].
  destruct (JSValue.parseInt l) as [|n]; [now left|]. right.
  exists n. split; [reflexivity|]. cbn in Hp. apply Z.leb_gt in Hp. exact Hp.
Qed.

Lemma addSiteLimit_ok (name : option string) (l : JSValue.value) (s : Settings) d :
  normalizeDomain name = Some d -> d <> "" -> limit_rejected l = false ->
  addSiteLimit name l s
  = (let s' :=
       set_siteLimits
         (match list_find (fun e => sameSite (Some d) e = true) (siteLimits s) with
          | Some (i, old) =>
              <[i := mkSiteLimit d (JSValue.parseInt l) (used old) true]> (siteLimits s)
          | None => siteLimits s ++ [mkSiteLimit d (JSValue.parseInt l) (Int 0) true]
          end) s in
     (s', ok, [StorageSetSettings s'])).
Proof.
  intros Hd Hne Hrej. unfold addSiteLimit. rewrite Hd.
  destruct d as [|c r]; [congruence|]. rewrite Hrej. reflexivity.
Qed.

Lemma addSiteLimit_failed (name : option string) (l : JSValue.value) (s : Settings) :
  success (snd (fst (addSiteLimit name l s))) = false ->
  fst (fst (addSiteLimit name l s)) = s /\ snd (addSiteLimit name l s) = [].
Proof.
  unfold addSiteLimit. destruct (normalizeDomain name) as [[|c r]|]; [auto| |auto].
  destruct (limit_rejected l); [auto | discriminate].
Qed.

Lemma addSiteLimit_succeeded (name : option string) (l : JSValue.value) (s : Settings) :
  success (snd (fst (addSiteLimit name l s))) = true ->
  exists d, normalizeDomain name = Some d /\ d <> "" /\ limit_rejected l = false.
Proof.
  unfold addSiteLimit. destruct (normalizeDomain name) as [[|c r]|]; try discriminate.
  destruct (limit_rejected l); [discriminate|].
  intros _. exists (String c r). repeat split. discriminate.
Qed.

Lemma cleanupTab_settings tabId (e : Engine) :
  currentSettings (fst (cleanupTab tabId e)) = currentSettings e.
Proof. unfold cleanupTab. destruct (TrackerMap.has tabId (timeTrackers e)); reflexivity. Qed.

Lemma addSiteTime_nonneg host minutes (st : gmap string Z) :
  0 < minutes -> minutes_nonneg st -> minutes_nonneg (addSiteTime host minutes st).
Proof.
  intros Hm Hst h t. unfold addSiteTime.
  destruct (decide (host = h)) as [->|Hne].
  - rewrite lookup_insert_eq. intros [= <-].
    destruct (st !! h) as [t0|] eqn:Ht0; cbn; [|lia].
    specialize (Hst h t0 Ht0). lia.
  - rewrite lookup_insert_ne by exact Hne. apply Hst.
Qed.

Lemma trackLoop_invariant tabs now entries :
  forall e g st,
    minutes_nonneg st ->
    let r := trackLoop tabs now entries e g st in
    currentSettings (fst (fst (fst r))) = currentSettings e
    /\ minutes_nonneg (snd (fst r)).
Proof.
  induction entries as [|[tabId tracker] rest IH]; intros e g st Hst; [cbn; auto|].
  cbn [trackLoop]. destruct (negb (tab_alive tabs tabId)).
  - destruct (cleanupTab tabId e) as [e1 f1] eqn:Hc.
    specialize (IH e1 g st Hst). cbv zeta in IH.
    destruct (trackLoop tabs now rest e1 g st) as [[[e2 g2] st2] f2].
    cbn in *. split; [|tauto]. destruct IH as [-> _].
    change e1 with (fst (e1, f1)). rewrite <- Hc. apply cleanupTab_settings.
  - destruct (Z.ltb_spec 0 (elapsedMinutes now tracker)) as [Hm|Hm].
    + match goal with |- context [trackLoop _ _ _ ?e' ?g' ?st'] =>
        specialize (IH e' g' st' (addSiteTime_nonneg _ _ _ Hm Hst)) end.
      exact IH.
    + apply IH, Hst.
Qed.

Lemma applyTimeUpdates_ok globalTime siteTimes (s : Settings) :
  minutes_nonneg siteTimes -> own_names s -> store_ok s ->
  store_ok (fst (applyTimeUpdates globalTime siteTimes s)).
Proof.
  intros Hst Hown Hs. unfold store_ok in *. rewrite applyTimeUpdates_siteLimits.
  apply List.Forall_map. rewrite List.Forall_forall in *.
  intros e He. destruct (Hs e He) as (u & l & Hu & Hl & Hb). unfold limit_ok.
  destruct (applySiteTime_fields siteTimes e) as (_ & -> & _).
  destruct (enabled e) eqn:Hen.
  - rewrite (applySiteTime_numbers siteTimes e u l (Hown e He Hen) Hu Hl), Hen.
    eexists _, l. split; [reflexivity|]. split; [exact Hl|].
    destruct (siteTimes !! site e) as [t|] eqn:Ht; [|lia].
    specialize (Hst _ _ Ht). rewrite andb_true_r. destruct (truthyZ t); lia.
  - exists u, l. split; [|auto]. rewrite applySiteTime_used, Hen.
    destruct (siteTimes_get siteTimes (site e)); rewrite ?andb_false_r; exact Hu.
Qed.

Lemma updateTimeUsage_ok tabs now (e : Engine) :
  own_names (currentSettings e) ->
  store_ok (currentSettings e) ->
  store_ok (currentSettings (fst (updateTimeUsage tabs now e))).
Proof.
  intros Hown Hs. unfold updateTimeUsage.
  destruct (isUpdating e || negb (timeRestrictionsEnabled (currentSettings e)));
    [exact Hs|].
  assert (Hempty : minutes_nonneg (∅ : gmap string Z)).
  { intros h t Ht. rewrite lookup_empty in Ht. discriminate. }
  pose proof (trackLoop_invariant tabs now (timeTrackers e) e 0 ∅ Hempty) as Hinv.
  cbv zeta in Hinv.
  destruct (trackLoop tabs now (timeTrackers e) e 0 ∅) as [[[e1 g] st] f1].
  cbn [fst snd] in Hinv. destruct Hinv as [He1 Hst].
  destruct (0 <? g).
  - pose proof (applyTimeUpdates_ok g st (currentSettings e1) Hst) as Hok.
    destruct (applyTimeUpdates g st (currentSettings e1)) as [s2 f2].
    cbn. apply Hok; now rewrite He1.
  - cbn. now rewrite He1.
Qed.

(** C3, as the code has it.  [addSiteLimit] on a site that is already
    stored keeps its [used] and takes the new limit, so a new limit below
    the usage of the day leaves [used > limit]: the bounds
    [0 <= used <= limit] are not kept there. *)
Lemma upsert_breaks_bounds :
  store_ok upsert_sample
  /\ addSiteLimit (Some "x.com") five upsert_sample
     = (set_siteLimits [mkSiteLimit "x.com" (Int 5) (Int 8) true] upsert_sample, ok,
        [StorageSetSettings
           (set_siteLimits [mkSiteLimit "x.com" (Int 5) (Int 8) true] upsert_sample)])
  /\ ~ store_ok (fst (fst (addSiteLimit (Some "x.com") five upsert_sample))).
Proof.
  assert (Hrun : addSiteLimit (Some "x.com") five upsert_sample
     = (set_siteLimits [mkSiteLimit "x.com" (Int 5) (Int 8) true] upsert_sample, ok,
        [StorageSetSettings
           (set_siteLimits [mkSiteLimit "x.com" (Int 5) (Int 8) true] upsert_sample)]))
    by (vm_compute; reflexivity).
  split; [|split].
  - repeat constructor. exists 8, 10. cbn. repeat split; lia.
  - exact Hrun.
  - rewrite Hrun. unfold store_ok. cbn. intros H.
    inversion H as [|? ? (u & l & Hu & Hl & Hb) _]; subst.
    cbn in Hu, Hl. injection Hu as <-. injection Hl as <-. lia.
Qed.

Lemma first_match_find (d : string) (l : list SiteLimit) (i : nat) (e : SiteLimit) :
  l !! i = Some e ->
  normalizeDomain (Some (site e)) = Some d ->
  (forall j e', (j < i)%nat -> l !! j = Some e' -> normalizeDomain (Some (site e')) <> Some d) ->
  list_find (fun e => sameSite (Some d) e = true) l = Some (i, e).
Proof.
  intros Hi He Hfirst. apply list_find_Some. split; [exact Hi|].
  split; [now apply sameSite_spec|].
  intros j y Hj Hlt. rewrite sameSite_spec. now apply (Hfirst j y).
Qed.

Lemma no_match_find (d : string) (l : list SiteLimit) :
  (forall e, In e l -> normalizeDomain (Some (site e)) <> Some d) ->
  list_find (fun e => sameSite (Some d) e = true) l = None.
Proof.
  intros Hno. apply list_find_None, List.Forall_forall.
  intros e He. rewrite sameSite_spec. now apply Hno.
Qed.

(** C3, amended.  Every site limit keeps numbers [0 <= used <= limit]
    under [toggleSiteLimit], [removeSiteLimit], [updateGlobalLimit] and
    the daily rollover; under [applyTimeUpdates] with amounts of time as
    minutes and under a whole reconciliation pass, when no enabled entry
    goes by a name of [Object.prototype]; and under [addSiteLimit] when it
    fails, or when [parseInt(limit)] is a number and the site is new or
    the usage of the entry it replaces is not above that number.
    [addSiteLimit] on a site that is stored replaces the first matching
    entry by the normalized site with the limit [parseInt(limit)], the
    [used] of that entry and [enabled: true]; on a new site it appends
    the entry with [used: 0]. *)
Theorem site_limit_bounds_preserved (s : Settings) :
  (store_ok s ->
   (forall globalTime siteTimes,
       minutes_nonneg siteTimes -> own_names s ->
       store_ok (fst (applyTimeUpdates globalTime siteTimes s)))
   /\ (forall tabs now trackers updating,
          own_names s ->
          store_ok (currentSettings
                      (fst (updateTimeUsage tabs now (mkEngine s trackers updating)))))
   /\ (forall name b, store_ok (fst (fst (toggleSiteLimit name b s))))
   /\ (forall name, store_ok (fst (fst (removeSiteLimit name s))))
   /\ (forall l message, store_ok (fst (fst (updateGlobalLimit l message s))))
   /\ (forall today, store_ok (fst (resetDailyCountersIfNeeded today s)))
   /\ (forall name l,
          (success (snd (fst (addSiteLimit name l s))) = true ->
           exists n,
             JSValue.parseInt l = Int n
             /\ forall i e,
                  siteLimits s !! i = Some e ->
                  normalizeDomain (Some (site e)) = normalizeDomain name ->
                  (forall j e', (j < i)%nat -> siteLimits s !! j = Some e' ->
                                normalizeDomain (Some (site e')) <> normalizeDomain name) ->
                  exists u, used e = Int u /\ u <= n) ->
          store_ok (fst (fst (addSiteLimit name l s)))))
  /\ (forall name l d,
         normalizeDomain name = Some d -> d <> "" -> limit_rejected l = false ->
         (forall i e,
             siteLimits s !! i = Some e ->
             normalizeDomain (Some (site e)) = Some d ->
             (forall j e', (j < i)%nat -> siteLimits s !! j = Some e' ->
                           normalizeDomain (Some (site e')) <> Some d) ->
             siteLimits (fst (fst (addSiteLimit name l s)))
             = <[i := mkSiteLimit d (JSValue.parseInt l) (used e) true]> (siteLimits s))
         /\ ((forall e, In e (siteLimits s) -> normalizeDomain (Some (site e)) <> Some d) ->
             siteLimits (fst (fst (addSiteLimit name l s)))
             = siteLimits s ++ [mkSiteLimit d (JSValue.parseInt l) (Int 0) true])).
Proof.
  split.
  - intros Hs. repeat apply conj.
    + intros. now apply applyTimeUpdates_ok.
    + intros. now apply updateTimeUsage_ok.
    + intros name b. unfold toggleSiteLimit.
      destruct (list_find _ (siteLimits s)) as [[i e]|] eqn:Hfind; [|exact Hs].
      cbn. apply list_find_Some in Hfind as (Hi & _ & _).
      apply Forall_insert; [exact Hs|].
      unfold store_ok in Hs. rewrite List.Forall_forall in Hs.
      apply (Hs e). apply list_elem_of_In. eapply list_elem_of_lookup_2, Hi.
    + intros name. unfold removeSiteLimit.
      assert (Hf : store_ok (set_siteLimits
                 (List.filter (fun e => negb (sameSite (normalizeDomain name) e)) (siteLimits s)) s)).
      { unfold store_ok in *. cbn. rewrite List.Forall_forall in *.
        intros e He. apply filter_In in He as [He _]. now apply Hs. }
      match goal with |- context [if ?c then _ else _] => destruct c end; exact Hf.
    + intros l message. exact Hs.
    + intros today. unfold resetDailyCountersIfNeeded.
      destruct (negb _); [|exact Hs]. unfold store_ok in *. cbn.
      apply List.Forall_map. eapply List.Forall_impl; [|exact Hs].
      intros e (u & l & Hu & Hl & Hb). exists 0, l. cbn. repeat split; [exact Hl | lia | lia].
    + intros name l Hfit.
      destruct (success (snd (fst (addSiteLimit name l s)))) eqn:Hok;
        [|now rewrite (proj1 (addSiteLimit_failed name l s Hok))].
      destruct (addSiteLimit_succeeded name l s Hok) as (d & Hd & Hne & Hrej).
      destruct (Hfit eq_refl) as (n & Hn & Hused).
      destruct (limit_accepted l Hrej) as (_ & _ & [Hnan|(n' & Hn' & Hpos)]); [congruence|].
      assert (n' = n) by congruence. subst n'.
      rewrite (addSiteLimit_ok name l s d Hd Hne Hrej). cbv zeta. cbn [fst].
      rewrite Hn. unfold store_ok. cbn [siteLimits set_siteLimits].
      destruct (list_find _ (siteLimits s)) as [[i e]|] eqn:Hfind.
      * apply list_find_Some in Hfind as (Hi & He & Hfirst).
        apply Forall_insert; [exact Hs|].
        assert (Hin : limit_ok e).
        { unfold store_ok in Hs. rewrite List.Forall_forall in Hs.
          apply Hs, list_elem_of_In. eapply list_elem_of_lookup_2, Hi. }
        destruct Hin as (u & l0 & Hu & Hl0 & Hb).
        destruct (Hused i e Hi) as (u' & Hu' & Hle).
        -- rewrite Hd. now apply sameSite_spec.
        -- intros j e' Hj He'. rewrite Hd, <- sameSite_spec. now apply (Hfirst j e').
        -- assert (u' = u) by congruence. subst u'.
           exists u, n. cbn. repeat split; [exact Hu | lia | lia].
      * apply Forall_app. split; [exact Hs|].
        repeat constructor. exists 0, n. cbn. repeat split; lia.
  - intros name l d Hd Hne Hrej. split.
    + intros i e Hi He Hfirst.
      rewrite (addSiteLimit_ok name l s d Hd Hne Hrej). cbv zeta. cbn [fst siteLimits set_siteLimits].
      now rewrite (first_match_find d (siteLimits s) i e Hi He Hfirst).
    + intros Hno.
      rewrite (addSiteLimit_ok name l s d Hd Hne Hrej). cbv zeta. cbn [fst siteLimits set_siteLimits].
      now rewrite (no_match_find d (siteLimits s) Hno).
Qed.

Lemma site_limit_bounds_preserved_witness :
  store_ok (fst (applyTimeUpdates 3 {[ "x.com" := 3 ]} upsert_sample))
  /\ store_ok (fst (fst (addSiteLimit (Some "x.com") (integer 8) upsert_sample)))
  /\ store_ok (fst (fst (addSiteLimit (Some "y.com") five upsert_sample)))
  /\ store_ok (fst (fst (addSiteLimit (Some "y.com") (integer 0) upsert_sample))).
Proof.
  assert (Hs : store_ok upsert_sample).
  { repeat constructor. exists 8, 10. cbn. repeat split; lia. }
  destruct (proj1 (site_limit_bounds_preserved upsert_sample) Hs)
    as (Happly & _ & _ & _ & _ & _ & Hadd).
  split; [|split; [|split]].
  - apply Happly.
    + intros host t Ht. apply lookup_singleton_Some in Ht. lia.
    + intros e [<-|[]] _. reflexivity.
  - apply Hadd. intros _. exists 8. split; [reflexivity|].
    intros i e Hi _ _.
    destruct i as [|i]; [|destruct i; discriminate].
    injection Hi as <-. exists 8. cbn. split; [reflexivity | lia].
  - apply Hadd. intros _. exists 5. split; [reflexivity|].
    intros i e Hi Hsame _.
    destruct i as [|i]; [|destruct i; discriminate].
    injection Hi as <-. vm_compute in Hsame. discriminate.
  - apply Hadd. intros Hok. vm_compute in Hok. discriminate.
Defined.

(** ** Adding a site limit *)












(** ** The reconciliation pass *)

Module TrackerMapFacts.
Import TrackerMap.

Lemma get_set_eq k v (m : Trackers) : get k (set k v m) = Some v.
Proof.
  induction m as [|[k' w] m IH]; cbn.
  - now rewrite Z.eqb_refl.
  - destruct (Z.eqb_spec k' k) as [->|Hne]; cbn.
    + now rewrite Z.eqb_refl.
    + destruct (Z.eqb_spec k' k); [contradiction | exact IH].
Qed.

Lemma get_set_ne k k' v (m : Trackers) : k <> k' -> get k (set k' v m) = get k m.
Proof.
  intros Hne. induction m as [|[k0 w] m IH]; cbn.
  - destruct (Z.eqb_spec k' k); [congruence | reflexivity].
  - destruct (Z.eqb_spec k0 k') as [->|H0]; cbn.
    + destruct (Z.eqb_spec k' k); [congruence | reflexivity].
    + destruct (Z.eqb_spec k0 k); [reflexivity | exact IH].
Qed.

Lemma get_delete_ne k k' (m : Trackers) : k <> k' -> get k (delete k' m) = get k m.
Proof.
  intros Hne. induction m as [|[k0 w] m IH]; cbn; [reflexivity|].
  destruct (Z.eqb_spec k0 k') as [->|H0]; cbn.
  - destruct (Z.eqb_spec k' k); [congruence | reflexivity].
  - destruct (Z.eqb_spec k0 k); [reflexivity | exact IH].
Qed.

Lemma get_In k v (m : Trackers) :
  List.NoDup (map fst m) -> In (k, v) m -> get k m = Some v.
Proof.
  induction m as [|[k0 w] m IH]; intros Hnd Hin; [destruct Hin|].
  cbn in Hnd. inversion Hnd as [|? ? Hnotin Hnd']; subst.
  cbn. destruct Hin as [Heq|Hin].
  - injection Heq as -> ->. now rewrite Z.eqb_refl.
  - destruct (Z.eqb_spec k0 k) as [->|Hne].
    + exfalso. apply Hnotin. apply in_map_iff. exists (k, v). auto.
    + now apply IH.
Qed.

End TrackerMapFacts.

Lemma cleanupTab_get tabId k (e : Engine) :
  k <> tabId ->
  TrackerMap.get k (timeTrackers (fst (cleanupTab tabId e)))
  = TrackerMap.get k (timeTrackers e).
Proof.
  intros Hne. unfold cleanupTab.
  destruct (TrackerMap.has tabId (timeTrackers e)); cbn; [|reflexivity].
  now apply TrackerMapFacts.get_delete_ne.
Qed.

Section Pass.

Variables (tabs : list Tab) (now : Z).

Lemma elapsed_floor (tracker : Session) :
  let m := elapsedMinutes now tracker in
  60000 * m <= now - startTime tracker < 60000 * (m + 1).
Proof.
  cbv zeta. unfold elapsedMinutes.
  pose proof (Z.div_mod (now - startTime tracker) 60000 ltac:(lia)).
  pose proof (Z.mod_pos_bound (now - startTime tracker) 60000 ltac:(lia)).
  lia.
Qed.

Lemma advance_startTime (tracker : Session) :
  0 < elapsedMinutes now tracker ->
  advance now tracker
  = mkSession (hostname tracker)
              (startTime tracker + elapsedMinutes now tracker * 60000) now.
Proof.
  intros Hm. unfold advance. f_equal.
  pose proof (elapsed_floor tracker) as Hf. cbv zeta in Hf.
  unfold elapsedMinutes in *.
  rewrite Z.rem_mod_nonneg by lia.
  pose proof (Z.div_mod (now - startTime tracker) 60000 ltac:(lia)). lia.
Qed.

(** Keys that the loop does not visit keep their session. *)
Lemma trackLoop_get_other entries :
  forall e g st k,
    ~ In k (map fst entries) ->
    TrackerMap.get k (timeTrackers (fst (fst (fst (trackLoop tabs now entries e g st)))))
    = TrackerMap.get k (timeTrackers e).
Proof.
  induction entries as [|[tabId tracker] rest IH]; intros e g st k Hk; [reflexivity|].
  cbn in Hk. cbn [trackLoop].
  assert (Hne : k <> tabId) by (intros ->; apply Hk; now left).
  assert (Hrest : ~ In k (map fst rest)) by (intros Hin; apply Hk; now right).
  destruct (negb (tab_alive tabs tabId)).
  - destruct (cleanupTab tabId e) as [e1 f1] eqn:Hc.
    specialize (IH e1 g st k Hrest).
    destruct (trackLoop tabs now rest e1 g st) as [[[e2 g2] st2] f2].
    cbn in *. rewrite IH. change e1 with (fst (e1, f1)). rewrite <- Hc.
    now apply cleanupTab_get.
  - destruct (0 <? elapsedMinutes now tracker).
    + rewrite IH by exact Hrest. cbn. now apply TrackerMapFacts.get_set_ne.
    + now apply IH.
Qed.

(** What the loop leaves for a session whose tab is alive. *)
Lemma trackLoop_session entries :
  forall e g st,
    List.NoDup (map fst entries) ->
    (forall k tr, In (k, tr) entries -> TrackerMap.get k (timeTrackers e) = Some tr) ->
    forall k tr,
      In (k, tr) entries ->
      tab_alive tabs k = true ->
      TrackerMap.get k (timeTrackers (fst (fst (fst (trackLoop tabs now entries e g st)))))
      = Some (if 0 <? elapsedMinutes now tr then advance now tr else tr).
Proof.
  induction entries as [|[tabId tracker] rest IH]; intros e g st Hnd Hget k tr Hin Hlive;
    [destruct Hin|].
  cbn in Hnd. inversion Hnd as [|? ? Hnotin Hnd']; subst.
  assert (Hkeys : forall k' tr', In (k', tr') rest -> k' <> tabId).
  { intros k' tr' Hin' ->. apply Hnotin, in_map_iff. exists (tabId, tr'). auto. }
  cbn [trackLoop]. destruct (tab_alive tabs tabId) eqn:Halive; cbn [negb].
  - destruct Hin as [Heq|Hin].
    + injection Heq as -> ->.
      destruct (0 <? elapsedMinutes now tr).
      * rewrite trackLoop_get_other by exact Hnotin. cbn.
        apply TrackerMapFacts.get_set_eq.
      * rewrite trackLoop_get_other by exact Hnotin.
        apply Hget. now left.
    + destruct (0 <? elapsedMinutes now tracker).
      * apply IH; auto. intros k' tr' Hin'. cbn.
        rewrite TrackerMapFacts.get_set_ne by (eapply Hkeys; eauto).
        apply Hget. now right.
      * apply IH; auto. intros k' tr' Hin'. apply Hget. now right.
  - destruct Hin as [Heq|Hin]; [injection Heq as -> ->; congruence|].
    destruct (cleanupTab tabId e) as [e1 f1] eqn:Hc.
    specialize (IH e1 g st Hnd').
    destruct (trackLoop tabs now rest e1 g st) as [[[e2 g2] st2] f2].
    cbn in *. apply IH; auto.
    intros k' tr' Hin'. change e1 with (fst (e1, f1)). rewrite <- Hc.
    rewrite cleanupTab_get by (eapply Hkeys; eauto).
    apply Hget. now right.
Qed.

Lemma addSiteTime_lookup host minutes (st : gmap string Z) h :
  default 0 (addSiteTime host minutes st !! h)
  = default 0 (st !! h) + (if String.eqb host h then minutes else 0).
Proof.
  unfold addSiteTime. destruct (String.eqb_spec host h) as [->|Hne].
  - rewrite lookup_insert_eq. reflexivity.
  - rewrite lookup_insert_ne by exact Hne. lia.
Qed.

Lemma total_minutes_cons kv (m : Trackers) :
  total_minutes now (kv :: m) = elapsedMinutes now (snd kv) + total_minutes now m.
Proof. reflexivity. Qed.

Lemma on_host_cons h kv (m : Trackers) :
  on_host h (kv :: m)
  = if String.eqb (hostname (snd kv)) h then kv :: on_host h m else on_host h m.
Proof. reflexivity. Qed.

(** The totals that the loop hands to [applyTimeUpdates]. *)
Lemma trackLoop_totals entries :
  forall e g st,
    (forall k tr, In (k, tr) entries -> startTime tr <= now) ->
    let r := trackLoop tabs now entries e g st in
    snd (fst (fst r)) = g + total_minutes now (live_sessions tabs entries)
    /\ forall h, default 0 (snd (fst r) !! h)
                 = default 0 (st !! h)
                   + total_minutes now (on_host h (live_sessions tabs entries)).
Proof.
  induction entries as [|[tabId tracker] rest IH]; intros e g st Hstart.
  - cbn. split; [lia | intros; lia].
  - assert (Hrest : forall k tr, In (k, tr) rest -> startTime tr <= now).
    { intros k tr Hin. apply (Hstart k tr). now right. }
    cbn [trackLoop live_sessions List.filter fst].
    fold (live_sessions tabs rest).
    destruct (tab_alive tabs tabId); cbn [negb].
    + assert (H0 : 0 <= elapsedMinutes now tracker).
      { pose proof (elapsed_floor tracker) as Hf. cbv zeta in Hf.
        specialize (Hstart tabId tracker (or_introl eq_refl)). lia. }
      destruct (Z.ltb_spec 0 (elapsedMinutes now tracker)) as [Hm|Hm].
      * match goal with |- context [trackLoop _ _ _ ?e' ?g' ?st'] =>
          specialize (IH e' g' st' Hrest) end.
        cbv zeta in IH |- *. destruct IH as [Hg Hst]. split.
        -- rewrite Hg, total_minutes_cons. cbn [snd]. lia.
        -- intros h. rewrite Hst, addSiteTime_lookup, on_host_cons. cbn [snd].
           destruct (String.eqb (hostname tracker) h);
             rewrite ?total_minutes_cons; cbn [snd]; lia.
      * specialize (IH e g st Hrest). cbv zeta in IH |- *.
        destruct IH as [Hg Hst]. assert (Hz : elapsedMinutes now tracker = 0) by lia.
        split.
        -- rewrite Hg, total_minutes_cons. cbn [snd]. lia.
        -- intros h. rewrite Hst, on_host_cons. cbn [snd].
           destruct (String.eqb (hostname tracker) h);
             rewrite ?total_minutes_cons; cbn [snd]; lia.
    + destruct (cleanupTab tabId e) as [e1 f1].
      specialize (IH e1 g st Hrest). cbv zeta in IH |- *.
      destruct (trackLoop tabs now rest e1 g st) as [[[e2 g2] st2] f2].
      exact IH.
Qed.

End Pass.

Lemma applyTimeUpdates_globalUsed globalTime siteTimes (s : Settings) :
  globalUsed (fst (applyTimeUpdates globalTime siteTimes s))
  = if limit_set (globalDailyLimit s) then globalUsed s + globalTime else globalUsed s.
Proof.
  unfold applyTimeUpdates.
  destruct (limit_set (globalDailyLimit s)); cbn [orb fst]; [reflexivity|].
  match goal with |- context [if ?c then _ else _] => destruct c end; reflexivity.
Qed.

(** One pass over the engine of scenario A, [d] milliseconds after the
    start of its session, when that is between one and two minutes. *)
Lemma scenarioA_pass (start lastSeen d usedBefore : Z) :
  60000 <= d < 120000 ->
  updateTimeUsage scenarioA_tabs (start + d)
    (mkEngine (set_globalUsed usedBefore scenarioA_settings)
              [(1, mkSession "news.com" start lastSeen)] false)
  = (mkEngine (set_globalUsed (usedBefore + 1) scenarioA_settings)
              [(1, mkSession "news.com" (start + 60000) (start + d))] false,
     StorageSetSettings (set_globalUsed (usedBefore + 1) scenarioA_settings)
       :: checkLimits (set_globalUsed (usedBefore + 1) scenarioA_settings)
       ++ [StorageSetSessions [(1, mkSession "news.com" (start + 60000) (start + d))]]).
Proof.
  intros Hd. unfold updateTimeUsage.
  cbn [isUpdating currentSettings timeRestrictionsEnabled scenarioA_settings
       set_globalUsed orb negb timeTrackers trackLoop].
  change (tab_alive scenarioA_tabs 1) with true. cbn [negb].
  assert (Hm : elapsedMinutes (start + d) (mkSession "news.com" start lastSeen) = 1).
  { unfold elapsedMinutes. cbn [startTime].
    replace (start + d - start) with (1 * 60000 + (d - 60000)) by lia.
    rewrite Z.div_add_l by lia. rewrite Z.div_small by lia. reflexivity. }
  rewrite Hm. change (0 <? 1) with true. cbv iota.
  rewrite advance_startTime by (rewrite Hm; lia). rewrite Hm.
  cbn [hostname startTime set_trackers timeTrackers currentSettings TrackerMap.set
       Z.eqb Pos.eqb].
  change (0 + 1) with 1. change (0 <? 1) with true. cbv iota.
  unfold applyTimeUpdates.
  cbn [globalDailyLimit limit_set JSNumber.truthy Z.eqb negb siteLimits map existsb orb
       set_globalUsed timeRestrictionsEnabled warningMessage lastResetDate globalUsed
       set_siteLimits fst snd].
  unfold persistSessions, sessions_object, saveSettings.
  cbn [timeTrackers fold_left TrackerMap.object_set fst snd app].
  replace (start + 1 * 60000) with (start + 60000) by lia.
  reflexivity.
Qed.

(** C4.  In a pass of an engine that is enabled and whose sessions
    started no later than [now], every session whose tab passes the
    liveness probe has [elapsedMinutes = floor((now - startTime) / 60000)]
    computed; with [elapsedMinutes = 0] the session stays as it is, and
    otherwise its [startTime] moves forward by [elapsedMinutes * 60000]
    milliseconds (and [lastUpdate] becomes [now]).  The minutes handed to
    [applyTimeUpdates] are the sum of the [elapsedMinutes] of the live
    sessions, globally and per host name, and a configured global limit
    has [globalUsed] raised by that sum.  In scenario A the pass at
    [t0 + 90 s] raises [globalUsed] to 1 and moves [startTime] to
    [t0 + 60 s], and the pass at [t0 + 150 s] raises it to 2 and moves
    [startTime] to [t0 + 120 s], with no notification. *)
Theorem reconciliation_pass :
  (forall (tabs : list Tab) (now : Z) (e : Engine),
      List.NoDup (map fst (timeTrackers e)) ->
      (forall k tr, In (k, tr) (timeTrackers e) -> startTime tr <= now) ->
      isUpdating e = false ->
      timeRestrictionsEnabled (currentSettings e) = true ->
      let e' := fst (updateTimeUsage tabs now e) in
      let live := live_sessions tabs (timeTrackers e) in
      (forall k tr,
          In (k, tr) (timeTrackers e) ->
          tab_alive tabs k = true ->
          let m := elapsedMinutes now tr in
          60000 * m <= now - startTime tr < 60000 * (m + 1)
          /\ (m = 0 -> TrackerMap.get k (timeTrackers e') = Some tr)
          /\ (m <> 0 ->
              TrackerMap.get k (timeTrackers e')
              = Some (mkSession (hostname tr) (startTime tr + m * 60000) now)))
      /\ (exists siteTimeUpdates : gmap string Z,
             (forall h, default 0 (siteTimeUpdates !! h)
                        = total_minutes now (on_host h live))
             /\ currentSettings e'
                = if 0 <? total_minutes now live
                  then fst (applyTimeUpdates (total_minutes now live) siteTimeUpdates
                              (currentSettings e))
                  else currentSettings e)
      /\ (limit_set (globalDailyLimit (currentSettings e)) = true ->
          globalUsed (currentSettings e')
          = globalUsed (currentSettings e) + total_minutes now live))
  /\ (forall t0 : Z,
         let r1 := updateTimeUsage scenarioA_tabs (t0 + 90000) (scenarioA_engine t0) in
         let r2 := updateTimeUsage scenarioA_tabs (t0 + 150000) (fst r1) in
         globalUsed (currentSettings (fst r1)) = 1
         /\ timeTrackers (fst r1) = [(1, mkSession "news.com" (t0 + 60000) (t0 + 90000))]
         /\ globalUsed (currentSettings (fst r2)) = 2
         /\ timeTrackers (fst r2) = [(1, mkSession "news.com" (t0 + 120000) (t0 + 150000))]
         /\ List.filter is_notification (snd r1 ++ snd r2) = []).
Proof.
  split.
  - intros tabs now e Hnd Hstart Hup Hen. cbv zeta.
    pose proof (trackLoop_session tabs now (timeTrackers e) e 0 ∅ Hnd
                  (fun k tr Hin => TrackerMapFacts.get_In k tr _ Hnd Hin)) as Hsess.
    pose proof (trackLoop_totals tabs now (timeTrackers e) e 0 ∅ Hstart) as Htot.
    assert (Hempty : minutes_nonneg (∅ : gmap string Z)).
    { intros h t Ht. rewrite lookup_empty in Ht. discriminate. }
    pose proof (trackLoop_invariant tabs now (timeTrackers e) e 0 ∅ Hempty) as Hinv.
    cbv zeta in Htot, Hinv.
    unfold updateTimeUsage. rewrite Hup, Hen. cbn [orb negb].
    destruct (trackLoop tabs now (timeTrackers e) e 0 ∅) as [[[e1 g] st] f1].
    cbn [fst snd] in *. destruct Htot as [Hg Hst]. destruct Hinv as [Hset _].
    rewrite Z.add_0_l in Hg. subst g.
    assert (Hs2 : forall (p : Settings * list effect),
               (let '(s2, f2) := p in
                (mkEngine s2 (timeTrackers e1) false,
                 f1 ++ f2 ++ persistSessions (mkEngine s2 (timeTrackers e1) false))).1
               = mkEngine (fst p) (timeTrackers e1) false) by (intros [? ?]; reflexivity).
    rewrite Hs2. cbn [timeTrackers currentSettings]. repeat apply conj.
    + intros k tr Hin Hlive. split; [apply elapsed_floor|].
      specialize (Hsess k tr Hin Hlive).
      pose proof (elapsed_floor now tr) as Hf. cbv zeta in Hf.
      specialize (Hstart k tr Hin). split.
      * intros Hm. rewrite Hsess, Hm. reflexivity.
      * intros Hm. rewrite Hsess.
        destruct (Z.ltb_spec 0 (elapsedMinutes now tr)) as [Hpos|Hneg]; [|lia].
        now rewrite advance_startTime.
    + exists st. split.
      * intros h. rewrite Hst, lookup_empty. cbn. lia.
      * rewrite Hset. destruct (0 <? _); reflexivity.
    + intros Hlim. rewrite Hset.
      destruct (Z.ltb_spec 0 (total_minutes now (live_sessions tabs (timeTrackers e))))
        as [Hpos|Hzero]; cbn [fst].
      * now rewrite applyTimeUpdates_globalUsed, Hlim.
      * assert (0 <= total_minutes now (live_sessions tabs (timeTrackers e))); [|lia].
        unfold live_sessions.
        assert (Hall : forall k tr, In (k, tr) (List.filter (fun kv => tab_alive tabs kv.1)
                                                  (timeTrackers e)) -> startTime tr <= now).
        { intros k tr Hin. apply filter_In in Hin as [Hin _]. eauto. }
        revert Hall. generalize (List.filter (fun kv => tab_alive tabs kv.1) (timeTrackers e)).
        intros l Hl. induction l as [|[k tr] l IH]; [cbn; lia|].
        rewrite total_minutes_cons. cbn [snd].
        pose proof (elapsed_floor now tr) as Hf. cbv zeta in Hf.
        pose proof (Hl k tr (or_introl eq_refl)).
        assert (0 <= total_minutes now l) by (apply IH; intros; eapply Hl; right; eauto).
        lia.
  - intros t0. cbv zeta.
    change (scenarioA_engine t0)
      with (mkEngine (set_globalUsed 0 scenarioA_settings)
                     [(1, mkSession "news.com" t0 t0)] false).
    rewrite (scenarioA_pass t0 t0 90000 0) by lia. cbn [fst snd].
    replace (t0 + 150000) with (t0 + 60000 + 90000) by lia.
    rewrite (scenarioA_pass (t0 + 60000) (t0 + 90000) 90000 (0 + 1)) by lia.
    cbn [fst snd currentSettings timeTrackers globalUsed set_globalUsed].
    repeat apply conj; try reflexivity.
    replace (t0 + 60000 + 60000) with (t0 + 120000) by lia. reflexivity.
Qed.

Lemma reconciliation_pass_witness :
  let e' := fst (updateTimeUsage scenarioA_tabs 190000 (scenarioA_engine 100000)) in
  TrackerMap.get 1 (timeTrackers e') = Some (mkSession "news.com" 160000 190000)
  /\ globalUsed (currentSettings e') = 1.
Proof.
  assert (Hnd : List.NoDup (map fst (timeTrackers (scenarioA_engine 100000)))).
  { repeat constructor. intros []. }
  assert (Hstart : forall k tr, In (k, tr) (timeTrackers (scenarioA_engine 100000)) ->
                                startTime tr <= 190000).
  { intros k tr [[= <- <-]|[]]. cbn. lia. }
  destruct (proj1 reconciliation_pass scenarioA_tabs 190000 (scenarioA_engine 100000)
              Hnd Hstart eq_refl eq_refl) as (Hsess & _ & Hglobal).
  cbv zeta. split.
  - destruct (Hsess 1 (mkSession "news.com" 100000 100000) (or_introl eq_refl) eq_refl)
      as (_ & _ & Hmove).
    apply Hmove. vm_compute. discriminate.
  - rewrite (Hglobal eq_refl). vm_compute. reflexivity.
Defined.

(** ** Tracking is off without a global limit *)










(** ** Restart *)

Lemma handleTabUpdate_started (tab : Tab) (now : Z) (e : Engine) url host :
  tab_url tab = Some url ->
  isTrackableUrl url = true ->
  url_hostname url = Some host ->
  started_at now (tab_id tab) (fst (handleTabUpdate (tab_id tab) tab now e)).
Proof.
  intros Hurl Htr Hhost. unfold handleTabUpdate, tab_trackable.
  rewrite Hurl, Htr, Hhost. unfold started_at. cbn [negb fst timeTrackers set_trackers].
  eexists. split; [apply TrackerMapFacts.get_set_eq | reflexivity].
Qed.

Lemma handleTabUpdate_keeps_started (tab : Tab) (now k : Z) (e : Engine) :
  tab_trackable tab = true ->
  started_at now k e ->
  started_at now k (fst (handleTabUpdate (tab_id tab) tab now e)).
Proof.
  intros Htr (s & Hs & Hnow). unfold handleTabUpdate. rewrite Htr. cbn [negb].
  unfold tab_trackable in Htr. destruct (tab_url tab) as [url|]; [|discriminate].
  destruct (url_hostname url) as [host|]; [|exists s; auto].
  unfold started_at. cbn [fst timeTrackers set_trackers].
  destruct (Z.eq_dec k (tab_id tab)) as [->|Hne].
  - eexists. split; [apply TrackerMapFacts.get_set_eq | reflexivity].
  - exists s. split; [|exact Hnow].
    rewrite TrackerMapFacts.get_set_ne by exact Hne. exact Hs.
Qed.

Lemma startTimeTracking_keeps_started (tabs : list Tab) (now k : Z) :
  forall e, started_at now k e -> started_at now k (fst (startTimeTracking tabs now e)).
Proof.
  induction tabs as [|tab rest IH]; intros e He; [exact He|].
  cbn [startTimeTracking]. destruct (tab_trackable tab) eqn:Htr; [|now apply IH].
  pose proof (handleTabUpdate_keeps_started tab now k e Htr He) as H1.
  destruct (handleTabUpdate (tab_id tab) tab now e) as [e1 f1].
  specialize (IH e1 H1). destruct (startTimeTracking rest now e1) as [e2 f2].
  exact IH.
Qed.

(** Start-up gives every open tab with a trackable, well-formed URL a
    session that starts at the time of the start-up, whatever session was
    restored for it. *)
Lemma startTimeTracking_restarts (tabs : list Tab) (now : Z) (tab : Tab) url host :
  In tab tabs ->
  tab_url tab = Some url ->
  isTrackableUrl url = true ->
  url_hostname url = Some host ->
  forall e, started_at now (tab_id tab) (fst (startTimeTracking tabs now e)).
Proof.
  intros Hin Hurl Htr Hhost.
  assert (Htab : tab_trackable tab = true) by (unfold tab_trackable; now rewrite Hurl).
  induction tabs as [|t rest IH]; [destruct Hin|]. intros e.
  cbn [startTimeTracking]. destruct Hin as [->|Hin].
  - rewrite Htab.
    pose proof (handleTabUpdate_started tab now e url host Hurl Htr Hhost) as H1.
    destruct (handleTabUpdate (tab_id tab) tab now e) as [e1 f1].
    pose proof (startTimeTracking_keeps_started rest now (tab_id tab) e1 H1) as H2.
    destruct (startTimeTracking rest now e1) as [e2 f2]. exact H2.
  - destruct (tab_trackable t); [|now apply IH].
    destruct (handleTabUpdate (tab_id t) t now e) as [e1 f1].
    specialize (IH Hin e1). destruct (startTimeTracking rest now e1) as [e2 f2].
    exact IH.
Qed.

Lemma init_restarts (data : Stored) (today : string) (tabs : list Tab) (now : Z)
    (tab : Tab) url host :
  In tab tabs ->
  tab_url tab = Some url ->
  isTrackableUrl url = true ->
  url_hostname url = Some host ->
  started_at now (tab_id tab) (fst (init data today tabs now)).
Proof.
  intros Hin Hurl Htr Hhost. unfold init.
  destruct (loadSettings data today) as [e0 f0].
  pose proof (startTimeTracking_restarts tabs now tab url host Hin Hurl Htr Hhost e0) as H.
  destruct (startTimeTracking tabs now e0) as [e1 f1]. exact H.
Qed.

(** C1, on the code.  [loadSettings] restores the persisted session of
    tab 1 as it was stored, but [init] goes on to [startTimeTracking],
    which runs [handleTabUpdate] on every open trackable tab and so
    replaces the session by one that starts at the restart.  The pass one
    minute after the restart counts 1 minute; counted from the persisted
    [startTime] it would be 6. *)
Theorem restart_resets_startTime :
  let today := "Mon Nov 02 2026" in
  let restored := fst (loadSettings restart_stored today) in
  let started := fst (init restart_stored today restart_tabs 1300000) in
  TrackerMap.get 1 (timeTrackers restored) = Some (mkSession "a.com" 1000000 1000000)
  /\ TrackerMap.get 1 (timeTrackers started) = Some (mkSession "a.com" 1300000 1300000)
  /\ globalUsed (currentSettings (fst (updateTimeUsage restart_tabs 1360000 started))) = 1
  /\ globalUsed (currentSettings (fst (updateTimeUsage restart_tabs 1360000 restored))) = 6.
Proof. cbv zeta. repeat apply conj; vm_compute; reflexivity. Qed.

(** * Further properties of the engine *)

(** ** Trackable URLs and normalized domains *)

Lemma startsWith_cons (a c : ascii) (p r : string) :
  JSString.startsWith (String a p) (String c r)
  = Ascii.eqb a c && JSString.startsWith p r.
Proof. reflexivity. Qed.

(** X1.  A URL is trackable exactly when it starts with [http://] or
    [https://]: the tests for the empty string and for the [chrome://],
    [chrome-extension://] and [about:] prefixes never decide. *)
Theorem isTrackableUrl_iff (url : string) :
  isTrackableUrl url = true
  <-> JSString.startsWith "http://" url = true
      \/ JSString.startsWith "https://" url = true.
Proof.
  unfold isTrackableUrl. destruct url as [|c r]; [cbn; intuition discriminate|].
  rewrite !startsWith_cons. cbn [JSString.truthy andb].
  rewrite <- orb_true_iff.
  destruct (Ascii.eqb_spec "h" c) as [<-|Hh]; [reflexivity|].
  cbn [andb orb]. rewrite andb_false_r. reflexivity.
Qed.

Section CharacterFacts.

Variable p : ascii -> bool.

Lemma all_chars_drop (n : nat) (s : string) :
  all_chars p s = true -> all_chars p (JSString.drop n s) = true.
Proof.
  revert s. induction n as [|n IH]; intros s Hs; [exact Hs|].
  destruct s as [|c r]; [reflexivity|]. cbn in Hs |- *.
  apply andb_true_iff in Hs as [_ Hr]. now apply IH.
Qed.

Lemma all_chars_firstField (d : ascii) (s : string) :
  all_chars p s = true -> all_chars p (JSString.firstField d s) = true.
Proof.
  induction s as [|c r IH]; intros Hs; [reflexivity|]. cbn in Hs |- *.
  apply andb_true_iff in Hs as [Hc Hr].
  destruct (Ascii.eqb c d); [reflexivity|]. cbn. now rewrite Hc, IH.
Qed.

Lemma all_chars_trimStart (s : string) :
  all_chars p s = true -> all_chars p (JSString.trimStart s) = true.
Proof.
  induction s as [|c r IH]; intros Hs; [reflexivity|]. cbn [JSString.trimStart].
  destruct (JSString.is_space c); [|exact Hs].
  cbn in Hs. apply andb_true_iff in Hs as [_ Hr]. now apply IH.
Qed.

Lemma all_chars_trimEnd (s : string) :
  all_chars p s = true -> all_chars p (JSString.trimEnd s) = true.
Proof.
  induction s as [|c r IH]; intros Hs; [reflexivity|]. cbn in Hs.
  apply andb_true_iff in Hs as [Hc Hr]. specialize (IH Hr).
  cbn [JSString.trimEnd]. destruct (JSString.trimEnd r) as [|c' r'].
  - destruct (JSString.is_space c); [reflexivity|]. cbn. now rewrite Hc.
  - cbn [all_chars] in IH |- *. rewrite Hc. exact IH.
Qed.

Lemma all_chars_removePrefix (q s : string) :
  all_chars p s = true -> all_chars p (JSString.removePrefix q s) = true.
Proof.
  intros Hs. unfold JSString.removePrefix.
  destruct (JSString.startsWith q s); [now apply all_chars_drop | exact Hs].
Qed.

End CharacterFacts.

Lemma toLowerCase_no_upper (s : string) :
  all_chars (fun c => negb (is_upper c)) (JSString.toLowerCase s) = true.
Proof.
  induction s as [|c r IH]; [reflexivity|]. cbn [JSString.toLowerCase all_chars].
  rewrite IH, andb_true_r. clear IH r.
  destruct c as [[] [] [] [] [] [] [] []]; vm_compute; reflexivity.
Qed.

Lemma firstField_cut (d : ascii) (s : string) :
  JSString.contains d (JSString.firstField d s) = false.
Proof.
  induction s as [|c r IH]; [reflexivity|]. cbn [JSString.firstField].
  destruct (Ascii.eqb c d) eqn:Hc; [reflexivity|]. cbn. now rewrite Hc, IH.
Qed.

Lemma contains_all_chars (d : ascii) (s : string) :
  JSString.contains d s = false <-> all_chars (fun c => negb (Ascii.eqb c d)) s = true.
Proof.
  induction s as [|c r IH]; [cbn; tauto|]. cbn.
  rewrite orb_false_iff, andb_true_iff, negb_true_iff, IH. reflexivity.
Qed.

(** X2.  [normalizeDomain] answers [null] exactly for an argument that is
    not a string; the domain it returns for a string has no upper-case
    ASCII letter, no [/] and no [:]. *)
Theorem normalizeDomain_shape (domain : option string) :
  (normalizeDomain domain = None <-> domain = None)
  /\ (forall d, normalizeDomain domain = Some d ->
                all_chars (fun c => negb (is_upper c)) d = true
                /\ JSString.contains "/" d = false
                /\ JSString.contains ":" d = false).
Proof.
  destruct domain as [s|]; cbn [normalizeDomain]; (split; [split; congruence|]);
    [|discriminate].
  intros d [= <-]. split; [|split].
  - apply all_chars_firstField, all_chars_firstField, all_chars_removePrefix.
    unfold removeScheme.
    assert (Hl : all_chars (fun c => negb (is_upper c))
                   (JSString.trim (JSString.toLowerCase s)) = true).
    { apply all_chars_trimEnd, all_chars_trimStart, toLowerCase_no_upper. }
    destruct (JSString.startsWith "http://" _); [now apply all_chars_drop|].
    destruct (JSString.startsWith "https://" _); [now apply all_chars_drop | exact Hl].
  - apply contains_all_chars, all_chars_firstField, contains_all_chars, firstField_cut.
  - apply firstField_cut.
Qed.

Lemma normalizeDomain_shape_witness :
  normalizeDomain (Some "HTTPS://WWW.Example.com:443/a") = Some "example.com"
  /\ all_chars (fun c => negb (is_upper c)) "example.com" = true
  /\ JSString.contains "/" "example.com" = false
  /\ JSString.contains ":" "example.com" = false.
Proof.
  assert (Hn : normalizeDomain (Some "HTTPS://WWW.Example.com:443/a") = Some "example.com")
    by (vm_compute; reflexivity).
  split; [exact Hn|].
  exact (proj2 (normalizeDomain_shape (Some "HTTPS://WWW.Example.com:443/a")) _ Hn).
Defined.

(** ** The session registry *)

Module TrackerMapKeys.
Import TrackerMap.

Lemma keys_set_in k v (m : Trackers) x :
  In x (map fst (set k v m)) -> x = k \/ In x (map fst m).
Proof.
  induction m as [|[k0 w] m IH]; cbn.
  - intros [<-|[]]. now left.
  - destruct (Z.eqb_spec k0 k) as [->|Hne]; cbn; [tauto|].
    intros [<-|Hin]; [tauto|]. destruct (IH Hin); tauto.
Qed.

Lemma keys_set_distinct k v (m : Trackers) :
  List.NoDup (map fst m) -> List.NoDup (map fst (set k v m)).
Proof.
  induction m as [|[k0 w] m IH]; cbn; intros Hnd.
  - repeat constructor. intros [].
  - inversion Hnd as [|? ? Hnotin Hnd']; subst.
    destruct (Z.eqb_spec k0 k) as [->|Hne]; cbn; [exact Hnd|].
    constructor; [|now apply IH].
    intros Hin. apply keys_set_in in Hin as [->|Hin]; [congruence | contradiction].
Qed.

Lemma keys_delete_in k (m : Trackers) x :
  In x (map fst (delete k m)) -> In x (map fst m).
Proof.
  induction m as [|[k0 w] m IH]; cbn; [tauto|].
  destruct (Z.eqb_spec k0 k) as [->|Hne]; cbn; [tauto|].
  intros [<-|Hin]; [tauto|]. right. now apply IH.
Qed.

Lemma keys_delete_distinct k (m : Trackers) :
  List.NoDup (map fst m) -> List.NoDup (map fst (delete k m)).
Proof.
  induction m as [|[k0 w] m IH]; cbn; intros Hnd; [constructor|].
  inversion Hnd as [|? ? Hnotin Hnd']; subst.
  destruct (Z.eqb_spec k0 k) as [->|Hne]; cbn; [exact Hnd'|].
  constructor; [|now apply IH].
  intros Hin. now apply keys_delete_in in Hin.
Qed.

Lemma get_delete_eq k (m : Trackers) :
  List.NoDup (map fst m) -> get k (delete k m) = None.
Proof.
  induction m as [|[k0 w] m IH]; cbn; intros Hnd; [reflexivity|].
  inversion Hnd as [|? ? Hnotin Hnd']; subst.
  destruct (Z.eqb_spec k0 k) as [->|Hne].
  - destruct (get k m) as [v|] eqn:Hget; [|reflexivity].
    exfalso. apply Hnotin. clear -Hget.
    induction m as [|[k1 w1] m IH]; [discriminate|]. cbn in *.
    destruct (Z.eqb_spec k1 k) as [->|Hne]; [now left | right; now apply IH].
  - cbn. destruct (Z.eqb_spec k0 k); [contradiction | now apply IH].
Qed.

Lemma get_None_notin k (m : Trackers) :
  get k m = None <-> ~ In k (map fst m).
Proof.
  induction m as [|[k0 w] m IH]; cbn; [tauto|].
  destruct (Z.eqb_spec k0 k) as [->|Hne].
  - split; [discriminate | tauto].
  - rewrite IH. tauto.
Qed.

Lemma get_Some_in k v (m : Trackers) : get k m = Some v -> In (k, v) m.
Proof.
  induction m as [|[k0 w] m IH]; cbn; [discriminate|].
  destruct (Z.eqb_spec k0 k) as [->|Hne].
  - intros [= ->]. now left.
  - intros Hget. right. now apply IH.
Qed.

End TrackerMapKeys.

Lemma cleanupTab_distinct tabId (e : Engine) :
  keys_distinct e -> keys_distinct (fst (cleanupTab tabId e)).
Proof.
  unfold keys_distinct, cleanupTab. intros Hnd.
  destruct (TrackerMap.has tabId (timeTrackers e)); cbn; [|exact Hnd].
  now apply TrackerMapKeys.keys_delete_distinct.
Qed.

Lemma handleTabUpdate_distinct tabId tab now (e : Engine) :
  keys_distinct e -> keys_distinct (fst (handleTabUpdate tabId tab now e)).
Proof.
  intros Hnd. unfold handleTabUpdate.
  destruct (negb (tab_trackable tab)); [now apply cleanupTab_distinct|].
  destruct (tab_url tab) as [url|]; [|now apply cleanupTab_distinct].
  destruct (url_hostname url); [|exact Hnd].
  unfold keys_distinct. cbn. now apply TrackerMapKeys.keys_set_distinct.
Qed.

Lemma trackLoop_distinct tabs now entries :
  forall e g st,
    keys_distinct e ->
    keys_distinct (fst (fst (fst (trackLoop tabs now entries e g st)))).
Proof.
  induction entries as [|[tabId tracker] rest IH]; intros e g st Hnd; [exact Hnd|].
  cbn [trackLoop]. destruct (negb (tab_alive tabs tabId)).
  - pose proof (cleanupTab_distinct tabId e Hnd) as H1.
    destruct (cleanupTab tabId e) as [e1 f1]. specialize (IH e1 g st H1).
    destruct (trackLoop tabs now rest e1 g st) as [[[e2 g2] st2] f2]. exact IH.
  - destruct (0 <? elapsedMinutes now tracker); [|now apply IH].
    apply IH. unfold keys_distinct. cbn. now apply TrackerMapKeys.keys_set_distinct.
Qed.

Lemma updateTimeUsage_trackers tabs now (e : Engine) :
  isUpdating e = false ->
  timeRestrictionsEnabled (currentSettings e) = true ->
  timeTrackers (fst (updateTimeUsage tabs now e))
  = timeTrackers (fst (fst (fst (trackLoop tabs now (timeTrackers e) e 0 ∅)))).
Proof.
  intros Hup Hen. unfold updateTimeUsage. rewrite Hup, Hen. cbn [orb negb].
  destruct (trackLoop tabs now (timeTrackers e) e 0 ∅) as [[[e1 g] st] f1].
  destruct (0 <? g); [destruct (applyTimeUpdates _ _ _)|]; reflexivity.
Qed.

Lemma updateTimeUsage_distinct tabs now (e : Engine) :
  keys_distinct e -> keys_distinct (fst (updateTimeUsage tabs now e)).
Proof.
  intros Hnd.
  destruct (isUpdating e) eqn:Hup; [unfold updateTimeUsage; now rewrite Hup|].
  destruct (timeRestrictionsEnabled (currentSettings e)) eqn:Hen;
    [|unfold updateTimeUsage; now rewrite Hup, Hen].
  unfold keys_distinct. rewrite updateTimeUsage_trackers by assumption.
  now apply trackLoop_distinct.
Qed.

Lemma step_distinct (ev : event) (e : Engine) :
  keys_distinct e -> keys_distinct (fst (step ev e)).
Proof.
  intros Hnd. destruct ev as [tab now|tab now|tabId|tabs now|r]; cbn [step].
  - destruct (tab_trackable tab); [now apply handleTabUpdate_distinct | exact Hnd].
  - destruct (tab_trackable tab); [now apply handleTabUpdate_distinct | exact Hnd].
  - now apply cleanupTab_distinct.
  - now apply updateTimeUsage_distinct.
  - destruct (handleTimeMessage r (currentSettings e)) as [[s resp] f]. exact Hnd.
Qed.

Lemma startTimeTracking_distinct tabs now :
  forall e, keys_distinct e -> keys_distinct (fst (startTimeTracking tabs now e)).
Proof.
  induction tabs as [|tab rest IH]; intros e Hnd; [exact Hnd|].
  cbn [startTimeTracking]. destruct (tab_trackable tab); [|now apply IH].
  pose proof (handleTabUpdate_distinct (tab_id tab) tab now e Hnd) as H1.
  destruct (handleTabUpdate (tab_id tab) tab now e) as [e1 f1].
  specialize (IH e1 H1). destruct (startTimeTracking rest now e1) as [e2 f2]. exact IH.
Qed.

Lemma restore_distinct (l : list (Z * Session)) :
  forall m : Trackers,
    List.NoDup (map fst m) ->
    List.NoDup (map fst (fold_left (fun m kv => TrackerMap.set (fst kv) (snd kv) m) l m)).
Proof.
  induction l as [|[k v] l IH]; intros m Hnd; [exact Hnd|].
  cbn [fold_left]. apply IH. now apply TrackerMapKeys.keys_set_distinct.
Qed.

(** X3.  The registry never holds two sessions for one tab: the engine
    that [init] builds has pairwise distinct tab identifiers, whatever
    was stored and whatever tabs are open, and every tab event, pass and
    request keeps them distinct. *)
Theorem registry_keys_distinct :
  (forall data today tabs now, keys_distinct (fst (init data today tabs now)))
  /\ (forall evs e, keys_distinct e -> keys_distinct (fst (run evs e))).
Proof.
  split.
  - intros data today tabs now. unfold init.
    assert (H0 : keys_distinct (fst (loadSettings data today))).
    { unfold loadSettings.
      destruct (resetDailyCountersIfNeeded today (stored_settings data)) as [s f].
      unfold keys_distinct. cbn. apply restore_distinct. constructor. }
    destruct (loadSettings data today) as [e0 f0].
    pose proof (startTimeTracking_distinct tabs now e0 H0) as H1.
    destruct (startTimeTracking tabs now e0) as [e1 f1]. exact H1.
  - intros evs. induction evs as [|ev evs IH]; intros e Hnd; [exact Hnd|].
    cbn [run]. pose proof (step_distinct ev e Hnd) as H1.
    destruct (step ev e) as [e1 f1]. specialize (IH e1 H1).
    destruct (run evs e1) as [e2 f2]. exact IH.
Qed.

Lemma registry_keys_distinct_witness :
  keys_distinct
    (fst (run [TabUpdated (mkTab 1 (Some "https://a.com/")) 2000;
               TabUpdated (mkTab 1 (Some "https://b.com/")) 3000;
               Tick restart_tabs 70000]
              (fst (init restart_stored "Mon Nov 02 2026" restart_tabs 1000)))).
Proof.
  apply (proj2 registry_keys_distinct).
  apply (proj1 registry_keys_distinct).
Defined.

(** X4.  A tab event ([onUpdated] with status [complete], or
    [onActivated]) for a tab on a trackable URL with a host replaces the
    session of that tab by a fresh one (the host without a leading
    [www.], started at [now]), leaves the sessions of all other tabs as
    they are, and writes the registry to storage once.  An event for a tab
    that is on no trackable URL changes nothing and writes nothing: the
    session of that tab, if it has one, stays until a pass drops it. *)
Theorem tab_event_upserts (tab : Tab) (now : Z) (e : Engine) :
  let r := step (TabUpdated tab now) e in
  step (TabActivated tab now) e = r
  /\ (forall url host,
         tab_url tab = Some url ->
         isTrackableUrl url = true ->
         url_hostname url = Some host ->
         TrackerMap.get (tab_id tab) (timeTrackers (fst r))
         = Some (mkSession (JSString.removePrefix "www." host) now now)
         /\ (forall k, k <> tab_id tab ->
                       TrackerMap.get k (timeTrackers (fst r))
                       = TrackerMap.get k (timeTrackers e))
         /\ currentSettings (fst r) = currentSettings e
         /\ snd r = [StorageSetSessions (sessions_object (timeTrackers (fst r)))])
  /\ (tab_trackable tab = false -> r = (e, [])).
Proof.
  cbv zeta. split; [reflexivity|]. split.
  - intros url host Hurl Htr Hhost. cbn [step]. unfold tab_trackable, handleTabUpdate.
    unfold tab_trackable. rewrite Hurl, Htr, Hhost. cbn [negb fst snd timeTrackers set_trackers].
    split; [apply TrackerMapFacts.get_set_eq|].
    split; [intros k Hk; now apply TrackerMapFacts.get_set_ne|].
    split; reflexivity.
  - intros Hno. cbn [step]. now rewrite Hno.
Qed.

Lemma tab_event_upserts_witness :
  let r := step (TabUpdated (mkTab 7 (Some "https://www.News.com/world")) 5000)
                (scenarioA_engine 1000) in
  TrackerMap.get 7 (timeTrackers (fst r)) = Some (mkSession "news.com" 5000 5000)
  /\ TrackerMap.get 1 (timeTrackers (fst r)) = Some (mkSession "news.com" 1000 1000)
  /\ step (TabUpdated (mkTab 1 (Some "chrome://settings")) 5000) (scenarioA_engine 1000)
     = (scenarioA_engine 1000, []).
Proof.
  destruct (tab_event_upserts (mkTab 7 (Some "https://www.News.com/world")) 5000
              (scenarioA_engine 1000)) as (_ & Hup & _).
  destruct (Hup "https://www.News.com/world" "www.news.com" eq_refl eq_refl eq_refl)
    as (Hnew & Hother & _).
  cbv zeta. split; [exact Hnew|]. split.
  - rewrite Hother by discriminate. reflexivity.
  - apply (tab_event_upserts (mkTab 1 (Some "chrome://settings")) 5000 (scenarioA_engine 1000)).
    reflexivity.
Defined.

(** X5.  When a tab closes, its session is gone afterwards and every
    other session stays.  For a tab that had a session the registry is
    written to storage once; for a tab without one nothing changes and
    nothing is written. *)
Theorem tab_removed_cleans (tabId : Z) (e : Engine) :
  keys_distinct e ->
  let r := step (TabRemoved tabId) e in
  TrackerMap.get tabId (timeTrackers (fst r)) = None
  /\ (forall k, k <> tabId ->
                TrackerMap.get k (timeTrackers (fst r)) = TrackerMap.get k (timeTrackers e))
  /\ (TrackerMap.get tabId (timeTrackers e) = None -> r = (e, []))
  /\ (TrackerMap.get tabId (timeTrackers e) <> None ->
      snd r = [StorageSetSessions (sessions_object (timeTrackers (fst r)))]).
Proof.
  intros Hnd. cbv zeta. cbn [step].
  split; [|split; [|split]].
  - unfold cleanupTab, TrackerMap.has.
    destruct (TrackerMap.get tabId (timeTrackers e)) eqn:Hget; cbn; [|exact Hget].
    now apply TrackerMapKeys.get_delete_eq.
  - intros k Hk. now apply cleanupTab_get.
  - intros Hget. unfold cleanupTab, TrackerMap.has. now rewrite Hget.
  - intros Hget. unfold cleanupTab, TrackerMap.has.
    destruct (TrackerMap.get tabId (timeTrackers e)); [reflexivity | congruence].
Qed.

Lemma tab_removed_cleans_witness :
  TrackerMap.get 1 (timeTrackers (fst (step (TabRemoved 1) (scenarioA_engine 1000)))) = None
  /\ step (TabRemoved 2) (scenarioA_engine 1000) = (scenarioA_engine 1000, []).
Proof.
  assert (Hnd : keys_distinct (scenarioA_engine 1000)).
  { unfold keys_distinct. cbn. repeat constructor. intros []. }
  split.
  - exact (proj1 (tab_removed_cleans 1 (scenarioA_engine 1000) Hnd)).
  - apply (tab_removed_cleans 2 (scenarioA_engine 1000) Hnd). reflexivity.
Defined.

(** ** Persisting and restoring sessions *)

Module SessionsObject.
Import TrackerMap.

Lemma get_object_set_eq k v (o : list (Z * Session)) :
  get k (object_set k v o) = Some v.
Proof.
  induction o as [|[k0 w] o IH]; cbn.
  - now rewrite Z.eqb_refl.
  - destruct (Z.ltb_spec k k0) as [Hlt|Hge]; cbn; [now rewrite Z.eqb_refl|].
    destruct (Z.eqb_spec k k0) as [<-|Hne]; cbn; [now rewrite Z.eqb_refl|].
    destruct (Z.eqb_spec k0 k); [congruence | exact IH].
Qed.

Lemma get_object_set_ne k k' v (o : list (Z * Session)) :
  k <> k' -> get k (object_set k' v o) = get k o.
Proof.
  intros Hne. induction o as [|[k0 w] o IH]; cbn.
  - destruct (Z.eqb_spec k' k); [congruence | reflexivity].
  - destruct (Z.ltb_spec k' k0) as [Hlt|Hge]; cbn.
    + destruct (Z.eqb_spec k' k); [congruence | reflexivity].
    + destruct (Z.eqb_spec k' k0) as [<-|Hne0]; cbn.
      * destruct (Z.eqb_spec k' k); [congruence | reflexivity].
      * destruct (Z.eqb_spec k0 k); [reflexivity | exact IH].
Qed.

Lemma keys_object_set_in k v (o : list (Z * Session)) x :
  In x (map fst (object_set k v o)) -> x = k \/ In x (map fst o).
Proof.
  induction o as [|[k0 w] o IH]; cbn.
  - intros [<-|[]]. now left.
  - destruct (k <? k0); cbn; [intros [<-|H]; auto|].
    destruct (Z.eqb_spec k k0) as [<-|Hne]; cbn; [intros [<-|H]; auto|].
    intros [<-|Hin]; [tauto|]. destruct (IH Hin); tauto.
Qed.

Lemma object_set_ascending k v (o : list (Z * Session)) :
  ascending (map fst o) -> ascending (map fst (object_set k v o)).
Proof.
  induction o as [|[k0 w] o IH]; cbn [object_set map fst ascending].
  - intros _. split; [constructor | exact I].
  - intros [Hall Hasc].
    destruct (Z.ltb_spec k k0) as [Hlt|Hge]; cbn [map fst ascending].
    + split; [|split; assumption].
      constructor; [exact Hlt|].
      eapply List.Forall_impl; [|exact Hall]. cbn. intros; lia.
    + destruct (Z.eqb_spec k k0) as [<-|Hne]; cbn [map fst ascending];
        [split; assumption|].
      split; [|now apply IH].
      apply List.Forall_forall. intros x Hx.
      apply keys_object_set_in in Hx as [->|Hx]; [lia|].
      rewrite List.Forall_forall in Hall. now apply Hall.
Qed.

Lemma ascending_distinct (l : list Z) : ascending l -> List.NoDup l.
Proof.
  induction l as [|a l IH]; cbn; intros H; [constructor|].
  destruct H as [Hall Hasc]. constructor; [|now apply IH].
  intros Hin. rewrite List.Forall_forall in Hall. specialize (Hall a Hin). lia.
Qed.

Lemma sessions_object_ascending (m : Trackers) :
  ascending (map fst (sessions_object m)).
Proof.
  unfold sessions_object.
  assert (H : forall o, ascending (map fst o) ->
                        ascending (map fst (fold_left
                          (fun o kv => object_set (fst kv) (snd kv) o) m o))).
  { induction m as [|[k v] m IH]; intros o Ho; [exact Ho|].
    cbn [fold_left]. apply IH. now apply object_set_ascending. }
  apply H. exact I.
Qed.

Lemma get_sessions_object k (m : Trackers) :
  List.NoDup (map fst m) -> get k (sessions_object m) = get k m.
Proof.
  unfold sessions_object.
  assert (H : forall o, List.NoDup (map fst m) ->
                get k (fold_left (fun o kv => object_set (fst kv) (snd kv) o) m o)
                = match get k m with Some v => Some v | None => get k o end).
  { induction m as [|[k0 v0] m IH]; intros o Hnd; [reflexivity|].
    cbn in Hnd. inversion Hnd as [|? ? Hnotin Hnd']; subst.
    cbn [fold_left fst snd get]. rewrite IH by exact Hnd'.
    destruct (Z.eqb_spec k0 k) as [->|Hne].
    - apply TrackerMapKeys.get_None_notin in Hnotin. rewrite Hnotin.
      apply get_object_set_eq.
    - destruct (get k m); [reflexivity|]. apply get_object_set_ne. congruence. }
  intros Hnd. rewrite H by exact Hnd. now destruct (get k m).
Qed.

Lemma get_restore k (l : list (Z * Session)) :
  List.NoDup (map fst l) ->
  get k (fold_left (fun m kv => set (fst kv) (snd kv) m) l []) = get k l.
Proof.
  assert (H : forall m, List.NoDup (map fst l) ->
                get k (fold_left (fun m kv => set (fst kv) (snd kv) m) l m)
                = match get k l with Some v => Some v | None => get k m end).
  { induction l as [|[k0 v0] l IH]; intros m Hnd; [reflexivity|].
    cbn in Hnd. inversion Hnd as [|? ? Hnotin Hnd']; subst.
    cbn [fold_left fst snd get]. rewrite IH by exact Hnd'.
    destruct (Z.eqb_spec k0 k) as [->|Hne].
    - apply TrackerMapKeys.get_None_notin in Hnotin. rewrite Hnotin.
      apply TrackerMapFacts.get_set_eq.
    - destruct (get k l); [reflexivity|]. apply TrackerMapFacts.get_set_ne. congruence. }
  intros Hnd. rewrite H by exact Hnd. now destruct (get k l).
Qed.

End SessionsObject.

(** X6.  Persisting and restoring is a round trip on the registry: the
    object that [persistSessions] writes lists the sessions by ascending
    tab identifier, and [loadSettings] on storage holding that object
    rebuilds a registry in which every tab has the session it had. *)
Theorem sessions_round_trip (e : Engine) (s : Settings) (today : string) :
  keys_distinct e ->
  exists object,
    persistSessions e = [StorageSetSessions object]
    /\ ascending (map fst object)
    /\ forall k,
         TrackerMap.get k (timeTrackers (fst (loadSettings (mkStored s object) today)))
         = TrackerMap.get k (timeTrackers e).
Proof.
  intros Hnd. exists (sessions_object (timeTrackers e)).
  split; [reflexivity|]. split; [apply SessionsObject.sessions_object_ascending|].
  intros k. unfold loadSettings. cbn [stored_sessions stored_settings].
  destruct (resetDailyCountersIfNeeded today s) as [s' f]. cbn [fst timeTrackers].
  rewrite SessionsObject.get_restore.
  - now apply SessionsObject.get_sessions_object.
  - apply SessionsObject.ascending_distinct, SessionsObject.sessions_object_ascending.
Qed.

Lemma sessions_round_trip_witness :
  let e := mkEngine scenarioA_settings
             [(9, mkSession "b.org" 20 20); (4, mkSession "a.com" 10 10)] false in
  persistSessions e
  = [StorageSetSessions [(4, mkSession "a.com" 10 10); (9, mkSession "b.org" 20 20)]]
  /\ TrackerMap.get 9
       (timeTrackers (fst (loadSettings
          (mkStored scenarioA_settings
             [(4, mkSession "a.com" 10 10); (9, mkSession "b.org" 20 20)])
          "Mon Nov 02 2026")))
     = Some (mkSession "b.org" 20 20).
Proof.
  cbv zeta.
  assert (Hnd : keys_distinct (mkEngine scenarioA_settings
             [(9, mkSession "b.org" 20 20); (4, mkSession "a.com" 10 10)] false)).
  { unfold keys_distinct. cbn. repeat constructor; cbn; intuition discriminate. }
  destruct (sessions_round_trip _ scenarioA_settings "Mon Nov 02 2026" Hnd)
    as (object & Hp & _ & Hget).
  assert (Hobj : object = [(4, mkSession "a.com" 10 10); (9, mkSession "b.org" 20 20)]).
  { cbv in Hp. now injection Hp as <-. }
  subst object. split; [exact Hp|]. rewrite Hget. reflexivity.
Defined.

(** ** Housekeeping of a pass *)

Lemma cleanupTab_gone tabId (e : Engine) :
  keys_distinct e -> TrackerMap.get tabId (timeTrackers (fst (cleanupTab tabId e))) = None.
Proof.
  intros Hnd. unfold cleanupTab, TrackerMap.has.
  destruct (TrackerMap.get tabId (timeTrackers e)) eqn:Hget; cbn; [|exact Hget].
  now apply TrackerMapKeys.get_delete_eq.
Qed.

Lemma trackLoop_dead tabs now entries :
  forall e g st k,
    keys_distinct e ->
    List.NoDup (map fst entries) ->
    In k (map fst entries) ->
    tab_alive tabs k = false ->
    TrackerMap.get k (timeTrackers (fst (fst (fst (trackLoop tabs now entries e g st))))) = None.
Proof.
  induction entries as [|[tabId tracker] rest IH]; intros e g st k He Hnd Hin Hdead;
    [destruct Hin|].
  cbn in Hnd, Hin. inversion Hnd as [|? ? Hnotin Hnd']; subst.
  cbn [trackLoop]. destruct (tab_alive tabs tabId) eqn:Halive; cbn [negb].
  - assert (Hk : In k (map fst rest)) by (destruct Hin as [->|]; [congruence | assumption]).
    destruct (0 <? elapsedMinutes now tracker); [|now apply IH].
    apply IH; auto. unfold keys_distinct. cbn.
    now apply TrackerMapKeys.keys_set_distinct.
  - pose proof (cleanupTab_distinct tabId e He) as H1.
    pose proof (cleanupTab_gone tabId e He) as Hgone.
    destruct (cleanupTab tabId e) as [e1 f1]. cbn [fst] in *.
    destruct (Z.eq_dec tabId k) as [->|Hne].
    + pose proof (trackLoop_get_other tabs now rest e1 g st k Hnotin) as Hother.
      destruct (trackLoop tabs now rest e1 g st) as [[[e2 g2] st2] f2].
      cbn [fst] in *. now rewrite Hother.
    + assert (Hk : In k (map fst rest)) by (destruct Hin; [contradiction | assumption]).
      specialize (IH e1 g st k H1 Hnd' Hk Hdead).
      destruct (trackLoop tabs now rest e1 g st) as [[[e2 g2] st2] f2]. exact IH.
Qed.

Lemma cleanupTab_calls tabId (e : Engine) :
  List.filter is_redirect (snd (cleanupTab tabId e)) = [].
Proof. unfold cleanupTab. destruct (TrackerMap.has tabId (timeTrackers e)); reflexivity. Qed.

Lemma trackLoop_calls tabs now entries :
  forall e g st,
    List.filter is_redirect (snd (trackLoop tabs now entries e g st)) = [].
Proof.
  induction entries as [|[tabId tracker] rest IH]; intros e g st; [reflexivity|].
  cbn [trackLoop]. destruct (negb (tab_alive tabs tabId)).
  - pose proof (cleanupTab_calls tabId e) as H1.
    destruct (cleanupTab tabId e) as [e1 f1]. specialize (IH e1 g st).
    destruct (trackLoop tabs now rest e1 g st) as [[[e2 g2] st2] f2].
    cbn [snd] in *. now rewrite List.filter_app, H1, IH.
  - destruct (0 <? elapsedMinutes now tracker); apply IH.
Qed.

Lemma checkLimits_calls (s : Settings) : List.filter is_redirect (checkLimits s) = [].
Proof.
  unfold checkLimits. induction (checkLimits_warnings s) as [|w l IH]; [reflexivity|].
  cbn [flat_map]. rewrite List.filter_app, IH. destruct w; reflexivity.
Qed.

Lemma applyTimeUpdates_no_redirect globalTime siteTimes (s : Settings) :
  List.filter is_redirect (snd (applyTimeUpdates globalTime siteTimes s)) = [].
Proof.
  destruct (proj1 (applyTimeUpdates_calls globalTime siteTimes s)) as [->| ->];
    [reflexivity|].
  cbn [List.filter is_redirect]. apply checkLimits_calls.
Qed.

Lemma updateTimeUsage_effects tabs now (e : Engine) :
  isUpdating e = false ->
  timeRestrictionsEnabled (currentSettings e) = true ->
  exists f,
    snd (updateTimeUsage tabs now e)
    = f ++ [StorageSetSessions
              (sessions_object (timeTrackers (fst (updateTimeUsage tabs now e))))]
    /\ List.filter is_redirect (snd (updateTimeUsage tabs now e)) = []
    /\ isUpdating (fst (updateTimeUsage tabs now e)) = false.
Proof.
  intros Hup Hen. unfold updateTimeUsage. rewrite Hup, Hen. cbn [orb negb].
  pose proof (trackLoop_calls tabs now (timeTrackers e) e 0 ∅) as Hloop.
  destruct (trackLoop tabs now (timeTrackers e) e 0 ∅) as [[[e1 g] st] f1].
  cbn [snd] in Hloop.
  destruct (0 <? g).
  - pose proof (applyTimeUpdates_no_redirect g st (currentSettings e1)) as Happly.
    destruct (applyTimeUpdates g st (currentSettings e1)) as [s2 f2].
    cbn [fst snd timeTrackers isUpdating] in *.
    exists (f1 ++ f2). split; [|split; [|reflexivity]].
    + unfold persistSessions. cbn [timeTrackers]. now rewrite <- app_assoc.
    + now rewrite !List.filter_app, Hloop, Happly.
  - cbn [fst snd timeTrackers isUpdating].
    exists f1. split; [reflexivity|]. split; [|reflexivity].
    now rewrite List.filter_app, Hloop.
Qed.

(** X7.  A pass that finds [isUpdating] set returns at once.  Otherwise,
    in an enabled engine, the pass removes every session whose tab fails
    the liveness probe, creates no session, leaves each surviving session
    either as it was or advanced by its whole minutes, and ends with
    [isUpdating] cleared.  The last call that the pass makes is the write
    of the registry to storage, and the pass itself redirects no tab: the
    redirects of a global intervention are made by the callback of its
    query of the tabs, in a later task. *)
Theorem pass_housekeeping (tabs : list Tab) (now : Z) (e : Engine) :
  (isUpdating e = true -> updateTimeUsage tabs now e = (e, []))
  /\ (keys_distinct e ->
      isUpdating e = false ->
      timeRestrictionsEnabled (currentSettings e) = true ->
      let r := updateTimeUsage tabs now e in
      isUpdating (fst r) = false
      /\ (forall k, tab_alive tabs k = false ->
                    TrackerMap.get k (timeTrackers (fst r)) = None)
      /\ (forall k tr,
             TrackerMap.get k (timeTrackers (fst r)) = Some tr ->
             tab_alive tabs k = true
             /\ exists tr0, TrackerMap.get k (timeTrackers e) = Some tr0
                            /\ tr = reconciled now tr0)
      /\ (exists f,
             snd r = f ++ [StorageSetSessions (sessions_object (timeTrackers (fst r)))])
      /\ List.filter is_redirect (snd r) = []).
Proof.
  split.
  - intros Hup. unfold updateTimeUsage. now rewrite Hup.
  - intros Hnd Hup Hen. cbv zeta.
    destruct (updateTimeUsage_effects tabs now e Hup Hen) as (f & Hf & Hred & Hdone).
    assert (Hdead : forall k, tab_alive tabs k = false ->
              TrackerMap.get k (timeTrackers (fst (updateTimeUsage tabs now e))) = None).
    { intros k Hk. rewrite updateTimeUsage_trackers by assumption.
      destruct (TrackerMap.get k (timeTrackers e)) as [tr0|] eqn:Hget.
      - apply trackLoop_dead; auto.
        apply in_map_iff. exists (k, tr0). split; [reflexivity|].
        now apply TrackerMapKeys.get_Some_in.
      - rewrite trackLoop_get_other; [exact Hget|].
        now apply TrackerMapKeys.get_None_notin. }
    split; [exact Hdone|]. split; [exact Hdead|]. split; [|split; [eauto | exact Hred]].
    intros k tr Hget.
    destruct (tab_alive tabs k) eqn:Halive;
      [|rewrite (Hdead k Halive) in Hget; discriminate].
    split; [reflexivity|].
    rewrite updateTimeUsage_trackers in Hget by assumption.
    destruct (TrackerMap.get k (timeTrackers e)) as [tr0|] eqn:Hget0.
    + exists tr0. split; [reflexivity|].
      pose proof (trackLoop_session tabs now (timeTrackers e) e 0 ∅ Hnd
                    (fun k tr Hin => TrackerMapFacts.get_In k tr _ Hnd Hin)
                    k tr0 (TrackerMapKeys.get_Some_in _ _ _ Hget0) Halive) as Hs.
      rewrite Hs in Hget. injection Hget as <-. reflexivity.
    + rewrite trackLoop_get_other in Hget; [congruence|].
      now apply TrackerMapKeys.get_None_notin.
Qed.

Lemma pass_housekeeping_witness :
  TrackerMap.get 1 (timeTrackers (fst (updateTimeUsage [] 200000 (scenarioA_engine 100000))))
  = None
  /\ updateTimeUsage scenarioA_tabs 200000
       (mkEngine scenarioA_settings [(1, mkSession "news.com" 100000 100000)] true)
     = (mkEngine scenarioA_settings [(1, mkSession "news.com" 100000 100000)] true, [])
  /\ List.filter is_redirect
       (snd (updateTimeUsage scenarioA_tabs 200000
               (mkEngine (set_globalUsed 29 breach_sample)
                         [(1, mkSession "news.com" 100000 100000)] false))) = []
  /\ snd (updateTimeUsage scenarioA_tabs 200000
            (mkEngine (set_globalUsed 29 breach_sample)
                      [(1, mkSession "news.com" 100000 100000)] false))
     = [StorageSetSettings
          (set_siteLimits [mkSiteLimit "news.com" (Int 20) (Int 4) true;
                           mkSiteLimit "shop.com" (Int 5) (Int 5) true;
                           mkSiteLimit "play.com" (Int 1) (Int 1) true]
                          (set_globalUsed 30 breach_sample));
        NotificationCreate "Bulwark Time Limit" "Stop." 2;
        TabsQuery blockTabs;
        StorageSetSessions [(1, mkSession "news.com" 160000 200000)]].
Proof.
  assert (Hnd : keys_distinct (scenarioA_engine 100000)).
  { unfold keys_distinct. cbn. repeat constructor. intros []. }
  split; [|split; [|split]].
  - apply (proj2 (pass_housekeeping [] 200000 (scenarioA_engine 100000)) Hnd eq_refl eq_refl).
    reflexivity.
  - apply (proj1 (pass_housekeeping scenarioA_tabs 200000 _)). reflexivity.
  - apply (proj2 (pass_housekeeping scenarioA_tabs 200000
                    (mkEngine (set_globalUsed 29 breach_sample)
                              [(1, mkSession "news.com" 100000 100000)] false))).
    + unfold keys_distinct. cbn. repeat constructor. intros [].
    + reflexivity.
    + reflexivity.
  - vm_compute. reflexivity.
Defined.

(** ** Counting over several passes *)

Lemma reconciled_startTime (now : Z) (tr : Session) :
  startTime tr <= now ->
  hostname (reconciled now tr) = hostname tr
  /\ startTime (reconciled now tr) = startTime tr + 60000 * elapsedMinutes now tr
  /\ 0 <= now - startTime (reconciled now tr) < 60000.
Proof.
  intros Hstart. pose proof (elapsed_floor now tr) as Hf. cbv zeta in Hf.
  unfold reconciled. destruct (Z.ltb_spec 0 (elapsedMinutes now tr)) as [Hpos|Hz].
  - rewrite advance_startTime by exact Hpos. cbn. repeat split; lia.
  - assert (elapsedMinutes now tr = 0) by lia. repeat split; lia.
Qed.

Lemma applyTimeUpdates_flag globalTime siteTimes (s : Settings) :
  timeRestrictionsEnabled (fst (applyTimeUpdates globalTime siteTimes s))
  = timeRestrictionsEnabled s.
Proof.
  unfold applyTimeUpdates.
  destruct (limit_set (globalDailyLimit s));
    match goal with |- context [if ?c then (_, _) else (_, _)] => destruct c end;
    reflexivity.
Qed.

Lemma updateTimeUsage_flag tabs now (e : Engine) :
  timeRestrictionsEnabled (currentSettings (fst (updateTimeUsage tabs now e)))
  = timeRestrictionsEnabled (currentSettings e).
Proof.
  unfold updateTimeUsage.
  destruct (isUpdating e || negb (timeRestrictionsEnabled (currentSettings e)));
    [reflexivity|].
  assert (Hempty : minutes_nonneg (∅ : gmap string Z)).
  { intros h t Ht. rewrite lookup_empty in Ht. discriminate. }
  pose proof (trackLoop_invariant tabs now (timeTrackers e) e 0 ∅ Hempty) as [Hs _].
  destruct (trackLoop tabs now (timeTrackers e) e 0 ∅) as [[[e1 g] st] f1].
  cbn [fst] in Hs. destruct (0 <? g).
  - pose proof (applyTimeUpdates_flag g st (currentSettings e1)) as Hfl.
    destruct (applyTimeUpdates g st (currentSettings e1)) as [s2 f2].
    cbn in *. now rewrite Hfl, Hs.
  - cbn. now rewrite Hs.
Qed.

(** X9.  Minutes are counted once.  For a session that is live in two
    successive passes, at [now1] and then at [now2], the minutes counted
    by the first pass and by the second add up to the whole minutes
    between the start of the session and [now2]; after the second pass the
    session starts that many minutes later than it did, and less than a
    minute before [now2]. *)
Theorem minutes_counted_once
    (tabs1 tabs2 : list Tab) (now1 now2 : Z) (e : Engine) (k : Z) (tr : Session) :
  keys_distinct e ->
  isUpdating e = false ->
  timeRestrictionsEnabled (currentSettings e) = true ->
  In (k, tr) (timeTrackers e) ->
  tab_alive tabs1 k = true ->
  tab_alive tabs2 k = true ->
  startTime tr <= now1 <= now2 ->
  let e1 := fst (updateTimeUsage tabs1 now1 e) in
  let e2 := fst (updateTimeUsage tabs2 now2 e1) in
  exists tr1 tr2,
    TrackerMap.get k (timeTrackers e1) = Some tr1
    /\ TrackerMap.get k (timeTrackers e2) = Some tr2
    /\ elapsedMinutes now1 tr + elapsedMinutes now2 tr1 = elapsedMinutes now2 tr
    /\ hostname tr2 = hostname tr
    /\ startTime tr2 = startTime tr + 60000 * elapsedMinutes now2 tr
    /\ 0 <= now2 - startTime tr2 < 60000.
Proof.
  intros Hnd Hup Hen Hin Hl1 Hl2 [Hs1 Hs2]. cbv zeta.
  assert (Hget1 : TrackerMap.get k (timeTrackers (fst (updateTimeUsage tabs1 now1 e)))
                  = Some (reconciled now1 tr)).
  { rewrite updateTimeUsage_trackers by assumption.
    apply (trackLoop_session tabs1 now1 (timeTrackers e) e 0 ∅ Hnd
             (fun k tr Hin => TrackerMapFacts.get_In k tr _ Hnd Hin) k tr Hin Hl1). }
  destruct (updateTimeUsage_effects tabs1 now1 e Hup Hen) as (f & _ & _ & Hup1).
  pose proof (updateTimeUsage_flag tabs1 now1 e) as Hen1. rewrite Hen in Hen1.
  pose proof (updateTimeUsage_distinct tabs1 now1 e Hnd) as Hnd1.
  set (e1 := fst (updateTimeUsage tabs1 now1 e)) in *.
  assert (Hget2 : TrackerMap.get k (timeTrackers (fst (updateTimeUsage tabs2 now2 e1)))
                  = Some (reconciled now2 (reconciled now1 tr))).
  { rewrite updateTimeUsage_trackers by assumption.
    apply (trackLoop_session tabs2 now2 (timeTrackers e1) e1 0 ∅ Hnd1
             (fun k tr Hin => TrackerMapFacts.get_In k tr _ Hnd1 Hin)); [|exact Hl2].
    now apply TrackerMapKeys.get_Some_in. }
  exists (reconciled now1 tr), (reconciled now2 (reconciled now1 tr)).
  split; [exact Hget1|]. split; [exact Hget2|].
  destruct (reconciled_startTime now1 tr Hs1) as (Hh1 & Hst1 & Hr1).
  destruct (reconciled_startTime now2 (reconciled now1 tr) ltac:(lia)) as (Hh2 & Hst2 & Hr2).
  assert (Hsum : elapsedMinutes now1 tr + elapsedMinutes now2 (reconciled now1 tr)
                 = elapsedMinutes now2 tr).
  { unfold elapsedMinutes at 2 3. rewrite Hst1.
    replace (now2 - (startTime tr + 60000 * elapsedMinutes now1 tr))
      with (now2 - startTime tr + (- elapsedMinutes now1 tr) * 60000) by lia.
    rewrite Z.div_add by lia. lia. }
  split; [exact Hsum|]. split; [congruence|]. split; [|exact Hr2].
  rewrite Hst2, Hst1. lia.
Qed.

Lemma minutes_counted_once_witness :
  let e1 := fst (updateTimeUsage scenarioA_tabs 190000 (scenarioA_engine 100000)) in
  let e2 := fst (updateTimeUsage scenarioA_tabs 250000 e1) in
  exists tr1 tr2,
    TrackerMap.get 1 (timeTrackers e1) = Some tr1
    /\ TrackerMap.get 1 (timeTrackers e2) = Some tr2
    /\ elapsedMinutes 190000 (mkSession "news.com" 100000 100000)
       + elapsedMinutes 250000 tr1 = 2
    /\ startTime tr2 = 220000.
Proof.
  assert (Hnd : keys_distinct (scenarioA_engine 100000)).
  { unfold keys_distinct. cbn. repeat constructor. intros []. }
  destruct (minutes_counted_once scenarioA_tabs scenarioA_tabs 190000 250000
              (scenarioA_engine 100000) 1 (mkSession "news.com" 100000 100000)
              Hnd eq_refl eq_refl (or_introl eq_refl) eq_refl eq_refl
              ltac:(cbn; lia))
    as (tr1 & tr2 & H1 & H2 & Hsum & _ & Hst & _).
  exists tr1, tr2. split; [exact H1|]. split; [exact H2|].
  split; [rewrite Hsum | rewrite Hst]; vm_compute; reflexivity.
Defined.

(** ** Saving and warning *)

Lemma applySiteTime_flagged (siteTimes : gmap string Z) (e : SiteLimit) :
  used e <> NaN ->
  snd (applySiteTime siteTimes e) = true -> fst (applySiteTime siteTimes e) <> e.
Proof.
  intros Hnum. unfold applySiteTime.
  destruct (siteTimes_get siteTimes (site e)) as [|t|]; [discriminate| |].
  - destruct (truthyZ t && enabled e); [|discriminate].
    destruct (JSNumber.strict_eq _ _) eqn:Heq; cbn; [discriminate|].
    intros _ Hsame. apply (f_equal used) in Hsame. cbn in Hsame.
    rewrite Hsame in Heq. destruct (used e) as [|u]; [congruence|].
    cbn in Heq. now rewrite Z.eqb_refl in Heq.
  - destruct (enabled e); [|discriminate]. cbn.
    intros _ Hsame. apply (f_equal used) in Hsame. cbn in Hsame. congruence.
Qed.

(** X8.  [applyTimeUpdates] with non-zero global minutes, on settings in
    which no enabled site limit has [used] equal to [NaN], writes the
    settings exactly when it changed them: if nothing changed (no global
    limit is set, and no enabled site limit took minutes or goes by a
    name of [Object.prototype]) there is no call into the browser at all,
    and otherwise the first call saves the new settings.  An enabled
    entry whose [used] is [NaN] makes it save whenever the entry has
    non-zero minutes or goes by such a name, although the entry stays as
    it is. *)
Theorem applyTimeUpdates_saves_iff_changed
    (globalTime : Z) (siteTimes : gmap string Z) (s : Settings) :
  globalTime <> 0 ->
  let r := applyTimeUpdates globalTime siteTimes s in
  ((forall e, In e (siteLimits s) -> enabled e = true -> used e <> NaN) ->
   (snd r = [] <-> fst r = s)
   /\ (fst r <> s -> exists f, snd r = StorageSetSettings (fst r) :: f))
  /\ (forall i e,
        siteLimits s !! i = Some e -> enabled e = true -> used e = NaN ->
        inherited (site e) = true
        \/ (exists t, siteTimes !! site e = Some t /\ t <> 0) ->
        siteLimits (fst r) !! i = Some e
        /\ exists f, snd r = StorageSetSettings (fst r) :: f).
Proof.
  intros Hg. cbv zeta. split.
  - intros Hnum. unfold applyTimeUpdates.
    destruct (limit_set (globalDailyLimit s)) eqn:Hlim; cbn [orb fst snd].
    + split.
      * split; [discriminate|]. intros Hsame. exfalso.
        apply (f_equal globalUsed) in Hsame. cbn in Hsame. lia.
      * intros _. eexists. reflexivity.
    + destruct (existsb snd (map (applySiteTime siteTimes) (siteLimits s))) eqn:Hex;
        cbn [fst snd].
      * split; [|intros _; eexists; reflexivity].
        split; [discriminate|]. intros Hsame. exfalso.
        apply existsb_exists in Hex as (x & Hx & Hflag).
        apply in_map_iff in Hx as (e & <- & He).
        apply (f_equal siteLimits) in Hsame. cbn in Hsame.
        rewrite map_map in Hsame. rewrite <- (map_id (siteLimits s)) in Hsame at 2.
        pose proof (proj1 (@List.map_ext_in_iff _ _ _ _ _) Hsame e He) as Hfix.
        cbn in Hfix. revert Hfix. apply applySiteTime_flagged; [|exact Hflag].
        apply Hnum; [exact He|].
        revert Hflag. unfold applySiteTime.
        destruct (siteTimes_get siteTimes (site e)) as [|t|]; [discriminate| |].
        -- destruct (enabled e); [reflexivity|]. now rewrite andb_false_r.
        -- destruct (enabled e); [reflexivity | discriminate].
      * assert (Hsame : set_siteLimits (map fst (map (applySiteTime siteTimes) (siteLimits s))) s
                        = s).
        { rewrite <- (set_siteLimits_id s) at 3. f_equal.
          rewrite map_map. rewrite <- (map_id (siteLimits s)) at 2.
          apply map_ext_in. intros e He. apply applySiteTime_unflagged.
          destruct (snd (applySiteTime siteTimes e)) eqn:Hflag; [|reflexivity].
          exfalso. rewrite <- not_true_iff_false in Hex. apply Hex.
          apply existsb_exists. exists (applySiteTime siteTimes e).
          split; [now apply in_map | exact Hflag]. }
        rewrite Hsame. split; [tauto | congruence].
  - intros i e Hi Hen Hnan Htakes.
    assert (Hflag : snd (applySiteTime siteTimes e) = true
                    /\ fst (applySiteTime siteTimes e) = e).
    { unfold applySiteTime, siteTimes_get.
      destruct Htakes as [Hinh|(t & Ht & Ht0)].
      - rewrite Hinh, Hen. split; [reflexivity|]. destruct e; cbn in *. now subst.
      - destruct (inherited (site e)).
        + rewrite Hen. split; [reflexivity|]. destruct e; cbn in *. now subst.
        + rewrite Ht, Hen. unfold truthyZ. destruct (Z.eqb_spec t 0); [contradiction|].
          cbn [negb andb]. rewrite Hnan. cbn. split; [reflexivity|].
          destruct e; cbn in *. now subst. }
    destruct Hflag as [Hflag Hsame].
    split; [rewrite (applyTimeUpdates_entry _ _ _ _ _ Hi); now rewrite Hsame|].
    unfold applyTimeUpdates.
    assert (Hex : existsb snd (map (applySiteTime siteTimes)
                                   (siteLimits (if limit_set (globalDailyLimit s)
                                                then set_globalUsed (globalUsed s + globalTime) s
                                                else s))) = true).
    { apply existsb_exists. exists (applySiteTime siteTimes e). split; [|exact Hflag].
      apply in_map. destruct (limit_set (globalDailyLimit s)); cbn [siteLimits set_globalUsed];
        apply list_elem_of_In; eapply list_elem_of_lookup_2, Hi. }
    rewrite Hex, orb_true_r. cbn [fst snd]. eexists. reflexivity.
Qed.

Lemma applyTimeUpdates_saves_iff_changed_witness :
  snd (applyTimeUpdates 2 {[ "shop.com" := 2 ]} upsert_sample) = []
  /\ (exists f, snd (applyTimeUpdates 2 {[ "x.com" := 2 ]} upsert_sample)
                = StorageSetSettings (fst (applyTimeUpdates 2 {[ "x.com" := 2 ]} upsert_sample))
                  :: f)
  /\ fst (applyTimeUpdates 2 {[ "x.com" := 2 ]}
            (set_siteLimits [mkSiteLimit "x.com" (Int 10) NaN true] upsert_sample))
     = set_siteLimits [mkSiteLimit "x.com" (Int 10) NaN true] upsert_sample
  /\ exists f, snd (applyTimeUpdates 2 {[ "x.com" := 2 ]}
                     (set_siteLimits [mkSiteLimit "x.com" (Int 10) NaN true] upsert_sample))
               = StorageSetSettings
                   (fst (applyTimeUpdates 2 {[ "x.com" := 2 ]}
                           (set_siteLimits [mkSiteLimit "x.com" (Int 10) NaN true]
                                           upsert_sample)))
                 :: f.
Proof.
  assert (Hnum : forall e, In e (siteLimits upsert_sample) -> enabled e = true -> used e <> NaN).
  { intros e [<-|[]] _. discriminate. }
  split; [|split; [|split]].
  - apply (proj1 (applyTimeUpdates_saves_iff_changed 2 {[ "shop.com" := 2 ]} upsert_sample
                    ltac:(lia)) Hnum).
    vm_compute. reflexivity.
  - apply (proj1 (applyTimeUpdates_saves_iff_changed 2 {[ "x.com" := 2 ]} upsert_sample
                    ltac:(lia)) Hnum).
    intros Hsame. apply (f_equal (fun s => map used (siteLimits s))) in Hsame.
    vm_compute in Hsame. discriminate.
  - vm_compute. reflexivity.
  - apply (proj2 (applyTimeUpdates_saves_iff_changed 2 {[ "x.com" := 2 ]}
                    (set_siteLimits [mkSiteLimit "x.com" (Int 10) NaN true] upsert_sample)
                    ltac:(lia)) 0%nat (mkSiteLimit "x.com" (Int 10) NaN true));
      try reflexivity.
    right. exists 2. split; [reflexivity | lia].
Defined.

(** X10.  After the rollover of a new day nothing is in breach: when
    every site limit that is a number is positive and the global limit,
    if it is a number, is not negative, the limit evaluation on the
    settings that the rollover leaves calls for no warning and makes no
    call into the browser. *)
Theorem rollover_clears_breaches (today : string) (s : Settings) :
  lastResetDate s <> today ->
  (forall e l, In e (siteLimits s) -> limit e = Int l -> 0 < l) ->
  (forall n, globalDailyLimit s = Some (Int n) -> 0 <= n) ->
  let s' := fst (resetDailyCountersIfNeeded today s) in
  checkLimits_warnings s' = [] /\ checkLimits s' = [].
Proof.
  intros Hday Hsites Hglobal. cbv zeta.
  rewrite (reset_new_day today s Hday). cbn [fst].
  assert (Hw : checkLimits_warnings
                 (mkSettings (timeRestrictionsEnabled s) (globalDailyLimit s) 0
                    (warningMessage s) (map (set_used (Int 0)) (siteLimits s)) today) = []).
  { unfold checkLimits_warnings.
    match goal with |- context [globalBreach ?x] => destruct (globalBreach x) eqn:Hg end.
    - exfalso. apply globalBreach_spec in Hg as (n & Hn & Hn0 & Hle).
      cbn in Hn, Hle. specialize (Hglobal n Hn). lia.
    - cbn [siteLimits]. apply checkSiteLimits_none.
      intros e He [_ (u & l & Hu & Hl & Hle)]. apply in_map_iff in He as (e0 & <- & He0).
      cbn in Hu, Hl. injection Hu as <-. specialize (Hsites e0 l He0 Hl). lia. }
  split; [exact Hw|]. unfold checkLimits. now rewrite Hw.
Qed.

Lemma rollover_clears_breaches_witness :
  checkLimits_warnings breach_sample = [WarnGlobal]
  /\ checkLimits_warnings (fst (resetDailyCountersIfNeeded "Tue Nov 03 2026" breach_sample))
     = [].
Proof.
  split; [reflexivity|].
  apply (rollover_clears_breaches "Tue Nov 03 2026" breach_sample).
  - vm_compute. congruence.
  - intros e l [<-|[<-|[<-|[]]]] [= <-]; lia.
  - intros n [= <-]. lia.
Defined.

(** X13.  A breach stays a breach while usage is applied.  Once
    [globalUsed] has reached the global limit, every later
    [applyTimeUpdates] with non-negative minutes saves and then runs the
    global intervention again, the notification and the query that blocks
    the tabs; and a site limit that is enabled with [used >= limit] is
    still so afterwards, unless it goes by a name of [Object.prototype]:
    then its [used] is [NaN] afterwards and it is in breach no more. *)
Theorem breach_persists
    (globalTime : Z) (siteTimes : gmap string Z) (s : Settings) :
  let r := applyTimeUpdates globalTime siteTimes s in
  (global_breached s -> 0 <= globalTime ->
   global_breached (fst r)
   /\ snd r = StorageSetSettings (fst r) :: showWarning WarnGlobal (fst r))
  /\ (minutes_nonneg siteTimes ->
      forall i e, siteLimits s !! i = Some e -> site_breached e ->
                  inherited (site e) = false ->
                  exists e', siteLimits (fst r) !! i = Some e' /\ site_breached e')
  /\ (forall i e, siteLimits s !! i = Some e -> site_breached e ->
                  inherited (site e) = true ->
                  exists e', siteLimits (fst r) !! i = Some e'
                             /\ used e' = NaN /\ ~ site_breached e').
Proof.
  cbv zeta. split; [|split].
  - intros (n & Hn & Hn0 & Hle) Hg.
    assert (Hlim : limit_set (globalDailyLimit s) = true).
    { rewrite Hn. cbn. now destruct (Z.eqb_spec n 0). }
    assert (Hb : global_breached (fst (applyTimeUpdates globalTime siteTimes s))).
    { exists n. split; [|split; [exact Hn0|]].
      - unfold applyTimeUpdates. rewrite Hlim. cbn. exact Hn.
      - rewrite applyTimeUpdates_globalUsed, Hlim. lia. }
    split; [exact Hb|].
    rewrite (proj2 (applyTimeUpdates_calls globalTime siteTimes s) (or_introl Hlim)).
    now rewrite checkLimits_global.
  - intros Hst i e Hi [Hen (u & l & Hu & Hl & Hle)] Hown.
    exists (fst (applySiteTime siteTimes e)).
    split; [now apply applyTimeUpdates_entry|].
    destruct (applySiteTime_fields siteTimes e) as (_ & Hl' & He').
    split; [congruence|]. eexists _, l.
    split; [apply (applySiteTime_numbers siteTimes e u l Hown Hu Hl)|].
    split; [congruence|].
    destruct (siteTimes !! site e) as [t|] eqn:Ht; [|exact Hle].
    specialize (Hst _ _ Ht). destruct (truthyZ t && enabled e); lia.
  - intros i e Hi [Hen _] Hinh.
    exists (fst (applySiteTime siteTimes e)).
    split; [now apply applyTimeUpdates_entry|].
    assert (Hu : used (fst (applySiteTime siteTimes e)) = NaN).
    { rewrite applySiteTime_used, siteTimes_get_inherited by exact Hinh. now rewrite Hen. }
    split; [exact Hu|]. intros [_ (u & l & Hu' & _)]. congruence.
Qed.

Lemma breach_persists_witness :
  snd (applyTimeUpdates 1 ∅ breach_sample)
  = [StorageSetSettings (fst (applyTimeUpdates 1 ∅ breach_sample));
     NotificationCreate "Bulwark Time Limit" "Stop." 2;
     TabsQuery blockTabs].
Proof.
  assert (Hg : global_breached breach_sample).
  { exists 30. cbn. repeat split; [discriminate | lia]. }
  destruct (proj1 (breach_persists 1 ∅ breach_sample) Hg ltac:(lia))
    as [_ Hsnd].
  rewrite Hsnd. reflexivity.
Defined.

(** ** Adding and then removing a site limit *)

(** X11.  Removing what was just added.  Let [addSiteLimit(site, limit)]
    succeed with a normalized site [d] that normalizes to itself.  Then
    [removeSiteLimit(site)] on the result succeeds and leaves no entry for
    [d]; and if there was no entry for [d] before the addition, the list
    of site limits is again what it was. *)
Theorem add_then_remove (name : option string) (l : JSValue.value) (s : Settings) (d : string) :
  normalizeDomain name = Some d ->
  d <> "" ->
  limit_rejected l = false ->
  normalizeDomain (Some d) = Some d ->
  let s1 := fst (fst (addSiteLimit name l s)) in
  let r := removeSiteLimit name s1 in
  snd (fst r) = ok
  /\ snd r = [StorageSetSettings (fst (fst r))]
  /\ (forall e, In e (siteLimits (fst (fst r))) -> normalizeDomain (Some (site e)) <> Some d)
  /\ ((forall e, In e (siteLimits s) -> normalizeDomain (Some (site e)) <> Some d) ->
      fst (fst r) = s).
Proof.
  intros Hd Hne Hrej Hfix. cbv zeta.
  rewrite (addSiteLimit_ok name l s d Hd Hne Hrej). cbv zeta. cbn [fst].
  set (n := JSValue.parseInt l).
  set (l' := match list_find (fun e => sameSite (Some d) e = true) (siteLimits s) with
             | Some (i, old) => <[i := mkSiteLimit d n (used old) true]> (siteLimits s)
             | None => siteLimits s ++ [mkSiteLimit d n (Int 0) true]
             end).
  assert (Hin : exists e, In e (siteLimits (set_siteLimits l' s))
                          /\ normalizeDomain (Some (site e)) = normalizeDomain name).
  { cbn [siteLimits set_siteLimits]. subst l'.
    destruct (list_find _ (siteLimits s)) as [[i old]|] eqn:Hfind.
    - exists (mkSiteLimit d n (used old) true). split; [|cbn [site]; congruence].
      apply list_find_Some in Hfind as (Hi & _ & _).
      apply list_elem_of_In, list_elem_of_lookup. exists i.
      apply list_lookup_insert_eq. eapply lookup_lt_Some, Hi.
    - exists (mkSiteLimit d n (Int 0) true). split; [|cbn [site]; congruence].
      apply in_or_app. right. now left. }
  pose proof (remove_found name (set_siteLimits l' s) Hin) as Hrem. cbv zeta in Hrem.
  rewrite Hrem. cbn [fst snd siteLimits set_siteLimits].
  split; [reflexivity|]. split; [reflexivity|]. split.
  - intros e He. apply filter_In in He as [_ He].
    apply negb_true_iff, sameSite_false in He. congruence.
  - intros Hnone. subst l'.
    assert (Hfind : list_find (fun e => sameSite (Some d) e = true) (siteLimits s) = None).
    { apply list_find_None, List.Forall_forall. intros e He.
      rewrite sameSite_spec. now apply Hnone. }
    rewrite Hfind, Hd, List.filter_app. cbn [List.filter].
    assert (Hnew : sameSite (Some d) (mkSiteLimit d n (Int 0) true) = true)
      by (apply sameSite_spec; exact Hfix).
    rewrite Hnew. cbn [negb]. rewrite app_nil_r.
    assert (Hall : List.filter (fun e => negb (sameSite (Some d) e)) (siteLimits s)
                   = siteLimits s).
    { apply forallb_filter_id, forallb_forall. intros e He.
      apply negb_true_iff, sameSite_false. now apply Hnone. }
    rewrite Hall. destruct s; reflexivity.
Qed.

Lemma add_then_remove_witness :
  fst (fst (removeSiteLimit (Some "Shop.com/cart")
              (fst (fst (addSiteLimit (Some "Shop.com/cart") five upsert_sample)))))
  = upsert_sample.
Proof.
  apply (add_then_remove (Some "Shop.com/cart") five upsert_sample "shop.com");
    try (vm_compute; reflexivity).
  - discriminate.
  - intros e [<-|[]]. vm_compute. discriminate.
Defined.

Example add_then_remove_needs_fixed_point :
  success (snd (fst (addSiteLimit (Some "www.www.x.com") five upsert_sample))) = true
  /\ removeSiteLimit (Some "www.www.x.com")
       (fst (fst (addSiteLimit (Some "www.www.x.com") five upsert_sample)))
     = (fst (fst (addSiteLimit (Some "www.www.x.com") five upsert_sample)),
        failure "Site limit not found", []).
Proof. split; vm_compute; reflexivity. Qed.

(** ** Spellings of a site *)

Lemma append_cons (c : ascii) (a b : string) :
  String.append (String c a) b = String c (String.append a b).
Proof. reflexivity. Qed.

Lemma append_nil (b : string) : String.append "" b = b.
Proof. reflexivity. Qed.

Lemma toLowerCase_app (a b : string) :
  JSString.toLowerCase (String.append a b)
  = String.append (JSString.toLowerCase a) (JSString.toLowerCase b).
Proof.
  induction a as [|c a IH]; rewrite ?append_cons, ?append_nil;
    cbn [JSString.toLowerCase]; [reflexivity | now rewrite append_cons, IH].
Qed.

Lemma toLowerCase_fixed (s : string) :
  all_chars (fun c => negb (is_upper c)) s = true -> JSString.toLowerCase s = s.
Proof.
  induction s as [|c r IH]; cbn; [reflexivity|]. intros H.
  apply andb_true_iff in H as [Hc Hr]. rewrite (IH Hr). f_equal.
  unfold JSString.lower_ascii. unfold is_upper in Hc.
  apply negb_true_iff in Hc. cbv zeta in Hc. now rewrite Hc.
Qed.

Lemma all_chars_impl (p q : ascii -> bool) (s : string) :
  (forall c, p c = true -> q c = true) -> all_chars p s = true -> all_chars q s = true.
Proof.
  intros Hpq. induction s as [|c r IH]; cbn; [reflexivity|]. intros H.
  apply andb_true_iff in H as [Hc Hr]. now rewrite (Hpq c Hc), IH.
Qed.

Lemma url_tail_lower (t : string) :
  url_tail t = true -> url_tail (JSString.toLowerCase t) = true.
Proof.
  destruct t as [|c r]; [reflexivity|]. cbn [url_tail JSString.toLowerCase].
  intros H. apply orb_true_iff in H as [H|H]; apply Ascii.eqb_eq in H; subst; reflexivity.
Qed.

Lemma trimEnd_keep (c : ascii) (r : string) :
  JSString.is_space c = false ->
  JSString.trimEnd (String c r) = String c (JSString.trimEnd r).
Proof.
  intros Hc. cbn [JSString.trimEnd]. destruct (JSString.trimEnd r); [now rewrite Hc | reflexivity].
Qed.

Lemma trimEnd_app (a b : string) :
  all_chars (fun c => negb (JSString.is_space c)) a = true ->
  JSString.trimEnd (String.append a b) = String.append a (JSString.trimEnd b).
Proof.
  induction a as [|c a IH]; [reflexivity|]. rewrite !append_cons. cbn [all_chars]. intros H.
  apply andb_true_iff in H as [Hc Ha]. apply negb_true_iff in Hc.
  rewrite trimEnd_keep by exact Hc. now rewrite IH.
Qed.

Lemma url_tail_trimEnd (t : string) :
  url_tail t = true -> url_tail (JSString.trimEnd t) = true.
Proof.
  destruct t as [|c r]; [reflexivity|]. intros H.
  assert (Hc : JSString.is_space c = false).
  { cbn in H. apply orb_true_iff in H as [H|H]; apply Ascii.eqb_eq in H; subst; reflexivity. }
  rewrite trimEnd_keep by exact Hc. exact H.
Qed.

Lemma startsWith_app_false (q host t : string) :
  JSString.startsWith q host = false ->
  match t with
  | EmptyString => True
  | String c _ => JSString.contains c q = false
  end ->
  JSString.startsWith q (String.append host t) = false.
Proof.
  revert host. induction q as [|a q IH]; intros host Hq Ht; [discriminate|].
  destruct host as [|b h]; rewrite ?append_cons, ?append_nil.
  - destruct t as [|c t']; [reflexivity|]. rewrite startsWith_cons.
    cbn in Ht. apply orb_false_iff in Ht as [Hac _]. now rewrite Hac.
  - rewrite startsWith_cons in Hq |- *.
    destruct (Ascii.eqb a b); [|reflexivity]. cbn [andb] in Hq |- *.
    apply IH; [exact Hq|].
    destruct t as [|c t']; [exact I|]. cbn in Ht. now apply orb_false_iff in Ht as [_ Ht].
Qed.

Lemma startsWith_longer (q q2 x : string) :
  JSString.startsWith q x = false ->
  JSString.startsWith (String.append q q2) x = false.
Proof.
  revert x. induction q as [|a q IH]; intros x H; [discriminate|].
  destruct x as [|b x]; [reflexivity|]. rewrite append_cons.
  rewrite startsWith_cons in H |- *.
  destruct (Ascii.eqb a b); [|reflexivity]. cbn [andb] in H |- *. now apply IH.
Qed.

Lemma cut_host (host t : string) :
  all_chars plain_char host = true -> url_tail t = true ->
  JSString.firstField ":" (JSString.firstField "/" (String.append host t)) = host.
Proof.
  intros Hh Ht. induction host as [|c h IH]; rewrite ?append_cons, ?append_nil.
  - destruct t as [|d t']; [reflexivity|]. cbn in Ht. cbn [JSString.firstField].
    destruct (Ascii.eqb_spec d "/") as [->|Hd]; [reflexivity|].
    cbn in Ht. apply Ascii.eqb_eq in Ht. subst d. reflexivity.
  - cbn [all_chars] in Hh. apply andb_true_iff in Hh as [Hc Hh].
    unfold plain_char in Hc.
    apply andb_true_iff in Hc as [Hc Hcolon]. apply andb_true_iff in Hc as [_ Hslash].
    apply negb_true_iff in Hcolon, Hslash.
    cbn [JSString.firstField]. rewrite Hslash. cbn [JSString.firstField].
    rewrite Hcolon. now rewrite IH.
Qed.

Lemma tail_not_in (q t : string) :
  JSString.contains "/" q = false -> JSString.contains ":" q = false ->
  url_tail t = true ->
  match t with
  | EmptyString => True
  | String c _ => JSString.contains c q = false
  end.
Proof.
  intros Hs Hc Ht. destruct t as [|c t']; [exact I|]. cbn in Ht.
  apply orb_true_iff in Ht as [H|H]; apply Ascii.eqb_eq in H; now subst.
Qed.

Lemma after_scheme (host t : string) :
  plain_host host = true -> url_tail t = true ->
  JSString.firstField ":"
    (JSString.firstField "/" (JSString.removePrefix "www." (String.append host t))) = host.
Proof.
  intros Hp Ht. unfold plain_host in Hp.
  apply andb_true_iff in Hp as [Hp _]. apply andb_true_iff in Hp as [Hchars Hwww].
  apply negb_true_iff in Hwww.
  assert (H2 : JSString.startsWith "www." (String.append host t) = false).
  { apply startsWith_app_false; [exact Hwww|]. now apply tail_not_in. }
  unfold JSString.removePrefix. rewrite H2. now apply cut_host.
Qed.

Lemma no_scheme (host t : string) :
  plain_host host = true -> url_tail t = true ->
  removeScheme (String.append host t) = String.append host t.
Proof.
  intros Hp Ht. unfold plain_host in Hp.
  apply andb_true_iff in Hp as [_ Hhttp]. apply negb_true_iff in Hhttp.
  assert (H1 : JSString.startsWith "http" (String.append host t) = false).
  { apply startsWith_app_false; [exact Hhttp|]. now apply tail_not_in. }
  assert (Ha : JSString.startsWith "http://" (String.append host t) = false)
    by exact (startsWith_longer "http" "://" _ H1).
  assert (Hb : JSString.startsWith "https://" (String.append host t) = false)
    by exact (startsWith_longer "http" "s://" _ H1).
  unfold removeScheme. now rewrite Ha, Hb.
Qed.

Lemma trimStart_keep (c : ascii) (r : string) :
  JSString.is_space c = false -> JSString.trimStart (String c r) = String c r.
Proof. intros Hc. cbn. now rewrite Hc. Qed.

Lemma plain_trimStart (host t : string) :
  all_chars plain_char host = true -> url_tail t = true ->
  JSString.trimStart (String.append host t) = String.append host t.
Proof.
  intros Hh Ht. destruct host as [|c h]; rewrite ?append_cons, ?append_nil.
  - destruct t as [|d t']; [reflexivity|]. apply trimStart_keep.
    cbn in Ht. apply orb_true_iff in Ht as [H|H]; apply Ascii.eqb_eq in H; now subst.
  - apply trimStart_keep. cbn in Hh. apply andb_true_iff in Hh as [Hc _].
    unfold plain_char in Hc. apply andb_true_iff in Hc as [Hc _].
    apply andb_true_iff in Hc as [Hc _]. apply andb_true_iff in Hc as [_ Hc].
    now apply negb_true_iff in Hc.
Qed.

(** X12.  Spellings of one site normalize to one key.  For a host name in
    lower case without white space, [/] or [:] that does not begin with
    [www.] or [http], followed by nothing, by a path or by a port,
    [normalizeDomain] returns the host whether or not the spelling has a
    scheme [http://] or [https://] and a leading [www.]; and the case of
    the letters of a spelling does not matter. *)
Theorem normalizeDomain_spellings :
  (forall prefix host tail,
      In prefix site_prefixes ->
      plain_host host = true ->
      url_tail tail = true ->
      normalizeDomain (Some (String.append prefix (String.append host tail))) = Some host)
  /\ (forall s, normalizeDomain (Some (JSString.toLowerCase s)) = normalizeDomain (Some s)).
Proof.
  split.
  - intros prefix host tail Hin Hp Ht.
    assert (Hchars : all_chars plain_char host = true).
    { unfold plain_host in Hp. apply andb_true_iff in Hp as [Hp _].
      now apply andb_true_iff in Hp as [Hp _]. }
    assert (Hlow : JSString.toLowerCase host = host).
    { apply toLowerCase_fixed. eapply all_chars_impl; [|exact Hchars].
      intros c Hc. unfold plain_char in Hc. apply andb_true_iff in Hc as [Hc _].
      apply andb_true_iff in Hc as [Hc _]. now apply andb_true_iff in Hc as [Hc _]. }
    assert (Hnosp : all_chars (fun c => negb (JSString.is_space c)) host = true).
    { eapply all_chars_impl; [|exact Hchars].
      intros c Hc. unfold plain_char in Hc. apply andb_true_iff in Hc as [Hc _].
      apply andb_true_iff in Hc as [Hc _]. now apply andb_true_iff in Hc as [_ Hc]. }
    pose proof (url_tail_trimEnd _ (url_tail_lower _ Ht)) as Ht'.
    set (t' := JSString.trimEnd (JSString.toLowerCase tail)) in *.
    assert (Htrim : forall p,
               all_chars (fun c => negb (JSString.is_space c)) p = true ->
               JSString.toLowerCase p = p ->
               JSString.trimStart (String.append p (String.append host (JSString.toLowerCase tail)))
               = String.append p (String.append host (JSString.toLowerCase tail)) ->
               JSString.trim (JSString.toLowerCase
                                (String.append p (String.append host tail)))
               = String.append p (String.append host t')).
    { intros p Hp1 Hp2 Hp3. unfold JSString.trim.
      rewrite !toLowerCase_app, Hp2, Hlow, Hp3.
      rewrite trimEnd_app by exact Hp1. now rewrite trimEnd_app by exact Hnosp. }
    cbn [normalizeDomain]. f_equal.
    cbn in Hin. destruct Hin as [<-|[<-|[<-|[<-|[<-|[<-|[]]]]]]];
      (rewrite Htrim; [|reflexivity|reflexivity|
         first [reflexivity
               | rewrite append_nil; apply plain_trimStart;
                 [exact Hchars | now apply url_tail_lower]]]).
    + rewrite append_nil, no_scheme by assumption. now apply after_scheme.
    + change (removeScheme (String.append "www." (String.append host t')))
        with (String.append "www." (String.append host t')).
      change (JSString.removePrefix "www." (String.append "www." (String.append host t')))
        with (String.append host t').
      now apply cut_host.
    + change (removeScheme (String.append "http://" (String.append host t')))
        with (String.append host t').
      now apply after_scheme.
    + change (removeScheme (String.append "https://" (String.append host t')))
        with (String.append host t').
      now apply after_scheme.
    + change (removeScheme (String.append "http://www." (String.append host t')))
        with (String.append "www." (String.append host t')).
      change (JSString.removePrefix "www." (String.append "www." (String.append host t')))
        with (String.append host t').
      now apply cut_host.
    + change (removeScheme (String.append "https://www." (String.append host t')))
        with (String.append "www." (String.append host t')).
      change (JSString.removePrefix "www." (String.append "www." (String.append host t')))
        with (String.append host t').
      now apply cut_host.
  - intros s. cbn [normalizeDomain].
    rewrite (toLowerCase_fixed (JSString.toLowerCase s)) by apply toLowerCase_no_upper.
    reflexivity.
Qed.

Lemma normalizeDomain_spellings_witness :
  normalizeDomain (Some "https://www.example.com/path") = Some "example.com"
  /\ normalizeDomain (Some "example.com") = Some "example.com"
  /\ normalizeDomain (Some "www.example.com:443") = Some "example.com".
Proof.
  pose proof (proj1 normalizeDomain_spellings) as H.
  split; [|split].
  - apply (H "https://www." "example.com" "/path"); [cbn; tauto | reflexivity..].
  - apply (H "" "example.com" ""); [cbn; tauto | reflexivity..].
  - apply (H "www." "example.com" ":443"); [cbn; tauto | reflexivity..].
Defined.

(** ** The site blocker *)

Module BlockerFacts.
Import Blocker.

Lemma updateBlockedUrls_sync (b : Engine) : urls_in_sync (updateBlockedUrls b).
Proof. reflexivity. Qed.

Lemma applyChange_sync (b : Engine) (c : change) :
  urls_in_sync b -> urls_in_sync (applyChange b c).
Proof. intros Hb. destruct c; [exact Hb | reflexivity | reflexivity]. Qed.

Lemma handleSettingsChange_sync (changes : list change) :
  forall b, urls_in_sync b -> urls_in_sync (handleSettingsChange changes b).
Proof.
  unfold handleSettingsChange. induction changes as [|c l IH]; intros b Hb; [exact Hb|].
  cbn [fold_left]. now apply IH, applyChange_sync.
Qed.

Lemma step_sync (ev : event) (b : Engine) : urls_in_sync b -> urls_in_sync (step ev b).
Proof.
  intros Hb. destruct ev as [site|site|changes]; cbn [step].
  - unfold addBlockedSite. destruct (negb _); [exact Hb|].
    destruct (includes _ _); [exact Hb | reflexivity].
  - reflexivity.
  - now apply handleSettingsChange_sync.
Qed.

Lemma run_sync (evs : list event) :
  forall b, urls_in_sync b -> urls_in_sync (run evs b).
Proof.
  unfold run. induction evs as [|ev l IH]; intros b Hb; [exact Hb|].
  cbn [fold_left]. now apply IH, step_sync.
Qed.

Lemma includes_In (x : string) (l : list string) : includes x l = true <-> In x l.
Proof.
  unfold includes. rewrite existsb_exists. split.
  - intros (y & Hy & Heq). apply String.eqb_eq in Heq. now subst.
  - intros Hx. exists x. split; [exact Hx | apply String.eqb_refl].
Qed.

End BlockerFacts.

(** X14.  In a blocker that has loaded its settings and then handled any
    additions, removals and storage changes, a navigation is redirected
    to the blocking page exactly when the kill switch is on, the list of
    blocked sites is enabled, the URL parses, and its host name equals a
    listed site up to the case of letters; otherwise the navigation
    causes no call at all. *)
Theorem blocker_redirects_iff
    (kill : bool) (sites : list string) (enabled : bool) (evs : list Blocker.event)
    (hostname : option string) (url : string) (tabId : Z) :
  let b := Blocker.run evs (Blocker.loadSettings kill sites enabled) in
  (Blocker.checkAndBlockUrl hostname url tabId b = [Blocker.RedirectBlocked tabId url]
   \/ Blocker.checkAndBlockUrl hostname url tabId b = [])
  /\ (Blocker.checkAndBlockUrl hostname url tabId b = [Blocker.RedirectBlocked tabId url]
      <-> Blocker.killSwitch b = true
          /\ Blocker.blockedSitesEnabled b = true
          /\ exists host s,
               hostname = Some host /\ In s (Blocker.blockedSites b)
               /\ JSString.toLowerCase s = JSString.toLowerCase host).
Proof.
  cbv zeta.
  pose proof (BlockerFacts.run_sync evs _
                (BlockerFacts.updateBlockedUrls_sync (Blocker.mkEngine kill sites enabled ∅)))
    as Hsync.
  change (Blocker.updateBlockedUrls (Blocker.mkEngine kill sites enabled ∅))
    with (Blocker.loadSettings kill sites enabled) in Hsync.
  set (b := Blocker.run evs (Blocker.loadSettings kill sites enabled)) in *.
  unfold Blocker.checkAndBlockUrl, urls_in_sync in *.
  destruct (Blocker.killSwitch b); cbn [negb];
    [|split; [now right | split; [discriminate | intros (H & _); discriminate]]].
  destruct hostname as [host|];
    [|split; [now right
             | split; [discriminate | intros (_ & _ & h & s & H & _); discriminate]]].
  rewrite Hsync.
  destruct (Blocker.blockedSitesEnabled b).
  - destruct (bool_decide_reflect
                (JSString.toLowerCase host
                   ∈ (list_to_set (map JSString.toLowerCase (Blocker.blockedSites b))
                      : gset string))) as [Hin|Hnot].
    + split; [now left|]. split; [|reflexivity]. intros _.
      split; [reflexivity|]. split; [reflexivity|].
      apply elem_of_list_to_set, list_elem_of_In, in_map_iff in Hin as (s & Hs & Hin).
      exists host, s. auto.
    + split; [now right|]. split; [discriminate|].
      intros (_ & _ & h & s & [= <-] & Hin & Hs). exfalso. apply Hnot.
      apply elem_of_list_to_set, list_elem_of_In, in_map_iff. exists s. auto.
  - rewrite bool_decide_eq_false_2 by apply not_elem_of_empty.
    split; [now right|]. split; [discriminate | intros (_ & H & _); discriminate].
Qed.

Lemma blocker_redirects_iff_witness :
  Blocker.checkAndBlockUrl (Some "News.com") "https://News.com/a" 3
    (Blocker.run [Blocker.AddBlockedSite "https://news.com/world"]
       (Blocker.loadSettings true [] true))
  = [Blocker.RedirectBlocked 3 "https://News.com/a"].
Proof.
  apply (blocker_redirects_iff true [] true [Blocker.AddBlockedSite "https://news.com/world"]).
  split; [reflexivity|]. split; [reflexivity|].
  exists "News.com", "news.com". split; [reflexivity|]. split; [|reflexivity].
  vm_compute. now left.
Defined.

(** X15.  [addBlockedSite(site)] answers "Invalid domain" when the
    normalized site has no dot and "Already blocked" when it is listed,
    and in both cases changes nothing and writes nothing.  Otherwise it
    appends the normalized site, writes the new list to storage once and
    answers success; a list without duplicates stays without
    duplicates. *)
Theorem addBlockedSite_validation (site : string) (b : Blocker.Engine) :
  let d := Blocker.normalizeSite site in
  let r := Blocker.addBlockedSite site b in
  (JSString.contains "." d = false -> r = (b, failure "Invalid domain", []))
  /\ (JSString.contains "." d = true -> In d (Blocker.blockedSites b) ->
      r = (b, failure "Already blocked", []))
  /\ (JSString.contains "." d = true -> ~ In d (Blocker.blockedSites b) ->
      snd (fst r) = ok
      /\ Blocker.blockedSites (fst (fst r)) = Blocker.blockedSites b ++ [d]
      /\ Blocker.killSwitch (fst (fst r)) = Blocker.killSwitch b
      /\ Blocker.blockedSitesEnabled (fst (fst r)) = Blocker.blockedSitesEnabled b
      /\ snd r = [Blocker.StorageSetBlockedSites (Blocker.blockedSites b ++ [d])]
      /\ (List.NoDup (Blocker.blockedSites b) ->
          List.NoDup (Blocker.blockedSites (fst (fst r))))).
Proof.
  cbv zeta. unfold Blocker.addBlockedSite. split; [|split].
  - intros Hdot. now rewrite Hdot.
  - intros Hdot Hin. rewrite Hdot. cbn [negb].
    apply BlockerFacts.includes_In in Hin. now rewrite Hin.
  - intros Hdot Hnot. rewrite Hdot. cbn [negb].
    destruct (Blocker.includes _ _) eqn:Hinc;
      [apply BlockerFacts.includes_In in Hinc; contradiction|].
    cbn. repeat (split; [reflexivity|]).
    intros Hnd. apply List.NoDup_app; [exact Hnd | |].
    + repeat constructor. intros [].
    + intros x Hx [<-|[]]. contradiction.
Qed.

Lemma addBlockedSite_validation_witness :
  Blocker.addBlockedSite "localhost" (Blocker.loadSettings true ["news.com"] true)
  = (Blocker.loadSettings true ["news.com"] true, failure "Invalid domain", [])
  /\ Blocker.addBlockedSite "HTTP://News.com/x" (Blocker.loadSettings true ["news.com"] true)
     = (Blocker.loadSettings true ["news.com"] true, failure "Already blocked", [])
  /\ Blocker.blockedSites
       (fst (fst (Blocker.addBlockedSite "shop.com" (Blocker.loadSettings true ["news.com"] true))))
     = ["news.com"; "shop.com"].
Proof.
  split; [|split].
  - apply (addBlockedSite_validation "localhost"). reflexivity.
  - apply (addBlockedSite_validation "HTTP://News.com/x"); [reflexivity|].
    vm_compute. now left.
  - apply (addBlockedSite_validation "shop.com"); [reflexivity|].
    vm_compute. intros [H|[]]. discriminate.
Defined.

(** X16.  Removing a blocked site compares the stored strings with the
    argument as it is given.  Removing the normalized form of a site that
    was just added gives back the blocker that was there before; removing
    a string that is not listed, such as another spelling of a listed
    site, leaves the list as it is and still writes it to storage and
    answers success. *)
Theorem removeBlockedSite_round_trip (site : string) (b : Blocker.Engine) :
  let d := Blocker.normalizeSite site in
  (urls_in_sync b ->
   JSString.contains "." d = true ->
   ~ In d (Blocker.blockedSites b) ->
   fst (fst (Blocker.removeBlockedSite d (fst (fst (Blocker.addBlockedSite site b))))) = b)
  /\ (forall raw,
         ~ In raw (Blocker.blockedSites b) ->
         Blocker.blockedSites (fst (fst (Blocker.removeBlockedSite raw b)))
         = Blocker.blockedSites b
         /\ snd (fst (Blocker.removeBlockedSite raw b)) = ok
         /\ snd (Blocker.removeBlockedSite raw b)
            = [Blocker.StorageSetBlockedSites (Blocker.blockedSites b)]).
Proof.
  cbv zeta.
  assert (Hkeep : forall raw l, ~ In raw l ->
             List.filter (fun s => negb (String.eqb s raw)) l = l).
  { intros raw l Hnot. apply forallb_filter_id, forallb_forall. intros s Hs.
    apply negb_true_iff, String.eqb_neq. intros ->. contradiction. }
  split.
  - intros Hsync Hdot Hnot.
    destruct (addBlockedSite_validation site b) as (_ & _ & Hadd).
    destruct (Hadd Hdot Hnot) as (_ & Hsites & Hkill & Hen & _).
    unfold Blocker.removeBlockedSite. cbn [fst].
    rewrite Hsites, Hkill, Hen, List.filter_app, (Hkeep _ _ Hnot).
    cbn [List.filter]. rewrite String.eqb_refl. cbn [negb]. rewrite app_nil_r.
    unfold Blocker.updateBlockedUrls. cbn.
    unfold urls_in_sync in Hsync. rewrite <- Hsync. now destruct b.
  - intros raw Hnot. unfold Blocker.removeBlockedSite. cbn.
    rewrite (Hkeep _ _ Hnot). auto.
Qed.

Lemma removeBlockedSite_round_trip_witness :
  fst (fst (Blocker.removeBlockedSite "shop.com"
              (fst (fst (Blocker.addBlockedSite "https://Shop.com/cart"
                           (Blocker.loadSettings true ["news.com"] true))))))
  = Blocker.loadSettings true ["news.com"] true
  /\ Blocker.blockedSites
       (fst (fst (Blocker.removeBlockedSite "News.com"
                    (Blocker.loadSettings true ["news.com"] true))))
     = ["news.com"].
Proof.
  split.
  - apply (proj1 (removeBlockedSite_round_trip "https://Shop.com/cart"
                    (Blocker.loadSettings true ["news.com"] true))).
    + reflexivity.
    + reflexivity.
    + vm_compute. intros [H|[]]. discriminate.
  - apply (proj2 (removeBlockedSite_round_trip "" (Blocker.loadSettings true ["news.com"] true))).
    cbn. intros [H|[]]. discriminate.
Defined.

(** ** Counting blocked requests *)

Lemma startsWith_lower (p s : string) :
  JSString.startsWith p s = true ->
  JSString.startsWith (JSString.toLowerCase p) (JSString.toLowerCase s) = true.
Proof.
  revert s. induction p as [|a p IH]; intros s H; [reflexivity|].
  destruct s as [|b s]; [discriminate|].
  rewrite startsWith_cons in H. apply andb_true_iff in H as [Hab Hps].
  apply Ascii.eqb_eq in Hab. subst b.
  cbn [JSString.toLowerCase]. rewrite startsWith_cons, Ascii.eqb_refl. cbn [andb].
  now apply IH.
Qed.

Lemma str_includes_lower (p s : string) :
  JSString.toLowerCase p = p ->
  str_includes p s = true -> str_includes p (JSString.toLowerCase s) = true.
Proof.
  intros Hp. induction s as [|c s IH]; intros H.
  - cbn in H |- *. rewrite orb_false_r in H |- *.
    apply startsWith_lower in H. now rewrite Hp in H.
  - cbn [str_includes JSString.toLowerCase] in H |- *.
    apply orb_true_iff in H as [H|H]; apply orb_true_iff.
    + left. apply startsWith_lower in H. now rewrite Hp in H.
    + right. now apply IH.
Qed.

Lemma onRuleMatched_counts (url : string) (st : AdBlock.Stats) :
  let st' := fst (AdBlock.onRuleMatched url st) in
  (AdBlock.adsBlocked st' = AdBlock.adsBlocked st + 1
   /\ AdBlock.trackersBlocked st' = AdBlock.trackersBlocked st)
  \/ (AdBlock.adsBlocked st' = AdBlock.adsBlocked st
      /\ AdBlock.trackersBlocked st' = AdBlock.trackersBlocked st + 1).
Proof.
  cbv zeta. unfold AdBlock.onRuleMatched.
  destruct (_ || _); cbn; [left | right]; auto.
Qed.

Lemma tracker_ad_is_stats_ad (url : string) (st : AdBlock.Stats) (t : AdBlock.Tracker) :
  AdBlock.tracked_ads (AdBlock.handleBlockedRequest url t) = AdBlock.tracked_ads t + 1 ->
  AdBlock.adsBlocked (fst (AdBlock.onRuleMatched url st)) = AdBlock.adsBlocked st + 1.
Proof.
  unfold AdBlock.handleBlockedRequest, AdBlock.onRuleMatched. intros H.
  destruct (str_includes "ads" url || str_includes "doubleclick" url
            || str_includes "googlead" url) eqn:Hc; [|cbn in H; lia].
  assert (Hl : str_includes "ads" (JSString.toLowerCase url)
               || str_includes "doubleclick" (JSString.toLowerCase url)
               || str_includes "googlesyndication" (JSString.toLowerCase url)
               || str_includes "adnxs" (JSString.toLowerCase url)
               || str_includes "googlead" (JSString.toLowerCase url) = true).
  { apply orb_true_iff in Hc as [Hc|Hc]; [apply orb_true_iff in Hc as [Hc|Hc]|];
      apply str_includes_lower in Hc; try reflexivity; rewrite Hc;
      rewrite ?orb_true_r; reflexivity. }
  rewrite Hl. reflexivity.
Qed.

Lemma handleBlockedRequest_counts (url : string) (t : AdBlock.Tracker) :
  let t' := AdBlock.handleBlockedRequest url t in
  AdBlock.lastReset t' = AdBlock.lastReset t
  /\ ((AdBlock.tracked_ads t' = AdBlock.tracked_ads t + 1
       /\ AdBlock.tracked_trackers t' = AdBlock.tracked_trackers t)
      \/ (AdBlock.tracked_ads t' = AdBlock.tracked_ads t
          /\ AdBlock.tracked_trackers t' = AdBlock.tracked_trackers t + 1)).
Proof.
  cbv zeta. unfold AdBlock.handleBlockedRequest.
  destruct (_ || _); cbn; (split; [reflexivity|]); [left | right]; auto.
Qed.

Lemma feed_cons (url : string) (urls : list string) (st : AdBlock.Stats) (t : AdBlock.Tracker) :
  AdBlock.feed (url :: urls) st t
  = AdBlock.feed urls (fst (AdBlock.onRuleMatched url st)) (AdBlock.handleBlockedRequest url t).
Proof. reflexivity. Qed.

(** X17.  The two counters of blocked requests see the same events but
    classify them differently.  Over any sequence of matched requests
    each of them counts every request once, as an ad or as a tracker, so
    their totals grow by the number of requests; [AdBlockerStats] saves
    after each.  A request that [AdBlockerTracker] counts as an ad is
    counted as an ad by [AdBlockerStats] too, so the ads of the tracker
    never grow by more than those of the stats. *)
Theorem ad_counters_agree (urls : list string) (st : AdBlock.Stats) (t : AdBlock.Tracker) :
  let r := AdBlock.feed urls st t in
  AdBlock.adsBlocked (fst r) + AdBlock.trackersBlocked (fst r)
  = AdBlock.adsBlocked st + AdBlock.trackersBlocked st + Z.of_nat (length urls)
  /\ AdBlock.tracked_ads (snd r) + AdBlock.tracked_trackers (snd r)
     = AdBlock.tracked_ads t + AdBlock.tracked_trackers t + Z.of_nat (length urls)
  /\ AdBlock.adsBlocked st <= AdBlock.adsBlocked (fst r)
  /\ AdBlock.trackersBlocked st <= AdBlock.trackersBlocked (fst r)
  /\ 0 <= AdBlock.tracked_ads (snd r) - AdBlock.tracked_ads t
       <= AdBlock.adsBlocked (fst r) - AdBlock.adsBlocked st
  /\ AdBlock.lastReset (snd r) = AdBlock.lastReset t
  /\ (forall url,
         exists st', AdBlock.onRuleMatched url st
                     = (st', [AdBlock.StorageSetStats (AdBlock.adsBlocked st')
                                                     (AdBlock.trackersBlocked st')])).
Proof.
  cbv zeta.
  assert (Hsave : forall url,
             exists st', AdBlock.onRuleMatched url st
                         = (st', [AdBlock.StorageSetStats (AdBlock.adsBlocked st')
                                                         (AdBlock.trackersBlocked st')])).
  { intros url. unfold AdBlock.onRuleMatched. destruct (_ || _); eexists; reflexivity. }
  revert st t Hsave. induction urls as [|url urls IH]; intros st t Hsave.
  - cbn. repeat split; try lia. exact Hsave.
  - rewrite feed_cons.
    pose proof (onRuleMatched_counts url st) as Hs. cbv zeta in Hs.
    destruct (handleBlockedRequest_counts url t) as [Hreset Ht].
    pose proof (tracker_ad_is_stats_ad url st t) as Hrel.
    assert (Hsave' : forall u,
               exists st', AdBlock.onRuleMatched u (fst (AdBlock.onRuleMatched url st))
                           = (st', [AdBlock.StorageSetStats (AdBlock.adsBlocked st')
                                                           (AdBlock.trackersBlocked st')])).
    { intros u. unfold AdBlock.onRuleMatched at 1. destruct (_ || _); eexists; reflexivity. }
    destruct (IH (fst (AdBlock.onRuleMatched url st)) (AdBlock.handleBlockedRequest url t) Hsave')
      as (I1 & I2 & I3 & I4 & I5 & I6 & _).
    cbn [length]. rewrite Nat2Z.inj_succ.
    repeat split; try exact Hsave; try lia; try congruence.
Qed.

Example ad_counters_differ :
  AdBlock.feed ["https://ADS.example.com/banner.js"]
    (AdBlock.mkStats 0 0) (AdBlock.mkTracker 0 0 0)
  = (AdBlock.mkStats 1 0, AdBlock.mkTracker 0 1 0).
Proof. vm_compute. reflexivity. Qed.

(** ** The privacy analyzer *)

Module PrivacyFacts.
Import Privacy.

Lemma str_take_length (n : nat) (s : string) : (String.length (str_take n s) <= n)%nat.
Proof.
  revert s. induction n as [|n IH]; intros [|c r]; cbn; try lia.
  specialize (IH r). lia.
Qed.

Lemma evidence_length (sentence : string) :
  (String.length (extractRelevantEvidence sentence) <= 200)%nat.
Proof. apply str_take_length. Qed.

Lemma collection_range (sentence : string) (context : Context) :
  5 <= calculateCollectionScore sentence context <= 10.
Proof.
  unfold calculateCollectionScore.
  destruct (isHigh _), (negb _), (includesAny _ _); cbn; lia.
Qed.

Lemma sharing_range (sentence : string) (context : Context) :
  6 <= calculateSharingScore sentence context <= 10.
Proof.
  unfold calculateSharingScore.
  destruct (isHigh _), (str_includes _ _); cbn; lia.
Qed.

Lemma rights_range (sentence : string) (context : Context) :
  6 <= calculateRightsScore sentence context <= 10.
Proof.
  unfold calculateRightsScore.
  destruct (isHigh _), (_ || _); cbn; lia.
Qed.

Lemma security_range (sentence : string) (context : Context) :
  5 <= calculateSecurityScore sentence context <= 10.
Proof.
  unfold calculateSecurityScore.
  destruct (isHigh _), (str_includes _ _); cbn; lia.
Qed.

Lemma filter_none {A : Type} (f : A -> bool) (l : list A) :
  (forall x, f x = false) -> List.filter f l = [].
Proof. intros Hf. induction l as [|x l IH]; cbn; [reflexivity|]. now rewrite Hf. Qed.

Lemma distinct_fold (items seen : list string) :
  List.NoDup seen ->
  let r := fold_left (fun seen x => if existsb (String.eqb x) seen then seen else seen ++ [x])
                     items seen in
  List.NoDup r /\ forall x, In x r <-> In x seen \/ In x items.
Proof.
  revert seen. induction items as [|y items IH]; intros seen Hnd; cbn.
  - split; [exact Hnd|]. intros x. tauto.
  - destruct (existsb (String.eqb y) seen) eqn:He.
    + destruct (IH seen Hnd) as [H1 H2]. split; [exact H1|]. intros x. rewrite H2.
      apply existsb_exists in He as (z & Hz & Hyz). apply String.eqb_eq in Hyz. subst z.
      split; [tauto|]. intros [H|[<-|H]]; auto.
    + assert (Hnot : ~ In y seen).
      { intros Hy. assert (existsb (String.eqb y) seen = true); [|congruence].
        apply existsb_exists. exists y. split; [exact Hy | apply String.eqb_refl]. }
      assert (Hnd' : List.NoDup (seen ++ [y])).
      { apply List.NoDup_app; [exact Hnd | repeat constructor; intros [] |].
        intros x Hx [<-|[]]. contradiction. }
      destruct (IH _ Hnd') as [H1 H2]. split; [exact H1|]. intros x. rewrite H2.
      rewrite in_app_iff. cbn. tauto.
Qed.

Lemma distinct_NoDup (items : list string) : List.NoDup (distinct items).
Proof. apply (distinct_fold items []). constructor. Qed.

Lemma distinct_In (items : list string) (x : string) : In x (distinct items) <-> In x items.
Proof.
  unfold distinct. rewrite (proj2 (distinct_fold items [] (List.NoDup_nil _))). cbn. tauto.
Qed.

Lemma firstn_In {A : Type} (n : nat) (l : list A) (x : A) : In x (firstn n l) -> In x l.
Proof.
  revert l. induction n as [|n IH]; intros [|y l]; cbn; try tauto.
  intros [H|H]; [now left | right; now apply IH].
Qed.

Lemma firstn_NoDup {A : Type} (n : nat) (l : list A) : List.NoDup l -> List.NoDup (firstn n l).
Proof.
  revert l. induction n as [|n IH]; intros [|y l] H; cbn; try constructor.
  - inversion H; subst. intros Hin. apply firstn_In in Hin. contradiction.
  - inversion H; subst. now apply IH.
Qed.

Lemma firstn_bound {A : Type} (n : nat) (l : list A) : (length (firstn n l) <= n)%nat.
Proof.
  revert l. induction n as [|n IH]; intros [|y l]; cbn; try lia. specialize (IH l). lia.
Qed.

Lemma firstn_map_comm {A B : Type} (f : A -> B) (n : nat) (l : list A) :
  map f (firstn n l) = firstn n (map f l).
Proof.
  revert l. induction n as [|n IH]; intros [|y l]; cbn; try reflexivity. now rewrite IH.
Qed.

End PrivacyFacts.

(** X18 ([analyzeSentence], with the four score calculators and
    [extractRelevantEvidence]): whatever the sentence, a category that
    carries evidence has a score between its base score and 10 (5 to 10
    for data collection and security, 6 to 10 for data sharing and user
    rights) and at most 200 characters of evidence; a category without
    evidence has score 0; and the data usage category never gets a score
    or evidence. *)
Theorem analyzeSentence_ranges (sentence : string) :
  let r := Privacy.analyzeSentence sentence in
  in_range 5 10 (Privacy.dataCollection r)
  /\ in_range 6 10 (Privacy.dataSharing r)
  /\ in_range 6 10 (Privacy.userRights r)
  /\ in_range 5 10 (Privacy.security r)
  /\ Privacy.dataUsage r = Privacy.mkCategory 0 None.
Proof.
  cbv zeta. unfold Privacy.analyzeSentence, in_range.
  cbn [Privacy.dataCollection Privacy.dataSharing Privacy.userRights Privacy.security
       Privacy.dataUsage].
  refine (conj _ (conj _ (conj _ (conj _ eq_refl)))).
  - destruct (_ && _); cbn [Privacy.evidence Privacy.score]; [|reflexivity].
    split; [apply PrivacyFacts.collection_range | apply PrivacyFacts.evidence_length].
  - destruct (_ && _); cbn [Privacy.evidence Privacy.score]; [|reflexivity].
    split; [apply PrivacyFacts.sharing_range | apply PrivacyFacts.evidence_length].
  - destruct (Privacy.hasUserRightsTerms _); cbn [Privacy.evidence Privacy.score]; [|reflexivity].
    split; [apply PrivacyFacts.rights_range | apply PrivacyFacts.evidence_length].
  - destruct (Privacy.hasSecurityTerms _); cbn [Privacy.evidence Privacy.score]; [|reflexivity].
    split; [apply PrivacyFacts.security_range | apply PrivacyFacts.evidence_length].
Qed.

(** X19 ([analyzeSentence], [analyzeSentenceContext],
    [isNegativeContext], [checkCriticalRedFlags]): a sentence in which a
    negative indicator stands as a word of its own scores nothing for
    data collection and data sharing and raises no red flag, whatever
    terms it contains; its user rights and security terms are scored all
    the same, with at least 6 and 5. *)
Theorem negation_mutes_risks_only (sentence : string) :
  Privacy.isNegativeContext (JSString.toLowerCase sentence) = true ->
  let r := Privacy.analyzeSentence sentence in
  Privacy.dataCollection r = Privacy.mkCategory 0 None
  /\ Privacy.dataSharing r = Privacy.mkCategory 0 None
  /\ Privacy.redFlags r = []
  /\ (Privacy.hasUserRightsTerms (JSString.toLowerCase sentence) = true ->
      6 <= Privacy.score (Privacy.userRights r))
  /\ (Privacy.hasSecurityTerms (JSString.toLowerCase sentence) = true ->
      5 <= Privacy.score (Privacy.security r)).
Proof.
  intros Hneg. cbv zeta. unfold Privacy.analyzeSentence, Privacy.analyzeSentenceContext.
  cbn [Privacy.dataCollection Privacy.dataSharing Privacy.userRights Privacy.security
       Privacy.redFlags Privacy.isNegative].
  rewrite Hneg. cbn [negb]. rewrite !andb_false_r.
  refine (conj eq_refl (conj eq_refl (conj _ (conj _ _)))).
  - unfold Privacy.checkCriticalRedFlags. cbn [Privacy.isNegative negb].
    apply PrivacyFacts.filter_none. intros x. apply andb_false_r.
  - intros ->. cbn [Privacy.score]. apply PrivacyFacts.rights_range.
  - intros ->. cbn [Privacy.score]. apply PrivacyFacts.security_range.
Qed.

Lemma negation_mutes_risks_only_witness :
  let sentence := "We do not sell your data or your credit card, but you cannot opt out of encryption." in
  Privacy.isNegativeContext (JSString.toLowerCase sentence) = true
  /\ Privacy.hasDataSharingTerms (JSString.toLowerCase sentence) = true
  /\ Privacy.dataSharing (Privacy.analyzeSentence sentence) = Privacy.mkCategory 0 None
  /\ Privacy.redFlags (Privacy.analyzeSentence sentence) = []
  /\ 6 <= Privacy.score (Privacy.userRights (Privacy.analyzeSentence sentence))
  /\ 5 <= Privacy.score (Privacy.security (Privacy.analyzeSentence sentence)).
Proof.
  cbv zeta.
  pose proof (negation_mutes_risks_only
    "We do not sell your data or your credit card, but you cannot opt out of encryption."
    ltac:(vm_compute; reflexivity)) as H.
  cbv zeta in H. destruct H as (_ & Hs & Hf & Hr & Hc).
  refine (conj _ (conj _ (conj Hs (conj Hf (conj (Hr _) (Hc _)))))); vm_compute; reflexivity.
Defined.

(** X20 ([validateAndDedupeEvidence]): the evidence kept for a category
    is at most three strings, pairwise different, each one taken from the
    collected evidence and longer than 10 characters. *)
Theorem validateAndDedupeEvidence_spec (evidenceArray : list string) :
  let kept := Privacy.validateAndDedupeEvidence evidenceArray in
  (length kept <= 3)%nat
  /\ List.NoDup kept
  /\ forall e, In e kept -> In e evidenceArray /\ (10 < String.length e)%nat.
Proof.
  cbv zeta. unfold Privacy.validateAndDedupeEvidence.
  refine (conj (PrivacyFacts.firstn_bound _ _) (conj _ _)).
  - apply PrivacyFacts.firstn_NoDup, List.NoDup_filter, PrivacyFacts.distinct_NoDup.
  - intros e He. apply PrivacyFacts.firstn_In in He. apply List.filter_In in He as [Hin Hok].
    apply (proj1 (PrivacyFacts.distinct_In _ _)) in Hin. apply andb_true_iff in Hok as [_ Hlen].
    apply Nat.ltb_lt in Hlen. auto.
Qed.

(** X21 ([storeSiteAnalysisSafely], both definitions): with room for at
    least one entry, the stored list starts with the new entry, holds no
    other entry of that domain, is no longer than the number of entries
    kept (5 in the first definition, 50 in the second), takes every other
    entry from the list read from storage, and has pairwise different
    domains when that list had. *)
Theorem storeSiteAnalysis_spec {A : Type} (keep : nat) (domain : string) (analysis : A)
    (overallScore now : Z) (today : string) (stored : list (Privacy.StoredSite A)) :
  (1 <= keep)%nat ->
  exists older,
    Privacy.storeSiteAnalysis keep domain analysis overallScore now today stored
    = Privacy.mkStoredSite domain overallScore analysis now today :: older
    /\ (S (length older) <= keep)%nat
    /\ (forall site, In site older -> In site stored /\ Privacy.domain site <> domain)
    /\ (List.NoDup (map Privacy.domain stored) ->
        List.NoDup (domain :: map Privacy.domain older)).
Proof.
  intros Hkeep. unfold Privacy.storeSiteAnalysis.
  set (others := List.filter _ stored).
  assert (Hothers : forall site, In site others -> In site stored /\ Privacy.domain site <> domain).
  { intros site Hs. apply List.filter_In in Hs as [Hin Hne]. split; [exact Hin|].
    apply negb_true_iff, String.eqb_neq in Hne. exact Hne. }
  assert (Hnd : List.NoDup (map Privacy.domain stored) ->
                List.NoDup (map Privacy.domain others)).
  { clear Hothers. subst others. induction stored as [|s l IH]; cbn; intros H; [constructor|].
    inversion H as [|? ? Hs Hl]; subst. destruct (negb _); cbn; [|now apply IH].
    constructor; [|now apply IH]. intros Hin. apply Hs.
    apply in_map_iff in Hin as (y & Hy & Hin). apply List.filter_In in Hin as [Hin _].
    apply in_map_iff. now exists y. }
  destruct keep as [|k]; [lia|].
  exists (if (S k <? length (Privacy.mkStoredSite domain overallScore analysis now today :: others))%nat
          then firstn k others else others).
  destruct (S k <? _)%nat eqn:Hlen.
  - refine (conj eq_refl (conj _ (conj _ _))).
    + pose proof (PrivacyFacts.firstn_bound k others). lia.
    + intros site Hs. apply Hothers. now apply PrivacyFacts.firstn_In in Hs.
    + intros H. constructor.
      * intros Hin. rewrite PrivacyFacts.firstn_map_comm in Hin.
        apply PrivacyFacts.firstn_In in Hin.
        apply in_map_iff in Hin as (y & Hy & Hin). now apply Hothers in Hin as [_ Hne].
      * rewrite PrivacyFacts.firstn_map_comm. now apply PrivacyFacts.firstn_NoDup, Hnd.
  - apply Nat.ltb_ge in Hlen. cbn [length] in Hlen.
    refine (conj eq_refl (conj Hlen (conj Hothers _))).
    intros H. constructor; [|now apply Hnd].
    intros Hin. apply in_map_iff in Hin as (y & Hy & Hin). now apply Hothers in Hin as [_ Hne].
Qed.

Lemma storeSiteAnalysis_spec_witness :
  exists older,
    Privacy.storeSiteAnalysis 5 "a.com" tt 80 1000 "2024-01-02"
      [Privacy.mkStoredSite "b.com" 70 tt 900 "2024-01-01";
       Privacy.mkStoredSite "a.com" 60 tt 800 "2024-01-01"]
    = Privacy.mkStoredSite "a.com" 80 tt 1000 "2024-01-02" :: older
    /\ (S (length older) <= 5)%nat.
Proof.
  destruct (storeSiteAnalysis_spec 5 "a.com" tt 80 1000 "2024-01-02"
              [Privacy.mkStoredSite "b.com" 70 tt 900 "2024-01-01";
               Privacy.mkStoredSite "a.com" 60 tt 800 "2024-01-01"]
              ltac:(lia)) as (older & H1 & H2 & _).
  exists older. split; [exact H1 | exact H2].
Defined.

Module SentenceFacts.
Import Privacy.

Lemma append_nil_r (s : string) : String.append s "" = s.
Proof. induction s as [|c s IH]; [reflexivity|]. now rewrite append_cons, IH. Qed.

Lemma append_assoc (a b c : string) :
  String.append (String.append a b) c = String.append a (String.append b c).
Proof. induction a as [|x a IH]; [reflexivity|]. now rewrite !append_cons, IH. Qed.

Lemma append_length (a b : string) :
  String.length (String.append a b) = (String.length a + String.length b)%nat.
Proof. induction a as [|x a IH]; [reflexivity|]. rewrite append_cons. cbn. now rewrite IH. Qed.

Lemma all_chars_app (p : ascii -> bool) (a b : string) :
  all_chars p (String.append a b) = all_chars p a && all_chars p b.
Proof.
  induction a as [|x a IH]; [reflexivity|]. rewrite append_cons. cbn [all_chars].
  now rewrite IH, andb_assoc.
Qed.

Lemma terminator_not_space (c : ascii) :
  is_terminator c = true -> JSString.is_space c = false.
Proof.
  unfold is_terminator. intros H.
  apply orb_true_iff in H as [H|H]; [apply orb_true_iff in H as [H|H]|];
    apply Ascii.eqb_eq in H; subst c; reflexivity.
Qed.

Lemma trimStart_app (b t : string) (c : ascii) :
  JSString.is_space c = false ->
  JSString.trimStart (String.append b (String c t))
  = String.append (JSString.trimStart b) (String c t).
Proof.
  intros Hc. induction b as [|x b IH].
  - rewrite !append_nil. now apply trimStart_keep.
  - rewrite append_cons. cbn [JSString.trimStart].
    destruct (JSString.is_space x); [exact IH | now rewrite append_cons].
Qed.

Lemma trimStart_idem (s : string) : JSString.trimStart (JSString.trimStart s) = JSString.trimStart s.
Proof.
  induction s as [|c s IH]; [reflexivity|]. cbn [JSString.trimStart].
  destruct (JSString.is_space c) eqn:Hc; [exact IH | now apply trimStart_keep].
Qed.

Lemma trimEnd_solid (t : string) :
  all_chars (fun c => negb (JSString.is_space c)) t = true -> JSString.trimEnd t = t.
Proof.
  intros H. rewrite <- (append_nil_r t) at 1. rewrite trimEnd_app by exact H.
  cbn [JSString.trimEnd]. apply append_nil_r.
Qed.

Lemma trimEnd_closed (x t : string) :
  t <> "" -> all_chars (fun c => negb (JSString.is_space c)) t = true ->
  JSString.trimEnd (String.append x t) = String.append x t.
Proof.
  intros Ht Hs. induction x as [|c x IH].
  - rewrite append_nil. now apply trimEnd_solid.
  - rewrite append_cons. cbn [JSString.trimEnd]. rewrite IH.
    destruct (String.append x t) eqn:E; [|reflexivity].
    destruct x; [rewrite append_nil in E; contradiction | discriminate].
Qed.

Lemma closing_solid (t : string) :
  all_chars is_terminator t = true ->
  all_chars (fun c => negb (JSString.is_space c)) t = true.
Proof.
  apply all_chars_impl. intros c Hc. now rewrite (terminator_not_space c Hc).
Qed.

Lemma trim_sentence (body closing : string) :
  closing <> "" -> all_chars is_terminator closing = true ->
  JSString.trim (String.append body closing)
  = String.append (JSString.trimStart body) closing.
Proof.
  intros Hne Hc. unfold JSString.trim.
  destruct closing as [|c t]; [contradiction|].
  rewrite trimStart_app.
  - apply trimEnd_closed; [discriminate | now apply closing_solid].
  - cbn [all_chars] in Hc. apply andb_true_iff in Hc as [Hc _]. now apply terminator_not_space.
Qed.

Lemma trim_sentence_like (s : string) :
  sentence_like s ->
  sentence_like (JSString.trim s) /\ JSString.trim (JSString.trim s) = JSString.trim s.
Proof.
  intros (body & closing & -> & Hb & Hne & Hc).
  rewrite trim_sentence by assumption. split.
  - exists (JSString.trimStart body), closing. repeat split; try assumption.
    now apply all_chars_trimStart.
  - rewrite trim_sentence by assumption. now rewrite trimStart_idem.
Qed.

Lemma sentence_like_nonempty (s : string) : sentence_like s -> s <> "".
Proof.
  intros (body & closing & -> & _ & Hne & _) E.
  destruct body; [rewrite append_nil in E; contradiction | discriminate].
Qed.

Lemma snoc_nonempty (s : string) (c : ascii) : snoc s c <> "".
Proof. unfold snoc. destruct s; discriminate. Qed.

Lemma reading_step (cur : string) (closing : bool) (c : ascii) :
  reading cur closing -> cur <> "" -> is_terminator c = true -> reading (snoc cur c) true.
Proof.
  intros Hr Hne Hc. split; [apply snoc_nonempty|]. destruct closing.
  - destruct Hr as (_ & body & t & -> & Hb & Ht & Hall).
    exists body, (snoc t c). unfold snoc. rewrite append_assoc.
    repeat split; [exact Hb | destruct t; discriminate |].
    rewrite all_chars_app, Hall. cbn. now rewrite Hc.
  - exists cur, (String c ""). repeat split; [exact Hr | discriminate |].
    cbn. now rewrite Hc.
Qed.

Lemma sentenceMatches_like (text cur : string) (closing : bool) :
  reading cur closing ->
  forall m, In m (sentenceMatches cur closing text) -> sentence_like m.
Proof.
  revert cur closing. induction text as [|c r IH]; intros cur closing Hr m Hm.
  - cbn in Hm. destruct closing; [|contradiction]. destruct Hm as [<-|[]]. apply Hr.
  - cbn [sentenceMatches] in Hm. destruct (is_terminator c) eqn:Hc.
    + destruct cur as [|x cur'] eqn:Ecur.
      * apply (IH "" false); [reflexivity | exact Hm].
      * apply (IH (snoc (String x cur') c) true); [|exact Hm].
        apply (reading_step _ closing); [exact Hr | discriminate | exact Hc].
    + destruct closing.
      * destruct Hm as [<-|Hm]; [apply Hr|].
        apply (IH (String c "") false); [|exact Hm]. cbn. now rewrite Hc.
      * apply (IH (snoc cur c) false); [|exact Hm].
        unfold reading, no_terminator, snoc in *. rewrite all_chars_app, Hr. cbn. now rewrite Hc.
Qed.

Lemma sentenceMatches_plain (tail cur : string) (closing : bool) :
  no_terminator tail = true ->
  sentenceMatches cur closing tail = if closing then [cur] else [].
Proof.
  revert cur closing. induction tail as [|c r IH]; intros cur closing H; [reflexivity|].
  cbn in H. apply andb_true_iff in H as [Hc Hr]. apply negb_true_iff in Hc.
  cbn [sentenceMatches]. rewrite Hc. destruct closing; now rewrite IH.
Qed.

Lemma sentenceMatches_tail (text tail cur : string) (closing : bool) (c : ascii) :
  is_terminator c = true -> no_terminator tail = true ->
  sentenceMatches cur closing (String.append text (String c tail))
  = sentenceMatches cur closing (String.append text (String c "")).
Proof.
  intros Hc Ht. revert cur closing. induction text as [|x text IH]; intros cur closing.
  - rewrite !append_nil. cbn [sentenceMatches]. rewrite Hc.
    destruct cur; now rewrite sentenceMatches_plain.
  - rewrite !append_cons. cbn [sentenceMatches].
    destruct (is_terminator x); [destruct cur | destruct closing]; now rewrite ?IH.
Qed.

Lemma splitIntoSentences_like (text s : string) :
  In s (splitIntoSentences text) ->
  (10 < String.length s)%nat /\ sentence_like s /\ JSString.trim s = s.
Proof.
  unfold splitIntoSentences. intros H. apply List.filter_In in H as [Hin Hlen].
  apply Nat.ltb_lt in Hlen. split; [exact Hlen|].
  apply in_map_iff in Hin as (m & <- & Hm).
  apply trim_sentence_like. apply (sentenceMatches_like text "" false); [reflexivity | exact Hm].
Qed.

End SentenceFacts.

(** X22 ([splitIntoSentences]): every sentence handed to the analysis is
    longer than 10 characters, has no white space at either end, and is
    some text free of [.], [!] and [?] followed by a non-empty run of
    these characters. *)
Theorem splitIntoSentences_shape (text s : string) :
  In s (Privacy.splitIntoSentences text) ->
  (10 < String.length s)%nat /\ sentence_like s /\ JSString.trim s = s.
Proof. apply SentenceFacts.splitIntoSentences_like. Qed.

Lemma splitIntoSentences_shape_witness :
  In "We collect data!" (Privacy.splitIntoSentences "Hi. We collect data! and more")
  /\ sentence_like "We collect data!".
Proof.
  assert (H : In "We collect data!"
                 (Privacy.splitIntoSentences "Hi. We collect data! and more")).
  { vm_compute. left. reflexivity. }
  split; [exact H|]. exact (proj1 (proj2 (splitIntoSentences_shape _ _ H))).
Defined.

(** X23 ([splitIntoSentences]): text that follows the last [.], [!] or
    [?] is never analysed: it changes nothing in the sentences found,
    and a text without any of these characters yields no sentence. *)
Theorem unterminated_text_dropped (text tail : string) (c : ascii) :
  Privacy.is_terminator c = true ->
  no_terminator tail = true ->
  Privacy.splitIntoSentences (String.append text (String c tail))
  = Privacy.splitIntoSentences (String.append text (String c ""))
  /\ Privacy.splitIntoSentences tail = [].
Proof.
  intros Hc Ht. unfold Privacy.splitIntoSentences. split.
  - now rewrite SentenceFacts.sentenceMatches_tail.
  - now rewrite SentenceFacts.sentenceMatches_plain.
Qed.

Lemma unterminated_text_dropped_witness :
  Privacy.splitIntoSentences "We collect your data. We also sell your personal data"
  = ["We collect your data."].
Proof.
  change (Privacy.splitIntoSentences
            (String.append "We collect your data" (String "." " We also sell your personal data"))
          = ["We collect your data."]).
  rewrite (proj1 (unterminated_text_dropped "We collect your data" " We also sell your personal data" "."
                    ltac:(reflexivity) ltac:(vm_compute; reflexivity))).
  vm_compute. reflexivity.
Defined.

Module ChunkFacts.
Import Privacy.

Lemma evidence_truthy (sentence : string) :
  sentence_like sentence -> JSString.truthy (extractRelevantEvidence sentence) = true.
Proof.
  intros H. apply SentenceFacts.trim_sentence_like in H as [H _].
  apply SentenceFacts.sentence_like_nonempty in H. unfold extractRelevantEvidence.
  destruct (JSString.trim sentence); [contradiction | reflexivity].
Qed.

Lemma aggregate_none (acc : ChunkCategory) :
  backed acc -> backed (aggregate acc (mkCategory 0 None)).
Proof. unfold backed, aggregate. cbn. lia. Qed.

Lemma aggregate_some (acc : ChunkCategory) (n : Z) (e : string) :
  JSString.truthy e = true -> 5 <= n <= 10 ->
  backed acc -> backed (aggregate acc (mkCategory n (Some e))).
Proof.
  unfold backed, aggregate. cbn [score evidence total evidences]. intros -> Hn H.
  rewrite length_app. cbn [length]. lia.
Qed.

Lemma addSentence_backed (analysis : ChunkAnalysis) (sentence : string) :
  sentence_like sentence ->
  backed (chunkCollection analysis) /\ backed (chunkSharing analysis)
  /\ backed (chunkRights analysis) /\ backed (chunkSecurity analysis)
  /\ chunkUsage analysis = emptyCategory ->
  backed (chunkCollection (addSentence analysis sentence))
  /\ backed (chunkSharing (addSentence analysis sentence))
  /\ backed (chunkRights (addSentence analysis sentence))
  /\ backed (chunkSecurity (addSentence analysis sentence))
  /\ chunkUsage (addSentence analysis sentence) = emptyCategory.
Proof.
  intros Hs (Hc & Hsh & Hr & Hse & Hu).
  pose proof (evidence_truthy sentence Hs) as He.
  unfold addSentence, analyzeSentence.
  cbn [chunkCollection chunkSharing chunkRights chunkSecurity chunkUsage
       dataCollection dataSharing userRights security dataUsage].
  refine (conj _ (conj _ (conj _ (conj _ _)))).
  - destruct (_ && _); [|now apply aggregate_none].
    apply aggregate_some; [exact He | apply PrivacyFacts.collection_range | exact Hc].
  - destruct (_ && _); [|now apply aggregate_none].
    apply aggregate_some; [exact He | | exact Hsh].
    pose proof (PrivacyFacts.sharing_range sentence (analyzeSentenceContext sentence)). lia.
  - destruct (hasUserRightsTerms _); [|now apply aggregate_none].
    apply aggregate_some; [exact He | | exact Hr].
    pose proof (PrivacyFacts.rights_range sentence (analyzeSentenceContext sentence)). lia.
  - destruct (hasSecurityTerms _); [|now apply aggregate_none].
    apply aggregate_some; [exact He | apply PrivacyFacts.security_range | exact Hse].
  - rewrite Hu. reflexivity.
Qed.

Lemma fold_backed (sentences : list string) (analysis : ChunkAnalysis) :
  (forall s, In s sentences -> sentence_like s) ->
  backed (chunkCollection analysis) /\ backed (chunkSharing analysis)
  /\ backed (chunkRights analysis) /\ backed (chunkSecurity analysis)
  /\ chunkUsage analysis = emptyCategory ->
  let a := fold_left addSentence sentences analysis in
  backed (chunkCollection a) /\ backed (chunkSharing a)
  /\ backed (chunkRights a) /\ backed (chunkSecurity a)
  /\ chunkUsage a = emptyCategory.
Proof.
  revert analysis. induction sentences as [|s l IH]; intros analysis Hall H; [exact H|].
  cbn [fold_left]. apply IH.
  - intros x Hx. apply Hall. now right.
  - apply addSentence_backed; [apply Hall; now left | exact H].
Qed.

End ChunkFacts.

(** X24 ([enhancedAnalyzeSingleChunk] over [splitIntoSentences] and
    [analyzeSentence]): in the analysis of a chunk every piece of
    evidence of a category stands for between 5 and 10 points of that
    category's score, so the score lies between 5 and 10 times the number
    of pieces; the data usage category stays at score 0 with no evidence,
    whatever the text. *)
Theorem chunk_scores_backed (text : string) :
  let a := Privacy.enhancedAnalyzeSingleChunk text in
  backed (Privacy.chunkCollection a)
  /\ backed (Privacy.chunkSharing a)
  /\ backed (Privacy.chunkRights a)
  /\ backed (Privacy.chunkSecurity a)
  /\ Privacy.chunkUsage a = Privacy.emptyCategory.
Proof.
  unfold Privacy.enhancedAnalyzeSingleChunk. apply ChunkFacts.fold_backed.
  - intros s Hs. now apply SentenceFacts.splitIntoSentences_like in Hs as (_ & H & _).
  - unfold backed. cbn. repeat split; lia.
Qed.

Module SplitFacts.
Import Privacy.

Lemma joined_snoc (chunks : list string) (c : string) :
  joined (chunks ++ [c]) = String.append (joined chunks) c.
Proof.
  induction chunks as [|x l IH]; cbn.
  - apply SentenceFacts.append_nil_r.
  - unfold joined in IH. rewrite IH. symmetry. apply SentenceFacts.append_assoc.
Qed.

Lemma length_zero (s : string) : String.length s = 0%nat -> s = "".
Proof. destruct s; [reflexivity | discriminate]. Qed.

Lemma chunkLoop_spec (limit : nat) (every paragraphs : list string) :
  (forall p, In p paragraphs -> In p every) ->
  forall (chunks : list string) (currentChunk : string),
  (forall c, In c chunks -> (String.length c <= limit + 2)%nat \/ one_paragraph every c) ->
  (currentChunk = "" \/ (String.length currentChunk <= limit + 2)%nat
   \/ one_paragraph every currentChunk) ->
  (forall c, In c (fst (chunkLoop limit chunks currentChunk paragraphs)) ->
             (String.length c <= limit + 2)%nat \/ one_paragraph every c)
  /\ (snd (chunkLoop limit chunks currentChunk paragraphs) = ""
      \/ (String.length (snd (chunkLoop limit chunks currentChunk paragraphs)) <= limit + 2)%nat
      \/ one_paragraph every (snd (chunkLoop limit chunks currentChunk paragraphs)))
  /\ String.append (joined (fst (chunkLoop limit chunks currentChunk paragraphs)))
                   (snd (chunkLoop limit chunks currentChunk paragraphs))
     = String.append (joined chunks)
         (String.append currentChunk
            (joined (map (fun p => String.append p paragraphBreak) paragraphs))).
Proof.
  induction paragraphs as [|p rest IH]; intros Hsub chunks cur Hchunks Hcur.
  - cbn. rewrite SentenceFacts.append_nil_r. auto.
  - cbn [chunkLoop map].
    assert (Hp : one_paragraph every (String.append p paragraphBreak)).
    { exists p. split; [apply Hsub; now left | reflexivity]. }
    assert (Hrest : forall q, In q rest -> In q every) by (intros q Hq; apply Hsub; now right).
    destruct ((limit <? String.length cur + String.length p)%nat
              && (0 <? String.length cur)%nat) eqn:Hflush.
    + apply andb_true_iff in Hflush as [_ Hpos]. apply Nat.ltb_lt in Hpos.
      rewrite append_nil.
      destruct (IH Hrest (chunks ++ [cur]) (String.append p paragraphBreak)) as (H1 & H2 & H3).
      * intros c Hc. apply in_app_iff in Hc as [Hc|[<-|[]]]; [now apply Hchunks|].
        destruct Hcur as [->|Hcur]; [cbn in Hpos; lia | exact Hcur].
      * right. right. exact Hp.
      * refine (conj H1 (conj H2 _)). rewrite H3, joined_snoc.
        cbn [joined fold_right]. now rewrite !SentenceFacts.append_assoc.
    + destruct (IH Hrest chunks (String.append cur (String.append p paragraphBreak)))
        as (H1 & H2 & H3).
      * exact Hchunks.
      * apply andb_false_iff in Hflush as [Hfit|Hzero].
        -- apply Nat.ltb_ge in Hfit. right. left.
           rewrite !SentenceFacts.append_length. cbn. lia.
        -- apply Nat.ltb_ge in Hzero. assert (cur = "") as -> by (apply length_zero; lia).
           rewrite append_nil. right. right. exact Hp.
      * refine (conj H1 (conj H2 _)). rewrite H3.
        cbn [joined fold_right]. now rewrite !SentenceFacts.append_assoc.
Qed.

End SplitFacts.

(** X25 ([contextAwareSplit], from the paragraphs on): a chunk is longer
    than the limit plus the two line breaks only when it consists of a
    single paragraph, and the chunks put end to end are the paragraphs,
    each followed by two line breaks, up to a last part of white space
    only that is left out. *)
Theorem contextAwareSplit_spec (paragraphs : list string) (limit : nat) :
  (forall chunk, In chunk (Privacy.contextAwareSplit paragraphs limit) ->
     (String.length chunk <= limit + 2)%nat \/ one_paragraph paragraphs chunk)
  /\ exists rest,
       blank rest
       /\ String.append (joined (Privacy.contextAwareSplit paragraphs limit)) rest
          = joined (map (fun p => String.append p Privacy.paragraphBreak) paragraphs).
Proof.
  unfold Privacy.contextAwareSplit.
  destruct (SplitFacts.chunkLoop_spec limit paragraphs paragraphs (fun p H => H) [] ""
              (fun c (H : In c []) => match H with end) (or_introl eq_refl)) as (H1 & H2 & H3).
  destruct (Privacy.chunkLoop limit [] "" paragraphs) as [chunks cur].
  cbn [fst snd] in *. cbn [joined fold_right] in H3. rewrite !append_nil in H3.
  destruct (JSString.truthy (JSString.trim cur)) eqn:Ht.
  - split.
    + intros chunk Hc. apply in_app_iff in Hc as [Hc|[<-|[]]]; [now apply H1|].
      destruct H2 as [->|H2]; [discriminate | exact H2].
    + exists "". split; [reflexivity|].
      now rewrite SentenceFacts.append_nil_r, SplitFacts.joined_snoc.
  - split; [exact H1|]. exists cur. split; [|exact H3].
    unfold blank. destruct (JSString.trim cur); [reflexivity | discriminate].
Qed.

Module PopupFacts.

Lemma reached_iff (s : Settings) (limit : Z) :
  timeRestrictionsEnabled s = true -> globalDailyLimit s = Some (Int limit) -> 0 < limit ->
  (exists usedMin, Popup.loadPopupTimeData s = Popup.LimitReached usedMin limit)
  <-> 60000 * limit <= globalUsed s.
Proof.
  intros He Hl Hpos. unfold Popup.loadPopupTimeData. rewrite Hl, He.
  destruct (0 <? limit) eqn:E; [|apply Z.ltb_ge in E; lia]. cbn [andb].
  assert (Hused : (if truthyZ (globalUsed s) then globalUsed s else 0) = globalUsed s).
  { unfold truthyZ. destruct (globalUsed s =? 0) eqn:E0; [|reflexivity].
    apply Z.eqb_eq in E0. now rewrite E0. }
  rewrite Hused. destruct (limit <=? globalUsed s / 60000) eqn:Hr.
  - apply Z.leb_le in Hr. split; [intros _ | intros _; eauto].
    pose proof (Z.mul_div_le (globalUsed s) 60000 ltac:(lia)). lia.
  - apply Z.leb_gt in Hr. split; [intros [u Hu]; discriminate|].
    intros H. exfalso.
    assert (limit <= globalUsed s / 60000) by (apply Z.div_le_lower_bound; lia). lia.
Qed.

End PopupFacts.

(** X26 ([loadPopupTimeData] of the popup against [applyTimeUpdates] and
    [checkLimits] of the engine): the engine counts [globalUsed] in
    minutes and intervenes once it reaches the daily limit, while the
    popup divides the same stored number by 60000 before it compares: with
    the restrictions enabled and a positive limit, the popup reports the
    limit as reached exactly when [globalUsed] is at least 60000 times
    the limit, and the engine treats it as reached exactly when
    [globalUsed] is at least the limit. *)
Theorem popup_reached_iff (s : Settings) (limit : Z) :
  timeRestrictionsEnabled s = true ->
  globalDailyLimit s = Some (Int limit) ->
  0 < limit ->
  ((exists usedMin, Popup.loadPopupTimeData s = Popup.LimitReached usedMin limit)
   <-> 60000 * limit <= globalUsed s)
  /\ (globalBreach s = true <-> limit <= globalUsed s).
Proof.
  intros He Hl Hpos. split; [now apply PopupFacts.reached_iff|].
  unfold globalBreach. rewrite Hl. cbn [JSNumber.truthy JSNumber.geb].
  destruct (limit =? 0) eqn:E; [apply Z.eqb_eq in E; lia|]. cbn [negb andb].
  apply Z.leb_le.
Qed.

Lemma popup_reached_iff_witness :
  let s := mkSettings true (Some (Int 60)) 75 "Time is up" [] "Mon Jan 01 2024" in
  globalBreach s = true
  /\ Popup.loadPopupTimeData s = Popup.MinutesLeft 0 60 60.
Proof.
  cbv zeta.
  destruct (popup_reached_iff (mkSettings true (Some (Int 60)) 75 "Time is up" [] "Mon Jan 01 2024") 60
              eq_refl eq_refl ltac:(lia)) as [_ Hb].
  split; [apply Hb; cbn; lia | vm_compute; reflexivity].
Defined.
